(** * Poll2 core: FIFO drain, spill framing, broadcast, file rotation, run control

    A shallow embedding of [Poll/source/poll2_core.cpp] (class [Poll]):
    [ReadFIFO], [broadcast_data], [write_data], [open_output_file],
    [close_output_file], [StartRun] and friends, one iteration of
    [command_control] and one iteration of [run_control], [TabComplete],
    [synch_mods], [initialize], [close] and the support functions
    [split_str] and [pad_string].

    Conventions.
    - [word_t] and [unsigned int] are 32-bit: a value is a [Z] and every
      assignment to such a variable goes through [w32].  [size_t] counters
      ([dataWords], [parseWords]) are 64-bit and stay far below 2^64; they are
      plain [Z].
    - The static array [fifoData] is a map from index to word.  The source
      allocates [(EXTERNAL_FIFO_LENGTH + 2) * n_cards] words
      ([fifoData_length]) and never checks an index against that length: a
      write beyond it is undefined in C++.  [extent] is the end of what the
      pass over a module writes, [in_array] and [within_array] say that a
      module, or the loop over the modules, stays within the array; what is
      proved of the words of a spill is proved of passes that do.
    - Everything the class reaches through a pointer ([pif], [client],
      [statsHandler], [poll_term_], [std::cout]) is recorded as an [Event];
      answers coming back from the hardware are fields of [Pixie].
    - The two threads are not modelled: each function runs on the flags as
      they are when it is entered. *)

From Stdlib Require Import ZArith List Bool String Ascii Lia.
Import ListNotations.
Open Scope Z_scope.

(** ** Words and constants *)

Definition w32 (z : Z) : Z := z mod 2 ^ 32.

(** [#define POLL_TRIES 100] *)
Definition POLL_TRIES : nat := 100.

(** [#define MAX_FILE_SIZE 4294967296ll] *)
Definition MAX_FILE_SIZE : Z := 4294967296.

(** [EXTERNAL_FIFO_LENGTH] and [MIN_FIFO_READ] come from the Pixie-16
    headers, which are not part of the sources at hand: they are parameters. *)
Record Config : Type := {
  EXTERNAL_FIFO_LENGTH : Z;
  MIN_FIFO_READ : Z
}.

(** The values the XIA Pixie-16 headers give; used by the worked examples. *)
Definition pixie16 : Config :=
  {| EXTERNAL_FIFO_LENGTH := 131072; MIN_FIFO_READ := 9 |}.

(** ** The first word of an event, as [ReadFIFO] decodes it *)

Module Header.

(** [((fifoData[parseWords] & 0xF0) >> 4)] *)
Definition slotRead (w : Z) : Z := Z.shiftr (Z.land w 0xF0) 4.

(** [(fifoData[parseWords] & 0xF)] *)
Definition chanRead (w : Z) : Z := Z.land w 0xF.

(** [((fifoData[parseWords] & 0x7FFE2000) >> 17)] *)
Definition eventSize (w : Z) : Z := Z.shiftr (Z.land w 0x7FFE2000) 17.

(** [((fifoData[parseWords] & 0x20000000) != 0)] *)
Definition virtualChannel (w : Z) : bool := negb (Z.land w 0x20000000 =? 0).

(** A header for the examples: slot, channel and size packed the way the
    three masks above read them back. *)
Definition make (slot chan size : Z) : Z :=
  Z.lor (Z.lor chan (Z.shiftl slot 4)) (Z.shiftl size 17).

End Header.

(** ** The word buffer *)

Definition Buffer : Type := Z -> Z.

(** [buf[i] = v] *)
Definition store (buf : Buffer) (i v : Z) : Buffer :=
  fun j => if j =? i then v else buf j.

(** [for (k = 0; k < ws.size(); k++) buf[pos + k] = ws[k]] *)
Fixpoint store_words (buf : Buffer) (pos : Z) (ws : list Z) : Buffer :=
  match ws with
  | [] => buf
  | w :: ws' => store_words (store buf pos w) (pos + 1) ws'
  end.

(** The indices [from], [from + 1], ..., [from + n - 1]. *)
Definition range (from : Z) (n : nat) : list Z :=
  map (fun k => from + Z.of_nat k) (seq 0 n).

(** The words [buf[from .. from + n)]. *)
Definition load_words (buf : Buffer) (from n : Z) : list Z :=
  map buf (range from (Z.to_nat n)).

Definition len (ws : list Z) : Z := Z.of_nat (List.length ws).

(** The [n] words a successful [ReadFIFOWords (dest, n, mod)] deposits:
    the gateway's answer [ws], exactly [n] of them. *)
Definition fifo_words (n : Z) (ws : list Z) : list Z :=
  map (fun k => nth k ws 0) (seq 0 (Z.to_nat n)).

(** ** Bytes of a word array (the [char *] view used by the broadcaster) *)

(** The four bytes of a 32-bit word in memory order (little-endian host). *)
Definition le32 (w : Z) : list Z :=
  [w mod 256; (w / 256) mod 256; (w / 65536) mod 256; (w / 16777216) mod 256].

Definition bytes_of_words (ws : list Z) : list Z := flat_map le32 ws.

(** [((char * )data)[k]] *)
Definition byte_at (data : Buffer) (k : Z) : Z :=
  nth (Z.to_nat (k mod 4)) (le32 (data (k / 4))) 0.

(** The [n] bytes a [memcpy (dst, &data_l[off], n)] copies. *)
Definition data_bytes (data : Buffer) (off n : Z) : list Z :=
  map (byte_at data) (range off (Z.to_nat n)).

(** ** The arguments of an MCA run *)

(** [struct MCA_args] *)
Record MCA_args : Type := {
  useRoot : bool;
  totalTime : Z;
  basename : string
}.

(** [MCA_args::Zero] *)
Definition Zero : MCA_args :=
  {| useRoot := false; totalTime := 0; basename := "MCA" |}.

(** ** What the class does to its collaborators *)

Inductive Event : Type :=
| Print (line : string)                       (* a line on std::cout *)
| HexDump (ws : list Z)                       (* the hex dump of corrupted data *)
| StatsAddEvent (module : nat) (chan size : Z) (* statsHandler->AddEvent *)
| StatsAddTime                                (* statsHandler->AddTime *)
| StatsClear                                  (* statsHandler->Clear *)
| SendMessage (bytes : list Z) (nbytes : Z)   (* client->SendMessage of a data chunk *)
| SendText (text : string) (nbytes : Z)       (* client->SendMessage of a control string *)
| SendPacket                                  (* client->SendMessage of BuildPacket's packet *)
| FileOpen (run : Z) (continueRun ok : bool)  (* output_file.OpenNewFile *)
| FileClose                                   (* output_file.CloseFile *)
| FileWrite (ws : list Z)                     (* output_file.Write *)
| FileNextName (run : Z)                      (* output_file.GetNextFileName *)
| FileSetting (what arg : string)             (* SetDebugMode, SetFileFormat, SetFacility *)
| PixieBoot                                   (* pif->Boot (BootAll) *)
| PixieRemovePresetRunLength                  (* pif->RemovePresetRunLength (0) *)
| PixieStartListModeRun (ok : bool)           (* pif->StartListModeRun *)
| PixieEndRun                                 (* pif->EndRun *)
| PixieParameters (verb arg : string)         (* parameter commands of the terminal *)
| McaRun (args : MCA_args)                    (* the MCA session of mca_args and its mca->Run *)
| Setting (what arg : string)                 (* fdir, prefix, title, runnum, oform *)
| TermPause                                   (* poll_term_->pause *)
| TermTabComplete (matches : list string)     (* poll_term_->TabComplete *)
| TermStatus (tag : string)                   (* poll_term_->SetStatus *)
| WaitRunCtrlExit                             (* while (!run_ctrl_exit) sleep (1) *)
| Sleep.                                      (* sleep (1) *)

(** Answers of the hardware during one call.  [CheckFIFOWords cycle module]
    is the depth [module] reports at polling cycle [cycle];
    [ReadFIFOWords module n] is [None] when the read fails;
    [CheckRunStatus module again] is the run status of [module], [again]
    telling the second query of the stop sequence from the first. *)
Record Pixie : Type := {
  CheckFIFOWords : nat -> nat -> Z;
  ReadFIFOWords : nat -> Z -> option (list Z);
  GetSlotNumber : nat -> Z;
  StartListModeRun : bool;
  CheckRunStatus : nat -> bool -> Z
}.

(** ** The output file *)

(** Modelled from the spec: the Output Sink (class [PollOutputFile], whose
    code is not among the sources).  At most one file is open at a time;
    [open (title, run_no, prefix, dir, is_continuation)] may fail; a fresh run
    has suffix 0 and a continuation keeps the run number and increments the
    suffix; [write (words, n)] appends and reports the bytes written;
    [next_filename] advances the run number past any existing file.
    [disk_ok k] is the file system's answer to the [k]-th attempt to create a
    file: [None] when it cannot be created, [Some size] when it is created
    with [size] bytes of header. *)
Record PollOutputFile : Type := {
  IsOpen : bool;
  GetFilesize : Z;
  GetRunNumber : Z;
  GetSuffix : Z;
  contents : list Z;
  closed_files : list (Z * Z * list Z);
  on_disk : list Z;
  disk_ok : nat -> option Z;
  attempts : nat
}.

Definition OpenNewFile (run : Z) (continueRun : bool) (f : PollOutputFile)
  : bool * PollOutputFile :=
  match disk_ok f (attempts f) with
  | None =>
      (false,
       {| IsOpen := IsOpen f; GetFilesize := GetFilesize f;
          GetRunNumber := GetRunNumber f; GetSuffix := GetSuffix f;
          contents := contents f; closed_files := closed_files f;
          on_disk := on_disk f; disk_ok := disk_ok f;
          attempts := S (attempts f) |})
  | Some size =>
      (true,
       {| IsOpen := true; GetFilesize := size;
          GetRunNumber := run;
          GetSuffix := if continueRun then GetSuffix f + 1 else 0;
          contents := []; closed_files := closed_files f;
          on_disk := run :: on_disk f; disk_ok := disk_ok f;
          attempts := S (attempts f) |})
  end.

Definition CloseFile (f : PollOutputFile) : PollOutputFile :=
  {| IsOpen := false; GetFilesize := GetFilesize f;
     GetRunNumber := GetRunNumber f; GetSuffix := GetSuffix f;
     contents := [];
     closed_files := (GetRunNumber f, GetSuffix f, contents f) :: closed_files f;
     on_disk := on_disk f; disk_ok := disk_ok f; attempts := attempts f |}.

Definition Write (ws : list Z) (f : PollOutputFile) : Z * PollOutputFile :=
  if IsOpen f then
    (4 * len ws,
     {| IsOpen := true; GetFilesize := GetFilesize f + 4 * len ws;
        GetRunNumber := GetRunNumber f; GetSuffix := GetSuffix f;
        contents := contents f ++ ws; closed_files := closed_files f;
        on_disk := on_disk f; disk_ok := disk_ok f; attempts := attempts f |})
  else (0, f).

Fixpoint next_free (fuel : nat) (taken : list Z) (run : Z) : Z :=
  match fuel with
  | O => run
  | S k => if existsb (Z.eqb run) taken then next_free k taken (run + 1) else run
  end.

Definition GetNextFileName (run : Z) (f : PollOutputFile) : Z :=
  next_free (List.length (on_disk f)) (on_disk f) run.

(** ** The state of class [Poll]

    The flags of the constructor, the members [ReadFIFO] and the file
    functions use, and the two function-local statics of [ReadFIFO]
    ([fifoData], [partialEvent]), which outlive the call.  The strings
    ([output_directory], [filename_prefix], [output_title]) only travel to
    collaborators; a change of them is an [Event]. *)
Record Poll : Type := {
  kill_all : bool;
  start_acq : bool;
  stop_acq : bool;
  record_data : bool;
  do_reboot : bool;
  force_spill : bool;
  acq_running : bool;
  run_ctrl_exit : bool;
  had_error : bool;
  file_open : bool;
  do_MCA_run : bool;
  is_quiet : bool;
  debug_mode : bool;
  shm_mode : bool;
  n_cards : nat;
  threshWords : Z;
  next_run_num : Z;
  output_format : Z;
  output_file : PollOutputFile;
  fifoData : Buffer;
  partialEvent : nat -> list Z;
  mca_args : MCA_args
}.

Definition set_kill_all (v : bool) (st : Poll) : Poll :=
  {| kill_all := v;
     start_acq := start_acq st;
     stop_acq := stop_acq st;
     record_data := record_data st;
     do_reboot := do_reboot st;
     force_spill := force_spill st;
     acq_running := acq_running st;
     run_ctrl_exit := run_ctrl_exit st;
     had_error := had_error st;
     file_open := file_open st;
     do_MCA_run := do_MCA_run st;
     is_quiet := is_quiet st;
     debug_mode := debug_mode st;
     shm_mode := shm_mode st;
     n_cards := n_cards st;
     threshWords := threshWords st;
     next_run_num := next_run_num st;
     output_format := output_format st;
     output_file := output_file st;
     fifoData := fifoData st;
     partialEvent := partialEvent st;
     mca_args := mca_args st |}.

Definition set_start_acq (v : bool) (st : Poll) : Poll :=
  {| kill_all := kill_all st;
     start_acq := v;
     stop_acq := stop_acq st;
     record_data := record_data st;
     do_reboot := do_reboot st;
     force_spill := force_spill st;
     acq_running := acq_running st;
     run_ctrl_exit := run_ctrl_exit st;
     had_error := had_error st;
     file_open := file_open st;
     do_MCA_run := do_MCA_run st;
     is_quiet := is_quiet st;
     debug_mode := debug_mode st;
     shm_mode := shm_mode st;
     n_cards := n_cards st;
     threshWords := threshWords st;
     next_run_num := next_run_num st;
     output_format := output_format st;
     output_file := output_file st;
     fifoData := fifoData st;
     partialEvent := partialEvent st;
     mca_args := mca_args st |}.

Definition set_stop_acq (v : bool) (st : Poll) : Poll :=
  {| kill_all := kill_all st;
     start_acq := start_acq st;
     stop_acq := v;
     record_data := record_data st;
     do_reboot := do_reboot st;
     force_spill := force_spill st;
     acq_running := acq_running st;
     run_ctrl_exit := run_ctrl_exit st;
     had_error := had_error st;
     file_open := file_open st;
     do_MCA_run := do_MCA_run st;
     is_quiet := is_quiet st;
     debug_mode := debug_mode st;
     shm_mode := shm_mode st;
     n_cards := n_cards st;
     threshWords := threshWords st;
     next_run_num := next_run_num st;
     output_format := output_format st;
     output_file := output_file st;
     fifoData := fifoData st;
     partialEvent := partialEvent st;
     mca_args := mca_args st |}.

Definition set_record_data (v : bool) (st : Poll) : Poll :=
  {| kill_all := kill_all st;
     start_acq := start_acq st;
     stop_acq := stop_acq st;
     record_data := v;
     do_reboot := do_reboot st;
     force_spill := force_spill st;
     acq_running := acq_running st;
     run_ctrl_exit := run_ctrl_exit st;
     had_error := had_error st;
     file_open := file_open st;
     do_MCA_run := do_MCA_run st;
     is_quiet := is_quiet st;
     debug_mode := debug_mode st;
     shm_mode := shm_mode st;
     n_cards := n_cards st;
     threshWords := threshWords st;
     next_run_num := next_run_num st;
     output_format := output_format st;
     output_file := output_file st;
     fifoData := fifoData st;
     partialEvent := partialEvent st;
     mca_args := mca_args st |}.

Definition set_do_reboot (v : bool) (st : Poll) : Poll :=
  {| kill_all := kill_all st;
     start_acq := start_acq st;
     stop_acq := stop_acq st;
     record_data := record_data st;
     do_reboot := v;
     force_spill := force_spill st;
     acq_running := acq_running st;
     run_ctrl_exit := run_ctrl_exit st;
     had_error := had_error st;
     file_open := file_open st;
     do_MCA_run := do_MCA_run st;
     is_quiet := is_quiet st;
     debug_mode := debug_mode st;
     shm_mode := shm_mode st;
     n_cards := n_cards st;
     threshWords := threshWords st;
     next_run_num := next_run_num st;
     output_format := output_format st;
     output_file := output_file st;
     fifoData := fifoData st;
     partialEvent := partialEvent st;
     mca_args := mca_args st |}.

Definition set_force_spill (v : bool) (st : Poll) : Poll :=
  {| kill_all := kill_all st;
     start_acq := start_acq st;
     stop_acq := stop_acq st;
     record_data := record_data st;
     do_reboot := do_reboot st;
     force_spill := v;
     acq_running := acq_running st;
     run_ctrl_exit := run_ctrl_exit st;
     had_error := had_error st;
     file_open := file_open st;
     do_MCA_run := do_MCA_run st;
     is_quiet := is_quiet st;
     debug_mode := debug_mode st;
     shm_mode := shm_mode st;
     n_cards := n_cards st;
     threshWords := threshWords st;
     next_run_num := next_run_num st;
     output_format := output_format st;
     output_file := output_file st;
     fifoData := fifoData st;
     partialEvent := partialEvent st;
     mca_args := mca_args st |}.

Definition set_acq_running (v : bool) (st : Poll) : Poll :=
  {| kill_all := kill_all st;
     start_acq := start_acq st;
     stop_acq := stop_acq st;
     record_data := record_data st;
     do_reboot := do_reboot st;
     force_spill := force_spill st;
     acq_running := v;
     run_ctrl_exit := run_ctrl_exit st;
     had_error := had_error st;
     file_open := file_open st;
     do_MCA_run := do_MCA_run st;
     is_quiet := is_quiet st;
     debug_mode := debug_mode st;
     shm_mode := shm_mode st;
     n_cards := n_cards st;
     threshWords := threshWords st;
     next_run_num := next_run_num st;
     output_format := output_format st;
     output_file := output_file st;
     fifoData := fifoData st;
     partialEvent := partialEvent st;
     mca_args := mca_args st |}.

Definition set_run_ctrl_exit (v : bool) (st : Poll) : Poll :=
  {| kill_all := kill_all st;
     start_acq := start_acq st;
     stop_acq := stop_acq st;
     record_data := record_data st;
     do_reboot := do_reboot st;
     force_spill := force_spill st;
     acq_running := acq_running st;
     run_ctrl_exit := v;
     had_error := had_error st;
     file_open := file_open st;
     do_MCA_run := do_MCA_run st;
     is_quiet := is_quiet st;
     debug_mode := debug_mode st;
     shm_mode := shm_mode st;
     n_cards := n_cards st;
     threshWords := threshWords st;
     next_run_num := next_run_num st;
     output_format := output_format st;
     output_file := output_file st;
     fifoData := fifoData st;
     partialEvent := partialEvent st;
     mca_args := mca_args st |}.

Definition set_had_error (v : bool) (st : Poll) : Poll :=
  {| kill_all := kill_all st;
     start_acq := start_acq st;
     stop_acq := stop_acq st;
     record_data := record_data st;
     do_reboot := do_reboot st;
     force_spill := force_spill st;
     acq_running := acq_running st;
     run_ctrl_exit := run_ctrl_exit st;
     had_error := v;
     file_open := file_open st;
     do_MCA_run := do_MCA_run st;
     is_quiet := is_quiet st;
     debug_mode := debug_mode st;
     shm_mode := shm_mode st;
     n_cards := n_cards st;
     threshWords := threshWords st;
     next_run_num := next_run_num st;
     output_format := output_format st;
     output_file := output_file st;
     fifoData := fifoData st;
     partialEvent := partialEvent st;
     mca_args := mca_args st |}.

Definition set_file_open (v : bool) (st : Poll) : Poll :=
  {| kill_all := kill_all st;
     start_acq := start_acq st;
     stop_acq := stop_acq st;
     record_data := record_data st;
     do_reboot := do_reboot st;
     force_spill := force_spill st;
     acq_running := acq_running st;
     run_ctrl_exit := run_ctrl_exit st;
     had_error := had_error st;
     file_open := v;
     do_MCA_run := do_MCA_run st;
     is_quiet := is_quiet st;
     debug_mode := debug_mode st;
     shm_mode := shm_mode st;
     n_cards := n_cards st;
     threshWords := threshWords st;
     next_run_num := next_run_num st;
     output_format := output_format st;
     output_file := output_file st;
     fifoData := fifoData st;
     partialEvent := partialEvent st;
     mca_args := mca_args st |}.

Definition set_do_MCA_run (v : bool) (st : Poll) : Poll :=
  {| kill_all := kill_all st;
     start_acq := start_acq st;
     stop_acq := stop_acq st;
     record_data := record_data st;
     do_reboot := do_reboot st;
     force_spill := force_spill st;
     acq_running := acq_running st;
     run_ctrl_exit := run_ctrl_exit st;
     had_error := had_error st;
     file_open := file_open st;
     do_MCA_run := v;
     is_quiet := is_quiet st;
     debug_mode := debug_mode st;
     shm_mode := shm_mode st;
     n_cards := n_cards st;
     threshWords := threshWords st;
     next_run_num := next_run_num st;
     output_format := output_format st;
     output_file := output_file st;
     fifoData := fifoData st;
     partialEvent := partialEvent st;
     mca_args := mca_args st |}.

Definition set_is_quiet (v : bool) (st : Poll) : Poll :=
  {| kill_all := kill_all st;
     start_acq := start_acq st;
     stop_acq := stop_acq st;
     record_data := record_data st;
     do_reboot := do_reboot st;
     force_spill := force_spill st;
     acq_running := acq_running st;
     run_ctrl_exit := run_ctrl_exit st;
     had_error := had_error st;
     file_open := file_open st;
     do_MCA_run := do_MCA_run st;
     is_quiet := v;
     debug_mode := debug_mode st;
     shm_mode := shm_mode st;
     n_cards := n_cards st;
     threshWords := threshWords st;
     next_run_num := next_run_num st;
     output_format := output_format st;
     output_file := output_file st;
     fifoData := fifoData st;
     partialEvent := partialEvent st;
     mca_args := mca_args st |}.

Definition set_debug_mode (v : bool) (st : Poll) : Poll :=
  {| kill_all := kill_all st;
     start_acq := start_acq st;
     stop_acq := stop_acq st;
     record_data := record_data st;
     do_reboot := do_reboot st;
     force_spill := force_spill st;
     acq_running := acq_running st;
     run_ctrl_exit := run_ctrl_exit st;
     had_error := had_error st;
     file_open := file_open st;
     do_MCA_run := do_MCA_run st;
     is_quiet := is_quiet st;
     debug_mode := v;
     shm_mode := shm_mode st;
     n_cards := n_cards st;
     threshWords := threshWords st;
     next_run_num := next_run_num st;
     output_format := output_format st;
     output_file := output_file st;
     fifoData := fifoData st;
     partialEvent := partialEvent st;
     mca_args := mca_args st |}.

Definition set_shm_mode (v : bool) (st : Poll) : Poll :=
  {| kill_all := kill_all st;
     start_acq := start_acq st;
     stop_acq := stop_acq st;
     record_data := record_data st;
     do_reboot := do_reboot st;
     force_spill := force_spill st;
     acq_running := acq_running st;
     run_ctrl_exit := run_ctrl_exit st;
     had_error := had_error st;
     file_open := file_open st;
     do_MCA_run := do_MCA_run st;
     is_quiet := is_quiet st;
     debug_mode := debug_mode st;
     shm_mode := v;
     n_cards := n_cards st;
     threshWords := threshWords st;
     next_run_num := next_run_num st;
     output_format := output_format st;
     output_file := output_file st;
     fifoData := fifoData st;
     partialEvent := partialEvent st;
     mca_args := mca_args st |}.

Definition set_next_run_num (v : Z) (st : Poll) : Poll :=
  {| kill_all := kill_all st;
     start_acq := start_acq st;
     stop_acq := stop_acq st;
     record_data := record_data st;
     do_reboot := do_reboot st;
     force_spill := force_spill st;
     acq_running := acq_running st;
     run_ctrl_exit := run_ctrl_exit st;
     had_error := had_error st;
     file_open := file_open st;
     do_MCA_run := do_MCA_run st;
     is_quiet := is_quiet st;
     debug_mode := debug_mode st;
     shm_mode := shm_mode st;
     n_cards := n_cards st;
     threshWords := threshWords st;
     next_run_num := v;
     output_format := output_format st;
     output_file := output_file st;
     fifoData := fifoData st;
     partialEvent := partialEvent st;
     mca_args := mca_args st |}.

Definition set_output_format (v : Z) (st : Poll) : Poll :=
  {| kill_all := kill_all st;
     start_acq := start_acq st;
     stop_acq := stop_acq st;
     record_data := record_data st;
     do_reboot := do_reboot st;
     force_spill := force_spill st;
     acq_running := acq_running st;
     run_ctrl_exit := run_ctrl_exit st;
     had_error := had_error st;
     file_open := file_open st;
     do_MCA_run := do_MCA_run st;
     is_quiet := is_quiet st;
     debug_mode := debug_mode st;
     shm_mode := shm_mode st;
     n_cards := n_cards st;
     threshWords := threshWords st;
     next_run_num := next_run_num st;
     output_format := v;
     output_file := output_file st;
     fifoData := fifoData st;
     partialEvent := partialEvent st;
     mca_args := mca_args st |}.

Definition set_output_file (v : PollOutputFile) (st : Poll) : Poll :=
  {| kill_all := kill_all st;
     start_acq := start_acq st;
     stop_acq := stop_acq st;
     record_data := record_data st;
     do_reboot := do_reboot st;
     force_spill := force_spill st;
     acq_running := acq_running st;
     run_ctrl_exit := run_ctrl_exit st;
     had_error := had_error st;
     file_open := file_open st;
     do_MCA_run := do_MCA_run st;
     is_quiet := is_quiet st;
     debug_mode := debug_mode st;
     shm_mode := shm_mode st;
     n_cards := n_cards st;
     threshWords := threshWords st;
     next_run_num := next_run_num st;
     output_format := output_format st;
     output_file := v;
     fifoData := fifoData st;
     partialEvent := partialEvent st;
     mca_args := mca_args st |}.

Definition set_fifoData (v : Buffer) (st : Poll) : Poll :=
  {| kill_all := kill_all st;
     start_acq := start_acq st;
     stop_acq := stop_acq st;
     record_data := record_data st;
     do_reboot := do_reboot st;
     force_spill := force_spill st;
     acq_running := acq_running st;
     run_ctrl_exit := run_ctrl_exit st;
     had_error := had_error st;
     file_open := file_open st;
     do_MCA_run := do_MCA_run st;
     is_quiet := is_quiet st;
     debug_mode := debug_mode st;
     shm_mode := shm_mode st;
     n_cards := n_cards st;
     threshWords := threshWords st;
     next_run_num := next_run_num st;
     output_format := output_format st;
     output_file := output_file st;
     fifoData := v;
     partialEvent := partialEvent st;
     mca_args := mca_args st |}.

(** [partialEvent[module]] becomes [ws]. *)
Definition set_partialEvent (module : nat) (ws : list Z) (st : Poll) : Poll :=
  {| kill_all := kill_all st;
     start_acq := start_acq st;
     stop_acq := stop_acq st;
     record_data := record_data st;
     do_reboot := do_reboot st;
     force_spill := force_spill st;
     acq_running := acq_running st;
     run_ctrl_exit := run_ctrl_exit st;
     had_error := had_error st;
     file_open := file_open st;
     do_MCA_run := do_MCA_run st;
     is_quiet := is_quiet st;
     debug_mode := debug_mode st;
     shm_mode := shm_mode st;
     n_cards := n_cards st;
     threshWords := threshWords st;
     next_run_num := next_run_num st;
     output_format := output_format st;
     output_file := output_file st;
     fifoData := fifoData st;
     partialEvent := (fun k => if Nat.eqb k module then ws else partialEvent st k);
     mca_args := mca_args st |}.

Definition set_mca_args (v : MCA_args) (st : Poll) : Poll :=
  {| kill_all := kill_all st;
     start_acq := start_acq st;
     stop_acq := stop_acq st;
     record_data := record_data st;
     do_reboot := do_reboot st;
     force_spill := force_spill st;
     acq_running := acq_running st;
     run_ctrl_exit := run_ctrl_exit st;
     had_error := had_error st;
     file_open := file_open st;
     do_MCA_run := do_MCA_run st;
     is_quiet := is_quiet st;
     debug_mode := debug_mode st;
     shm_mode := shm_mode st;
     n_cards := n_cards st;
     threshWords := threshWords st;
     next_run_num := next_run_num st;
     output_format := output_format st;
     output_file := output_file st;
     fifoData := fifoData st;
     partialEvent := partialEvent st;
     mca_args := v |}.

(** ** Opening and closing the output file *)

(** [Poll::close_output_file (bool continueRun)] *)
Definition close_output_file (continueRun : bool) (st : Poll)
  : bool * Poll * list Event :=
  let st := set_file_open false st in
  if IsOpen (output_file st) then
    let st := set_output_file (CloseFile (output_file st)) st in
    let evs := [Print "Closing output file."; SendText "$CLOSE_FILE" 12; FileClose] in
    if negb continueRun then
      let run := GetNextFileName (next_run_num st) (output_file st) in
      (true, set_next_run_num run st, evs ++ [StatsClear; FileNextName run])
    else (true, st, evs)
  else (true, st, [Print "No file is open."]).

(** [Poll::open_output_file (bool continueRun)] *)
Definition open_output_file (continueRun : bool) (st : Poll)
  : bool * Poll * list Event :=
  if negb (IsOpen (output_file st)) then
    let '(ok, f) := OpenNewFile (next_run_num st) continueRun (output_file st) in
    let st := set_output_file f st in
    if negb ok then
      (false, set_record_data false st,
       [FileOpen (next_run_num st) continueRun false;
        Print "Failed to open output file! Check that the path is correct."])
    else
      (true, set_file_open true st,
       [FileOpen (next_run_num st) continueRun true; StatsClear;
        Print "Opening output file."; SendText "$OPEN_FILE" 12])
  else
    (false, st,
     [Print "Warning! A file is already open. Close the current file before opening a new one."]).

(** ** Broadcasting a spill *)

(** The body of [while (words_bcast < nWords)] in [Poll::broadcast_data].
    A datagram is recorded as the bytes the three [memcpy] put at the head
    of [shm_data] together with the length handed to [SendMessage]. *)
Fixpoint broadcast_chunks (fuel : nat) (data : Buffer)
  (nWords num_net_chunks net_chunk words_bcast : Z) : list Event :=
  match fuel with
  | O => []
  | S fuel' =>
      if words_bcast <? nWords then
        if 10000 <? w32 (nWords - words_bcast) then
          SendMessage
            (le32 net_chunk ++ le32 num_net_chunks
             ++ data_bytes data (w32 (words_bcast * 4)) 40000) 40008
          :: broadcast_chunks fuel' data nWords num_net_chunks
               (w32 (net_chunk + 1)) (w32 (words_bcast + 10000))
        else
          SendMessage
            (le32 net_chunk ++ le32 num_net_chunks
             ++ data_bytes data (w32 (words_bcast * 4))
                  (w32 ((nWords - words_bcast) * 4)))
            (w32 ((nWords - words_bcast + 2) * 4))
          :: broadcast_chunks fuel' data nWords num_net_chunks
               (w32 (net_chunk + 1))
               (w32 (words_bcast + w32 (nWords - words_bcast)))
      else []
  end.

(** [num_net_chunks] as [broadcast_data] computes it. *)
Definition net_chunks (nWords : Z) : Z :=
  let num_net_chunks := nWords / 10000 in
  let num_net_remain := nWords mod 10000 in
  if negb (num_net_remain =? 0) then w32 (num_net_chunks + 1) else num_net_chunks.

(** [Poll::broadcast_data (word_t *data, unsigned int nWords)].  Every pass of
    the loop sends at least one word, so [nWords] passes are enough. *)
Definition broadcast_data (data : Buffer) (nWords : Z) (st : Poll) : list Event :=
  if shm_mode st then
    (if debug_mode st then [Print "debug: Splitting words into network spill"] else [])
    ++ broadcast_chunks (Z.to_nat nWords) data nWords (net_chunks nWords) 1 0
  else [SendPacket].

(** ** Writing a spill *)

(** [Poll::write_data (word_t *data, unsigned int nWords)].  The product
    [4*nWords + 65552] is an [unsigned int]. *)
Definition write_data (data : Buffer) (nWords : Z) (st : Poll)
  : Z * Poll * list Event :=
  let '(st, ev_open) :=
    if negb (IsOpen (output_file st)) then
      let '(_, st', evs) := open_output_file false st in
      (st', Print "Recording data, but no file is open! Opening a new file." :: evs)
    else (st, []) in
  let current_filesize := GetFilesize (output_file st) in
  let '(st, ev_rotate) :=
    if MAX_FILE_SIZE <? current_filesize + w32 (4 * nWords + 65552) then
      let '(_, st1, evs1) := close_output_file true st in
      let '(_, st2, evs2) := open_output_file true st1 in
      (st2, [Print "Current filesize."; Print "Opening new file."] ++ evs1 ++ evs2)
    else (st, []) in
  let ws := load_words data 0 nWords in
  let '(written, f) := Write ws (output_file st) in
  (written, set_output_file f st,
   ev_open ++ ev_rotate
   ++ (if negb (is_quiet st) then [Print "Writing words."] else [])
   ++ [FileWrite ws]).

(** ** Requests of the terminal *)

(** [Poll::StartAcq] *)
Definition StartAcq (st : Poll) : bool * Poll * list Event :=
  if do_MCA_run st then
    (false, st, [Print "Warning! Cannot run acquisition while MCA program is running"])
  else if acq_running st then
    (false, st, [Print "Acquisition is already running"])
  else (true, set_start_acq true st, []).

(** [Poll::StopAcq] *)
Definition StopAcq (st : Poll) : bool * Poll * list Event :=
  if negb (acq_running st) then (false, st, [Print "Acquisition is not running"])
  else (true, set_stop_acq true st, []).

(** [Poll::StartRun] *)
Definition StartRun (st : Poll) : bool * Poll * list Event :=
  if do_MCA_run st then
    (false, st, [Print "Warning! Cannot run acquisition while MCA program is running"])
  else if acq_running st then
    (false, st, [Print "Acquisition is already running"])
  else
    let '(st, ev_close) :=
      if IsOpen (output_file st) then
        let '(_, st', evs) := close_output_file false st in (st', evs)
      else (st, []) in
    let '(ok, st, ev_open) := open_output_file false st in
    if negb ok then (false, st, ev_close ++ ev_open)
    else
      let st := set_record_data true st in
      let '(_, st, ev_acq) := StartAcq st in
      (true, st, ev_close ++ ev_open ++ ev_acq).

(** [Poll::StopRun] *)
Definition StopRun (st : Poll) : bool * Poll * list Event :=
  if negb (acq_running st) then (false, st, [Print "Acquisition is not running"])
  else
    let '(_, st, ev_stop) := StopAcq st in
    let ev_time := if record_data st then [Print "Run time"] else [] in
    (true, set_record_data false st, ev_stop ++ ev_time).

(** ** Draining the FIFOs: [Poll::ReadFIFO] *)

(** [*std::max_element (nWords.begin (), nWords.end ())] on a vector of
    unsigned words (the source dereferences it also when there is no card). *)
Definition max_element (nWords : list Z) : Z := fold_right Z.max 0 nWords.

(** The depths one polling cycle stores into [nWords]. *)
Definition poll_depths (pif : Pixie) (st : Poll) (timeout : nat) : list Z :=
  map (fun module => w32 (CheckFIFOWords pif timeout module)) (seq 0 (n_cards st)).

(** [for (timeout = 0; timeout < POLL_TRIES; timeout++)]: [tries] cycles are
    left, [timeout] have been done.  The result is the number of cycles done
    when the loop is left, and [nWords]. *)
Fixpoint wait_threshold (pif : Pixie) (st : Poll) (tries timeout : nat)
  (nWords : list Z) : nat * list Z :=
  match tries with
  | O => (timeout, nWords)
  | S tries' =>
      let nWords := poll_depths pif st timeout in
      if threshWords st <? max_element nWords then (S timeout, nWords)
      else wait_threshold pif st tries' (S timeout) nWords
  end.

(** [while (parseWords < dataWords + nWords[mod])]: [stop] is
    [dataWords + nWords[mod]].  The result is [parseWords] and [eventSize]
    when the loop is left, and what it reported on the way.  Every pass
    that does not [break] advances by at least one word, so a fuel of
    [stop - parseWords] is enough. *)
Fixpoint parse_events (fuel : nat) (buf : Buffer) (slotExpected : Z)
  (module : nat) (stop parseWords eventSize : Z) : Z * Z * list Event :=
  match fuel with
  | O => (parseWords, eventSize, [])
  | S fuel' =>
      if parseWords <? stop then
        let slotRead := Header.slotRead (buf parseWords) in
        let chanRead := Header.chanRead (buf parseWords) in
        let eventSize := Header.eventSize (buf parseWords) in
        let virtualChannel := Header.virtualChannel (buf parseWords) in
        if negb (slotRead =? slotExpected) then
          (parseWords, eventSize, [Print "Slot read not the same as slot expected"])
        else if (chanRead <? 0) || (15 <? chanRead) then
          (parseWords, eventSize, [Print "Channel read not valid!"])
        else if eventSize =? 0 then
          (parseWords, eventSize, [Print "ZERO EVENT SIZE"])
        else
          let '(p, e, evs) :=
            parse_events fuel' buf slotExpected module stop
              (parseWords + eventSize) eventSize in
          (p, e,
           (if negb virtualChannel then [StatsAddEvent module chanRead (4 * eventSize)]
            else []) ++ evs)
      else (parseWords, eventSize, [])
  end.

(** How the body of [for (mod = 0; mod < n_cards; mod++)] is left:
    by [return false], or on to the next module. *)
Inductive Drained : Type :=
| Abort (st : Poll) (evs : list Event)
| Next (st : Poll) (dataWords : Z) (evs : list Event).

(** One pass of the loop over the modules, [W] being [nWords[mod]] on entry. *)
Definition drain_module (cfg : Config) (pif : Pixie) (module : nat) (W : Z)
  (st : Poll) (dataWords : Z) : Drained :=
  if W <? MIN_FIFO_READ cfg then
    let buf := store (fifoData st) dataWords 2 in
    let buf := store buf (dataWords + 1) (Z.of_nat module) in
    Next (set_fifoData buf st) (dataWords + 2) []
  else if W <? 0 then
    let buf := store (fifoData st) dataWords 2 in
    let buf := store buf (dataWords + 1) (Z.of_nat module) in
    Next (set_fifoData buf st) (dataWords + 2)
      [Print "Number of FIFO words less than 0"]
  else if EXTERNAL_FIFO_LENGTH cfg <=? W then
    Abort (set_stop_acq true (set_had_error true st)) [Print "Full FIFO ABORTING!"]
  else
    let dataWords := dataWords + 1 in
    let buf := store (fifoData st) dataWords (Z.of_nat module) in
    let dataWords := dataWords + 1 in
    let partial := partialEvent st module in
    let buf := store_words buf dataWords partial in
    let st := set_fifoData buf st in
    match ReadFIFOWords pif module W with
    | None =>
        Abort (set_stop_acq true (set_had_error true st)) [Print "Unable to read"]
    | Some ws =>
        let buf := store_words buf (dataWords + len partial) (fifo_words W ws) in
        let ev_read := if negb (is_quiet st) then [Print "Read words"] else [] in
        let nW := w32 (W + len partial) in
        let st := set_partialEvent module [] (set_fifoData buf st) in
        let '(parseWords, eventSize, ev_parse) :=
          parse_events (Z.to_nat nW) buf (w32 (GetSlotNumber pif module)) module
            (dataWords + nW) dataWords 0 in
        if dataWords + nW <? parseWords then
          let missingWords := w32 (parseWords - dataWords - nW) in
          let partialSize := w32 (eventSize - missingWords) in
          let ev_partial := if debug_mode st then [Print "Partial event"] else [] in
          let saved := load_words buf (parseWords - eventSize) partialSize in
          let nW := w32 (nW - partialSize) in
          let buf := store buf (dataWords - 2) (w32 (nW + 2)) in
          Next (set_fifoData buf (set_partialEvent module saved st))
            (dataWords + nW) (ev_read ++ ev_parse ++ ev_partial)
        else if parseWords <? dataWords + nW then
          Abort (set_had_error true (set_stop_acq true st))
            (ev_read ++ ev_parse
             ++ [Print "Parsing indicated corrupted data"]
             ++ (if negb (is_quiet st) then [HexDump (load_words buf dataWords 100)]
                 else []))
        else
          let buf := store buf (dataWords - 2) (w32 (nW + 2)) in
          Next (set_fifoData buf st) (dataWords + nW) (ev_read ++ ev_parse)
    end.

(** The loop over the modules still to be visited. *)
Fixpoint drain_modules (cfg : Config) (pif : Pixie) (nWords : list Z)
  (modules : list nat) (st : Poll) (dataWords : Z) : Drained :=
  match modules with
  | [] => Next st dataWords []
  | module :: rest =>
      match drain_module cfg pif module (nth module nWords 0) st dataWords with
      | Abort st' evs => Abort st' evs
      | Next st' dataWords' evs =>
          match drain_modules cfg pif nWords rest st' dataWords' with
          | Abort st'' evs' => Abort st'' (evs ++ evs')
          | Next st'' dataWords'' evs' => Next st'' dataWords'' (evs ++ evs')
          end
      end
  end.

(** [static word_t *fifoData = new word_t[(EXTERNAL_FIFO_LENGTH + 2) * n_cards]]:
    the number of words of the array.  [n_cards] is set by [initialize]
    and does not change afterwards. *)
Definition fifoData_length (cfg : Config) (st : Poll) : Z :=
  (EXTERNAL_FIFO_LENGTH cfg + 2) * Z.of_nat (n_cards st).

(** One past the last index of [fifoData] the pass over [module] writes:
    the two words of an empty segment, nothing when the FIFO is full, and
    otherwise the slot of the length, the module word, the saved words
    and the [W] words [ReadFIFOWords] is asked to deposit behind them. *)
Definition extent (cfg : Config) (module : nat) (W : Z) (st : Poll)
  (dataWords : Z) : Z :=
  if W <? MIN_FIFO_READ cfg then dataWords + 2
  else if W <? 0 then dataWords + 2
  else if EXTERNAL_FIFO_LENGTH cfg <=? W then dataWords
  else dataWords + 2 + len (partialEvent st module) + W.

(** The pass over [module] stays within the array. *)
Definition in_array (cfg : Config) (module : nat) (W : Z) (st : Poll)
  (dataWords : Z) : bool :=
  (0 <=? dataWords) && (extent cfg module W st dataWords <=? fifoData_length cfg st).

(** The loop over the modules stays within the array, up to the module
    at which it is left. *)
Fixpoint within_array (cfg : Config) (pif : Pixie) (nWords : list Z)
  (modules : list nat) (st : Poll) (dataWords : Z) : bool :=
  match modules with
  | [] => true
  | module :: rest =>
      in_array cfg module (nth module nWords 0) st dataWords
      && match drain_module cfg pif module (nth module nWords 0) st dataWords with
         | Abort _ _ => true
         | Next st' dataWords' _ => within_array cfg pif nWords rest st' dataWords'
         end
  end.

(** [bool readData = ( *maxWords > threshWords || stop_acq)] and the test
    [readData || force_spill]. *)
Definition drains (st : Poll) (nWords : list Z) : bool :=
  ((threshWords st <? max_element nWords) || stop_acq st) || force_spill st.

(** The end of a pass that drained: the spill [fifoData[0 .. dataWords)] goes
    to the file, if data is recorded, and to the broadcaster. *)
Definition flush_spill (st : Poll) (dataWords : Z) : Poll * list Event :=
  let ev_quiet :=
    if negb (is_quiet st) then [Print "Writing/Broadcasting words."] else [] in
  let '(st, ev_write) :=
    if record_data st then
      let '(_, st', evs') := write_data (fifoData st) (w32 dataWords) st in
      (st', evs')
    else (st, []) in
  (st,
   ev_quiet ++ ev_write
   ++ broadcast_data (fifoData st) (w32 dataWords) st ++ [StatsAddTime]).

(** [Poll::ReadFIFO]; the second component of the result is the number of
    polling cycles of the wait loop, kept for inspection. *)
Definition ReadFIFO_cycles (cfg : Config) (pif : Pixie) (st : Poll)
  : bool * nat * Poll * list Event :=
  if negb (acq_running st) then (false, O, st, [])
  else
    let '(cycles, nWords) :=
      wait_threshold pif st POLL_TRIES 0 (repeat 0 (n_cards st)) in
    if drains st nWords then
      let st := set_force_spill false st in
      match drain_modules cfg pif nWords (seq 0 (n_cards st)) st 0 with
      | Abort st evs => (false, cycles, st, evs)
      | Next st dataWords evs =>
          let '(st', evs') := flush_spill st dataWords in
          (true, cycles, st', evs ++ evs')
      end
    else (true, cycles, st, []).

Definition ReadFIFO (cfg : Config) (pif : Pixie) (st : Poll)
  : bool * Poll * list Event :=
  let '(ret, _, st', evs) := ReadFIFO_cycles cfg pif st in (ret, st', evs).

(** ** The run-control loop: [Poll::run_control] *)

(** [if (kill_all)] at the head of the loop body: [None] is [break]. *)
Definition kill_check (st : Poll) : option Poll :=
  if kill_all st then
    if acq_running st then Some (set_stop_acq true st) else None
  else Some st.

(** [if (do_reboot)] *)
Definition reboot_check (st : Poll) : Poll * list Event :=
  if do_reboot st then
    if acq_running st then (set_stop_acq true st, [])
    else (set_do_reboot false st, [Print "Attempting PIXIE crate reboot"; PixieBoot])
  else (st, []).

(** [if (do_MCA_run)].  [McaRun] stands for the session the source makes
    of [mca_args] -- [new MCA_ROOT] or [new MCA_DAMM (pif, basename)], as
    compiled in, and [mca->Run (totalTime, &stop_acq)] when it is open --
    the MCA classes not being among the sources. *)
Definition mca_check (st : Poll) : Poll * list Event :=
  if do_MCA_run st then
    if acq_running st then (set_stop_acq true st, [])
    else
      (set_do_MCA_run false (set_stop_acq false (set_mca_args Zero st)),
       [Print (if 0 <? totalTime (mca_args st) then "Performing MCA data run"
               else "Performing infinite MCA data run");
        PixieRemovePresetRunLength; McaRun (mca_args st)])
  else (st, []).

(** [if (start_acq && !acq_running) ... else if (start_acq && acq_running)] *)
Definition start_check (pif : Pixie) (st : Poll) : Poll * list Event :=
  if start_acq st && negb (acq_running st) then
    if StartListModeRun pif then
      (set_start_acq false (set_acq_running true st),
       [PixieStartListModeRun true; Print "started"])
    else
      (set_start_acq false (set_had_error true (set_acq_running false st)),
       [PixieStartListModeRun false;
        Print "Failed to start list mode run. Try rebooting PIXIE"])
  else if start_acq st && acq_running st then
    (set_start_acq false st, [Print "Already running!"])
  else (st, []).

(** [for (size_t mod = 0; mod < n_cards; mod++)] of the stop sequence. *)
Fixpoint end_run_modules (cfg : Config) (pif : Pixie) (modules : list nat)
  (st : Poll) : Poll * list Event :=
  match modules with
  | [] => (st, [])
  | module :: rest =>
      let '(st, ev_flush) :=
        if CheckRunStatus pif module false =? 1 then
          let ev_left :=
            if negb (is_quiet st) then [Print "Module still has words in the FIFO."]
            else [] in
          let st := set_force_spill true st in
          let '(_, st', evs) := ReadFIFO cfg pif st in
          (st', ev_left ++ [Sleep] ++ evs)
        else (st, []) in
      let '(st, ev_status) :=
        if CheckRunStatus pif module true =? 0 then (st, [Print "Run end status: OK"])
        else (set_had_error true st, [Print "Run end status: ERROR"]) in
      let '(st, ev_rest) := end_run_modules cfg pif rest st in
      (st, ev_flush ++ ev_status ++ ev_rest)
  end.

(** [if (acq_running)]: the drain and the handling of a stop signal. *)
Definition acquire (cfg : Config) (pif : Pixie) (st : Poll) : Poll * list Event :=
  if acq_running st then
    let '(_, st, ev_read) := ReadFIFO cfg pif st in
    if stop_acq st then
      let st := set_acq_running false (set_stop_acq false st) in
      let '(st, ev_end) := end_run_modules cfg pif (seq 0 (n_cards st)) st in
      (st, ev_read ++ [PixieEndRun] ++ ev_end ++ [Print "stopped"])
    else (st, ev_read)
  else (st, []).

(** The status bar and the idle sleep that close the loop body. *)
Definition status_line (st : Poll) : list Event :=
  [TermStatus
     (if had_error st then "ErrorStr [ERROR]"
      else if acq_running st && record_data st then "OkayStr [ACQ]"
      else if acq_running st && negb (record_data st) then "WarningStr [ACQ]"
      else if do_MCA_run st then "OkayStr [MCA]"
      else "InfoStr [IDLE]")]
  ++ (if negb (acq_running st) && negb (do_MCA_run st) then [Sleep] else []).

(** How one pass of [while (true)] in [run_control] ends. *)
Inductive Tick : Type :=
| Exit (st : Poll)
| Again (st : Poll) (evs : list Event).

(** One pass of [while (true)] in [Poll::run_control]. *)
Definition run_control_tick (cfg : Config) (pif : Pixie) (st : Poll) : Tick :=
  match kill_check st with
  | None => Exit st
  | Some st =>
      let '(st, ev_reboot) := reboot_check st in
      let '(st, ev_mca) := mca_check st in
      let '(st, ev_start) := start_check pif st in
      let '(st, ev_acq) := acquire cfg pif st in
      Again st (ev_reboot ++ ev_mca ++ ev_start ++ ev_acq ++ status_line st)
  end.

(** [Poll::run_control] left to itself for at most [fuel] passes, the
    hardware of pass [k] being [pifs k]; [None] when the loop is still
    running after them. *)
Fixpoint run_control (cfg : Config) (pifs : nat -> Pixie) (fuel tick : nat)
  (st : Poll) : option (Poll * list Event) :=
  match fuel with
  | O => None
  | S fuel' =>
      match run_control_tick cfg (pifs tick) st with
      | Exit st' => Some (set_run_ctrl_exit true st', [Print "Run Control exited"])
      | Again st' evs =>
          match run_control cfg pifs fuel' (S tick) st' with
          | None => None
          | Some (st'', evs') => Some (st'', evs ++ evs')
          end
      end
  end.

(** ** The command interpreter: [Poll::command_control] *)

Definition is_space (c : ascii) : bool :=
  let n := nat_of_ascii c in
  (Nat.eqb n 32 || (Nat.leb 9 n && Nat.leb n 13))%bool.

Definition digit (c : ascii) : option Z :=
  let n := Z.of_nat (nat_of_ascii c) in
  if (48 <=? n) && (n <=? 57) then Some (n - 48) else None.

Fixpoint atoi_digits (s : string) (acc : Z) : Z :=
  match s with
  | EmptyString => acc
  | String c s' =>
      match digit c with
      | Some d => atoi_digits s' (10 * acc + d)
      | None => acc
      end
  end.

(** [strtol (s, NULL, 10)] of the C library: white space is skipped, a
    sign is taken and the digits that follow are read; a value outside
    [long] (64 bits) is replaced by [LONG_MIN] or [LONG_MAX]. *)
Fixpoint strtol (s : string) : Z :=
  match s with
  | EmptyString => 0
  | String c s' =>
      if is_space c then strtol s'
      else if Ascii.eqb c "-" then Z.max (- 2 ^ 63) (- atoi_digits s' 0)
      else if Ascii.eqb c "+" then Z.min (2 ^ 63 - 1) (atoi_digits s' 0)
      else Z.min (2 ^ 63 - 1) (atoi_digits s 0)
  end.

(** The conversion of a [long] to [int]: the low 32 bits, as a signed
    number. *)
Definition to_int (z : Z) : Z := (z + 2 ^ 31) mod 2 ^ 32 - 2 ^ 31.

(** [atoi (s)] of the C library, which is [(int) strtol (s, NULL, 10)]:
    the result is an [int] whatever the numeral. *)
Definition atoi (s : string) : Z := to_int (strtol s).

Definition tab : string := String (ascii_of_nat 9) EmptyString.

(** [s.find (t) != std::string::npos] *)
Definition found (t s : string) : bool :=
  match index 0 t s with Some _ => true | None => false end.

(** ** Splitting the argument string: [split_str] *)

(** [split_str (str_, args, delimiter_)].  The loop over the characters:
    [rest] is what is left of [str_] from position [i] on, so that
    [i == str_.size () - 1] holds when one character is left; [temp],
    [args] and [count] are the variables of the source, [args] being empty
    on entry ([args.clear ()]).  The result is [args] and the count
    returned. *)
Fixpoint split_loop (delimiter_ : ascii) (rest temp : string)
  (args : list string) (count : Z) : list string * Z :=
  match rest with
  | EmptyString => (args, count)
  | String c rest' =>
      let last := match rest' with EmptyString => true | _ => false end in
      if Ascii.eqb c delimiter_ || last then
        let temp := if last then (temp ++ String c EmptyString)%string else temp in
        split_loop delimiter_ rest' EmptyString (args ++ [temp]) (w32 (count + 1))
      else
        split_loop delimiter_ rest' (temp ++ String c EmptyString)%string args count
  end.

Definition split_str (str_ : string) (delimiter_ : ascii) : list string * Z :=
  split_loop delimiter_ str_ EmptyString [] 0.

(** The delimiter of the call [split_str (arg, arguments)] in
    [command_control] is the default of the declaration, which is in
    [poll2_core.h] and not among the sources.
    Modelled from the spec: the arguments of a command are separated by
    spaces ([mca root 5 test_]). *)
Definition default_delimiter : ascii := " ".

(** ** Tab completion: [Poll::TabComplete] *)

(** The static vector [commands] of [TabComplete]. *)
Definition commands : list string :=
  ["start"; "startacq"; "stop"; "stopacq"; "prefix"; "runnum"; "runtitle"; "close";
   "pread"; "pwrite"; "pmwrite"; "pmread"; "status"; "help"; "version"; "shm";
   "spill"; "hup"; "fdir"; "reboot"; "mca"; "dump"; "adjust_offsets"; "find_tau";
   "toggle"; "toggle_bit"; "csr_test"; "bit_test"; "debug"; "quiet"; "quit";
   "oform"; "title"; "facility"]%string.

(** The global vectors [chan_params] and [mod_params]. *)
Definition chan_params : list string :=
  ["TRIGGER_RISETIME"; "TRIGGER_FLATTOP"; "TRIGGER_THRESHOLD"; "ENERGY_RISETIME";
   "ENERGY_FLATTOP"; "TAU"; "TRACE_LENGTH"; "TRACE_DELAY"; "VOFFSET"; "XDT";
   "BASELINE_PERCENT"; "EMIN"; "BINFACTOR"; "CHANNEL_CSRA"; "CHANNEL_CSRB"; "BLCUT";
   "ExternDelayLen"; "ExtTrigStretch"; "ChanTrigStretch"; "FtrigoutDelay";
   "FASTTRIGBACKLEN"]%string.

Definition mod_params : list string :=
  ["MODULE_CSRA"; "MODULE_CSRB"; "MODULE_FORMAT"; "MAX_EVENTS"; "SYNCH_WAIT";
   "IN_SYNCH"; "SLOW_FILTER_RANGE"; "FAST_FILTER_RANGE"; "MODULE_NUMBER";
   "TrigConfig0"; "TrigConfig1"; "TrigConfig2"; "TrigConfig3";
   "SLOW_FILTER_RANGE"]%string.

(** [it.substr (n)] *)
Definition substr_from (n : nat) (it : string) : string :=
  substring n (String.length it - n) it.

(** [for (it ...) if (it.find (s) == 0) matches.push_back (it.substr (s.length ()))] *)
Definition completions (words : list string) (s : string) : list string :=
  flat_map (fun it => if prefix s it then [substr_from (String.length s) it] else [])
    words.

(** [s.find_last_of (c)] *)
Fixpoint find_last_of (c : ascii) (s : string) : option nat :=
  match s with
  | EmptyString => None
  | String a s' =>
      match find_last_of c s' with
      | Some i => Some (S i)
      | None => if Ascii.eqb a c then Some O else None
      end
  end.

(** [Poll::TabComplete (cmd)] *)
Definition TabComplete (cmd : string) : list string :=
  match index 0 " " cmd with
  | None => completions commands cmd
  | Some _ =>
      let strToComplete :=
        match find_last_of " " cmd with
        | Some i => substr_from (S i) cmd
        | None => cmd
        end in
      (if prefix "pwrite" cmd || prefix "pread" cmd
       then completions chan_params strToComplete else [])
      ++ (if prefix "pmwrite" cmd || prefix "pmread" cmd
          then completions mod_params strToComplete else [])
  end.

(** What [command_control] hands to the terminal for a line that holds a
    tab: [TabComplete (cmd.substr (0, cmd.length () - 1))]. *)
Definition tab_request (cmd : string) : list string :=
  TabComplete (substring 0 (String.length cmd - 1) cmd).

(** ** The arguments of the [mca] command *)

(** The [mca] branch of [command_control] once the command is accepted:
    [p_args] and [arguments] are what [split_str] made of the argument
    string, [a] is [mca_args].  [arguments.at (k)] is only reached with
    [k < p_args]. *)
Definition mca_arguments (p_args : Z) (arguments : list string) (a : MCA_args)
  : MCA_args * list Event :=
  let a :=
    if 1 <=? p_args then
      let type := nth 0 arguments ""%string in
      let a :=
        if String.eqb type "root" then
          {| useRoot := true; totalTime := totalTime a; basename := basename a |}
        else if negb (String.eqb type "damm") then
          {| useRoot := useRoot a; totalTime := atoi type; basename := basename a |}
        else a in
      if 2 <=? p_args then
        let a :=
          if totalTime a =? 0 then
            {| useRoot := useRoot a; totalTime := atoi (nth 1 arguments ""%string);
               basename := basename a |}
          else
            {| useRoot := useRoot a; totalTime := totalTime a;
               basename := nth 1 arguments ""%string |} in
        if 3 <=? p_args then
          {| useRoot := useRoot a; totalTime := totalTime a;
             basename := nth 2 arguments ""%string |}
        else a
      else a
    else a in
  if totalTime a =? 0 then
    ({| useRoot := useRoot a; totalTime := 10; basename := basename a |},
     [Print "Using default MCA time of 10 seconds"])
  else (a, []).

(** ** The chain of commands *)

(** How one pass of [while (true)] in [command_control] ends:
    [break], or back to the prompt. *)
Inductive Prompt : Type :=
| Leave (st : Poll) (evs : list Event)
| Back (st : Poll) (evs : list Event).

Definition toggled (verb : string) (st : Poll) (evs : list Event) : Prompt :=
  Back st (Print ("Toggling " ++ verb)%string :: evs).

(** [cmd == verb] *)
Definition is_cmd (cmd verb : string) : bool := String.eqb cmd verb.

(** The chain [if (cmd == "quit" || cmd == "exit") ... else ...]. *)
Definition dispatch (cmd arg : string) (st : Poll) : Prompt :=
  let busy :=
    "Warning! Cannot edit pixie parameters while acquisition is running"%string in
  if is_cmd cmd "quit" || is_cmd cmd "exit" then
    if do_MCA_run st then Back st [Print "Warning! Cannot quit while MCA program is running"]
    else if acq_running st then Back st [Print "Warning! Cannot quit while acquisition running"]
    else Leave (set_kill_all true st) [WaitRunCtrlExit]
  else if is_cmd cmd "kill" then
    if acq_running st || do_MCA_run st then
      Leave (set_kill_all true (set_stop_acq true st))
        [Print "Sending KILL signal"; WaitRunCtrlExit]
    else Leave (set_kill_all true st) [WaitRunCtrlExit]
  else if is_cmd cmd "help" || is_cmd cmd "h" then Back st [Print "Help:"]
  else if is_cmd cmd "version" || is_cmd cmd "v" then Back st [Print "Poll2 Core"]
  else if is_cmd cmd "status" then Back st [Print "Poll Run Status:"; Print "Poll Options:"]
  else if is_cmd cmd "run" then let '(_, st', evs) := StartRun st in Back st' evs
  else if is_cmd cmd "startacq" || is_cmd cmd "startvme" then
    let '(_, st', evs) := StartAcq st in Back st' evs
  else if is_cmd cmd "stop" then let '(_, st', evs) := StopRun st in Back st' evs
  else if is_cmd cmd "stopacq" || is_cmd cmd "stopvme" then
    let '(_, st', evs) := StopAcq st in Back st' evs
  else if is_cmd cmd "acq" || is_cmd cmd "shm" then
    toggled "shared-memory mode" (set_shm_mode (negb (shm_mode st)) st) []
  else if is_cmd cmd "reboot" then
    if do_MCA_run st then Back st [Print "Warning! Cannot reboot while MCA is running"]
    else if acq_running st || do_MCA_run st then
      Back st [Print "Warning! Cannot reboot while acquisition running"]
    else Back (set_do_reboot true st) [TermPause]
  else if is_cmd cmd "clo" || is_cmd cmd "close" then
    if do_MCA_run st then Back st [Print "Command not available for MCA run"]
    else if acq_running st && record_data st then
      Back st [Print "Warning! Cannot close file while acquisition running"]
    else let '(_, st', evs) := close_output_file false st in Back st' evs
  else if is_cmd cmd "hup" || is_cmd cmd "spill" then
    if do_MCA_run st then Back st [Print "Command not available for MCA run"]
    else if negb (acq_running st) then Back st [Print "Acquisition is not running"]
    else Back (set_force_spill true st) []
  else if is_cmd cmd "debug" then
    toggled "debug mode" (set_debug_mode (negb (debug_mode st)) st)
      [FileSetting "SetDebugMode" ""]
  else if is_cmd cmd "quiet" then
    toggled "quiet mode" (set_is_quiet (negb (is_quiet st)) st) []
  else if is_cmd cmd "fdir" then
    if String.eqb arg "" then Back st [Print "Using output directory"]
    else if file_open st then
      Back st [Print "Warning: Directory cannot be changed while a file is open!"]
    else
      let run := GetNextFileName (next_run_num st) (output_file st) in
      Back (set_next_run_num run st) [Setting "fdir" arg; FileNextName run]
  else if is_cmd cmd "prefix" then
    if String.eqb arg "" then Back st [Print "Using output filename prefix"]
    else if file_open st then
      Back st [Print "Warning: Prefix cannot be changed while a file is open!"]
    else
      let run := GetNextFileName 1 (output_file st) in
      Back (set_next_run_num run st)
        [Setting "prefix" arg; FileNextName run; FileNextName run]
  else if is_cmd cmd "title" then
    if String.eqb arg "" then Back st [Print "Using output file title"]
    else if file_open st then
      Back st [Print "Warning: Run title cannot be changed while a file is open!"]
    else Back st [Setting "title" arg]
  else if is_cmd cmd "facility" then
    if String.eqb arg "" then Back st [Print "Using output file facility"]
    else if negb (output_format st =? 1) then
      Back st [Print "Facility may only be changed for pld output format!"]
    else if file_open st then
      Back st [Print "Warning: Run facility cannot be changed while a file is open!"]
    else Back st [FileSetting "SetFacility" arg]
  else if is_cmd cmd "runnum" then
    if String.eqb arg "" then Back st [Print "Output file run number"]
    else if file_open st then
      Back st [Print "Warning: Run number cannot be changed while a file is open!"]
    else
      let run := GetNextFileName (w32 (atoi arg)) (output_file st) in
      Back (set_next_run_num run st) [Setting "runnum" arg; FileNextName run]
  else if is_cmd cmd "oform" then
    if negb (String.eqb arg "") then
      let format := atoi arg in
      if (format =? 0) || (format =? 1) || (format =? 2) then
        Back (set_output_format format st) [FileSetting "SetFileFormat" arg]
      else Back st [Print "Unknown output file format ID"]
    else Back st [Print "Using output file format"]
  else if is_cmd cmd "mca" || is_cmd cmd "MCA" then
    if do_MCA_run st then Back st [Print "MCA program is already running"]
    else if acq_running st then
      Back st [Print "Warning! Cannot run MCA program while acquisition is running"]
    else
      let '(arguments, p_args) := split_str arg default_delimiter in
      let '(a, evs) := mca_arguments p_args arguments (mca_args st) in
      Back (set_do_MCA_run true (set_mca_args a st)) evs
  else if is_cmd cmd "dump" then Back st [PixieParameters cmd arg]
  else if is_cmd cmd "pwrite" || is_cmd cmd "pmwrite" then
    if acq_running st || do_MCA_run st then Back st [Print busy]
    else Back st [PixieParameters cmd arg]
  else if is_cmd cmd "pread" || is_cmd cmd "pmread" then Back st [PixieParameters cmd arg]
  else if is_cmd cmd "adjust_offsets" then
    if acq_running st || do_MCA_run st then Back st [Print busy]
    else Back st [PixieParameters cmd arg]
  else if is_cmd cmd "find_tau" then
    if acq_running st || do_MCA_run st then Back st [Print busy]
    else Back st [PixieParameters cmd arg]
  else if is_cmd cmd "toggle" then
    if acq_running st || do_MCA_run st then Back st [Print busy]
    else Back st [PixieParameters cmd arg]
  else if is_cmd cmd "toggle_bit" then
    if acq_running st || do_MCA_run st then Back st [Print busy]
    else Back st [PixieParameters cmd arg]
  else if is_cmd cmd "csr_test" then Back st [Print "csr_test"]
  else if is_cmd cmd "bit_test" then Back st [Print "bit_test"]
  else Back st [Print "Unknown command"].

(** The verb and the argument of a line: [cmd.substr (0, index)] and
    [cmd.substr (index+1, cmd.size ()-index)], [index] being the first space. *)
Definition split_command (cmd : string) : string * string :=
  match index 0 " " cmd with
  | Some i => (substring 0 i cmd, substring (S i) (String.length cmd - i)%nat cmd)
  | None => (cmd, ""%string)
  end.

(** One pass of [while (true)] in [Poll::command_control], [cmd] being what
    [poll_term_->GetCommand ()] returned ([cmd_ready] is [true] throughout). *)
Definition command_control_step (cmd : string) (st : Poll) : Prompt :=
  let cmd := if String.eqb cmd "CTRL_D" then "quit"%string else cmd in
  if String.eqb cmd "CTRL_C" then Back st []
  else if found tab cmd then Back st [TermTabComplete (tab_request cmd)]
  else if String.eqb cmd "" then Back st []
  else
    let '(cmd, arg) := split_command cmd in
    (* We clear the error flag when a command is entered. *)
    let st := set_had_error false st in
    dispatch cmd arg st.

(** The state a pass of [command_control] leaves. *)
Definition prompt_state (p : Prompt) : Poll :=
  match p with Leave st _ => st | Back st _ => st end.

(** The state a pass of the loop over the modules leaves. *)
Definition drained_state (d : Drained) : Poll :=
  match d with Abort st _ => st | Next st _ _ => st end.

(** ** Support functions *)

(** [pad_string (input_, length_)].  The counter [i] is an [unsigned int]
    and the test is [i <= length_], so the loop is given fuel: [None] when
    it is still running after [fuel] passes. *)
Fixpoint pad_loop (fuel : nat) (i length_ : Z) (output : string) : option string :=
  match fuel with
  | O => None
  | S fuel' =>
      if i <=? length_ then
        pad_loop fuel' (w32 (i + 1)) length_ (output ++ ".")%string
      else Some output
  end.

Definition pad_string (fuel : nat) (input_ : string) (length_ : Z) : option string :=
  pad_loop fuel (w32 (Z.of_nat (String.length input_))) length_ input_.

(** [yesno (value_)] *)
Definition yesno (value_ : bool) : string := if value_ then "Yes" else "No".

(** ** Start-up: [Poll::synch_mods], [Poll::initialize], [Poll::close] *)

(** Answers of the crate at start-up. *)
Record PixieSetup : Type := {
  WriteSglModPar : string -> Z -> nat -> bool;
  GetNumberCards : nat;
  Init : bool;
  Boot : bool -> bool
}.

(** What start-up does to its collaborators; [Core] is an event of the
    functions above. *)
Inductive SetupEvent : Type :=
| WroteModPar (name : string) (value : Z) (module : nat) (* pif->WriteSglModPar *)
| GotSlots                                               (* pif->GetSlots *)
| CalledInit                                             (* pif->Init *)
| CalledBoot (fast : bool)                               (* pif->Boot *)
| ClientInit                                             (* client->Init *)
| ClientClose                                            (* client->Close *)
| DeletedPif                                             (* delete pif *)
| Said (line : string)                                   (* std::cout *)
| Core (e : Event).

(** [for (mod = 0; mod < pif->GetNumberCards (); mod++)] of [synch_mods] *)
Fixpoint synch_loop (pif : PixieSetup) (mods : list nat) (hadError : bool)
  : bool * list SetupEvent :=
  match mods with
  | [] => (hadError, [])
  | module :: rest =>
      let hadError :=
        if negb (WriteSglModPar pif "IN_SYNCH" 0 module) then true else hadError in
      let '(hadError, evs) := synch_loop pif rest hadError in
      (hadError, WroteModPar "IN_SYNCH" 0 module :: evs)
  end.

(** [Poll::synch_mods]; [firstTime] is its static flag, returned as the
    call leaves it. *)
Definition synch_mods (pif : PixieSetup) (firstTime : bool)
  : bool * bool * list SetupEvent :=
  let '(hadError, ev_wait) :=
    if firstTime then
      (negb (WriteSglModPar pif "SYNCH_WAIT" 1 0), [WroteModPar "SYNCH_WAIT" 1 0])
    else (false, []) in
  let '(hadError, ev_synch) :=
    synch_loop pif (seq 0 (GetNumberCards pif)) hadError in
  (negb hadError, false,
   [Said "Synchronizing"] ++ ev_wait ++ ev_synch
   ++ [Said (if negb hadError then "OkayStr" else "ErrorStr")]).

(** The members start-up uses beside those of [Poll], and the static flag
    of [synch_mods]. *)
Record Session : Type := {
  poll : Poll;
  init : bool;
  boot_fast : bool;
  firstTime : bool
}.

(** [Poll::initialize] *)
Definition initialize (pif : PixieSetup) (s : Session)
  : bool * Session * list SetupEvent :=
  if init s then (false, s, [])
  else
    let ev_debug :=
      if debug_mode (poll s)
      then [Said "Setting debug mode"; Core (FileSetting "SetDebugMode" "")] else [] in
    if negb (Init pif) then (false, s, ev_debug ++ [GotSlots; CalledInit])
    else if negb (Boot pif (boot_fast s)) then
      (false, s, ev_debug ++ [GotSlots; CalledInit; CalledBoot (boot_fast s)])
    else
      let '(ok, first, ev_synch) := synch_mods pif (firstTime s) in
      let s :=
        {| poll := poll s; init := init s; boot_fast := boot_fast s;
           firstTime := first |} in
      let evs :=
        ev_debug ++ [GotSlots; CalledInit; CalledBoot (boot_fast s)]
        ++ [Said "Checking scheduler"] ++ ev_synch in
      if negb ok then (false, s, evs)
      else
        (true,
         {| poll :=
              {| kill_all := kill_all (poll s); start_acq := start_acq (poll s);
                 stop_acq := stop_acq (poll s); record_data := record_data (poll s);
                 do_reboot := do_reboot (poll s); force_spill := force_spill (poll s);
                 acq_running := acq_running (poll s);
                 run_ctrl_exit := run_ctrl_exit (poll s);
                 had_error := had_error (poll s); file_open := file_open (poll s);
                 do_MCA_run := do_MCA_run (poll s); is_quiet := is_quiet (poll s);
                 debug_mode := debug_mode (poll s); shm_mode := shm_mode (poll s);
                 n_cards := GetNumberCards pif;
                 threshWords := threshWords (poll s);
                 next_run_num := next_run_num (poll s);
                 output_format := output_format (poll s);
                 output_file := output_file (poll s);
                 fifoData := fifoData (poll s);
                 partialEvent := partialEvent (poll s);
                 mca_args := mca_args (poll s) |};
            init := true; boot_fast := boot_fast s; firstTime := firstTime s |},
         evs ++ [Said "Allocating memory to store FIFO data"; ClientInit]).

(** [Poll::close] *)
Definition close (s : Session) : bool * Session * list SetupEvent :=
  if negb (init s) then (false, s, [])
  else
    let '(p, ev_file) :=
      if IsOpen (output_file (poll s)) then
        let '(_, p', evs) := close_output_file false (poll s) in (p', evs)
      else (poll s, []) in
    (true,
     {| poll := p; init := false; boot_fast := boot_fast s;
        firstTime := firstTime s |},
     [Core (SendText "$KILL_SOCKET" 13); ClientClose] ++ map Core ev_file
     ++ [DeletedPif]).

(** ** Vocabulary of the properties *)

(** A value a [word_t] can hold. *)
Definition is_word (w : Z) : Prop := 0 <= w < 2 ^ 32.

(** What [ReadFIFO] and the file functions leave alone: every flag but
    those they are written to change ([force_spill], [record_data],
    [file_open]); [stop_acq] and [had_error] are only ever set by them. *)
Record keeps (st st' : Poll) : Prop := {
  keeps_kill_all : kill_all st' = kill_all st;
  keeps_start_acq : start_acq st' = start_acq st;
  keeps_do_reboot : do_reboot st' = do_reboot st;
  keeps_acq_running : acq_running st' = acq_running st;
  keeps_run_ctrl_exit : run_ctrl_exit st' = run_ctrl_exit st;
  keeps_do_MCA_run : do_MCA_run st' = do_MCA_run st;
  keeps_is_quiet : is_quiet st' = is_quiet st;
  keeps_debug_mode : debug_mode st' = debug_mode st;
  keeps_shm_mode : shm_mode st' = shm_mode st;
  keeps_n_cards : n_cards st' = n_cards st;
  keeps_threshWords : threshWords st' = threshWords st;
  keeps_output_format : output_format st' = output_format st;
  keeps_stop_acq : stop_acq st = true -> stop_acq st' = true;
  keeps_had_error : had_error st = true -> had_error st' = true
}.

(** The file functions do not touch the statics of [ReadFIFO]. *)
Definition same_buffers (st st' : Poll) : Prop :=
  fifoData st' = fifoData st /\ partialEvent st' = partialEvent st.

(** Output that leaves the program as data: a write to the file or a
    datagram to the subscriber. *)
Definition is_output (e : Event) : bool :=
  match e with
  | FileWrite _ | SendMessage _ _ | SendPacket => true
  | _ => false
  end.

Definition quiet_events (evs : list Event) : Prop :=
  forall e, In e evs -> is_output e = false.

Definition is_dump (e : Event) : bool :=
  match e with HexDump _ => true | _ => false end.

Definition drained_events (d : Drained) : list Event :=
  match d with Abort _ evs => evs | Next _ _ evs => evs end.

Definition tick_state (t : Tick) : Poll :=
  match t with Exit st => st | Again st _ => st end.

Definition tick_events (t : Tick) : list Event :=
  match t with Exit _ => [] | Again _ evs => evs end.

(** The calls on the output file among the events. *)
Definition file_calls (evs : list Event) : list Event :=
  filter (fun e => match e with
                   | FileOpen _ _ _ | FileClose | FileWrite _ | FileNextName _ => true
                   | _ => false
                   end) evs.

(** The datagrams among the events: bytes and transport length. *)
Definition datagrams (evs : list Event) : list (list Z * Z) :=
  flat_map (fun e => match e with SendMessage b n => [(b, n)] | _ => [] end) evs.

(** The payload of a datagram: what follows the two header words. *)
Definition payload (d : list Z * Z) : list Z := skipn 8 (fst d).

(** What the [i]-th datagram after [k] full chunks must be. *)
Definition chunk_ok (data : Buffer) (nWords total k : Z) (i : nat) (d : list Z * Z)
  : Prop :=
  let left := nWords - 10000 * (k + Z.of_nat i) in
  firstn 8 (fst d) = le32 (k + Z.of_nat i + 1) ++ le32 total /\
  payload d = bytes_of_words (load_words data (10000 * (k + Z.of_nat i)) (Z.min left 10000)) /\
  len (fst d) = snd d /\
  snd d = (if 10000 <? left then 40008 else (left + 2) * 4).

(** A header that fails one of the three checks of the parse loop. *)
Definition bad_header (slotExpected w : Z) : bool :=
  negb (Header.slotRead w =? slotExpected)
  || ((Header.chanRead w <? 0) || (15 <? Header.chanRead w))
  || (Header.eventSize w =? 0).

(** [reaches buf slot stop p q]: starting at [p], the parse loop arrives at
    [q] as the position of an event header, every header before it having
    passed the checks. *)
Inductive reaches (buf : Buffer) (slotExpected stop : Z) : Z -> Z -> Prop :=
| reaches_here p : reaches buf slotExpected stop p p
| reaches_next p q :
    p < stop -> bad_header slotExpected (buf p) = false ->
    reaches buf slotExpected stop (p + Header.eventSize (buf p)) q ->
    reaches buf slotExpected stop p q.

(** The buffer once the module word, the saved words of the previous pass
    and the words read from the FIFO of [module] are in place, the segment
    starting at [dataWords]. *)
Definition loaded (st : Poll) (module : nat) (dataWords W : Z) (ws : list Z) : Buffer :=
  store_words
    (store_words (store (fifoData st) (dataWords + 1) (Z.of_nat module))
       (dataWords + 2) (partialEvent st module))
    (dataWords + 2 + len (partialEvent st module)) (fifo_words W ws).

(** The three ways the pass over a module that is read can end: the parse
    broke at the header at [q]; the event whose header is at [q] runs past
    the end of the segment; or the events fill the segment exactly. *)
Inductive Outcome : Type :=
| Corrupted (q : Z)
| Straddled (q : Z)
| Clean.

Set Warnings "-notation-for-abbreviation".

Section Outcomes.

Variables (pif : Pixie) (module : nat) (W : Z) (st : Poll) (dataWords : Z)
          (ws : list Z).

Local Notation buf := (loaded st module dataWords W ws).
Local Notation n := (W + len (partialEvent st module)).
Local Notation start := (dataWords + 2).
Local Notation stop := (dataWords + 2 + (W + len (partialEvent st module))).
Local Notation slot := (w32 (GetSlotNumber pif module)).
Local Notation st1 := (set_partialEvent module [] (set_fifoData buf st)).

(** What [drain_module] returns in each of the three cases. *)
Definition outcome_ok (o : Outcome) (d : Drained) : Prop :=
  match o with
  | Corrupted q =>
      reaches buf slot stop start q /\ q < stop /\ bad_header slot (buf q) = true /\
      exists pre,
        d = Abort (set_had_error true (set_stop_acq true st1))
              (pre ++ (if negb (is_quiet st)
                       then [HexDump (load_words buf start 100)] else [])) /\
        forallb (fun e => negb (is_dump e)) pre = true /\ quiet_events pre
  | Straddled q =>
      let eventSize := Header.eventSize (buf q) in
      let partialSize := stop - q in
      reaches buf slot stop start q /\ q < stop /\ bad_header slot (buf q) = false /\
      stop < q + eventSize /\
      partialSize = eventSize - (q + eventSize - stop) /\
      0 < partialSize < eventSize /\ partialSize <= n /\
      exists evs,
        d = Next (set_fifoData (store buf dataWords (n - partialSize + 2))
                    (set_partialEvent module (load_words buf q partialSize) st1))
              (start + (n - partialSize)) evs /\
        forallb (fun e => negb (is_dump e)) evs = true
  | Clean =>
      exists evs,
        d = Next (set_fifoData (store buf dataWords (n + 2)) st1) (start + n) evs /\
        forallb (fun e => negb (is_dump e)) evs = true
  end.

End Outcomes.

(** The constants make sense: a module that is read is not full, and a
    segment length fits a word. *)
Definition sane (cfg : Config) : Prop :=
  MIN_FIFO_READ cfg <= EXTERNAL_FIFO_LENGTH cfg /\
  0 <= EXTERNAL_FIFO_LENGTH cfg /\
  EXTERNAL_FIFO_LENGTH cfg + 16386 <= 2 ^ 32.

(** No saved tail is as long as the largest event. *)
Definition partial_ok (st : Poll) : Prop :=
  forall k, len (partialEvent st k) < 16383.

(** The segment of [module] carrying [data]. *)
Definition segment (module : nat) (data : list Z) : list Z :=
  (len data + 2) :: Z.of_nat module :: data.

(** ** Fixtures for the worked examples *)

(** A sink with no file open, on a disk that answers [disk]. *)
Definition no_file (disk : nat -> option Z) : PollOutputFile :=
  {| IsOpen := false; GetFilesize := 0; GetRunNumber := 0; GetSuffix := 0;
     contents := []; closed_files := []; on_disk := [];
     disk_ok := disk; attempts := 0 |}.

(** The state the constructor leaves, with [n] cards, a threshold of 50
    words and a disk that answers [disk]. *)
Definition fresh (n : nat) (disk : nat -> option Z) : Poll :=
  {| kill_all := false; start_acq := false; stop_acq := false;
     record_data := false; do_reboot := false; force_spill := false;
     acq_running := false; run_ctrl_exit := false; had_error := false;
     file_open := false; do_MCA_run := false; is_quiet := false;
     debug_mode := false; shm_mode := false; n_cards := n;
     threshWords := 50; next_run_num := 1; output_format := 0;
     output_file := no_file disk;
     fifoData := fun _ => 0; partialEvent := fun _ => []; mca_args := Zero |}.

Definition good_disk : nat -> option Z := fun _ => Some 0.
Definition bad_disk : nat -> option Z := fun _ => None.

(** A crate whose module [m] sits in slot [m + 2], reports [depth m] words
    at every cycle and hands out [words m] on a read. *)
Definition crate (depth : nat -> Z) (words : nat -> list Z) : Pixie :=
  {| CheckFIFOWords := fun _ m => depth m;
     ReadFIFOWords := fun m _ => Some (words m);
     GetSlotNumber := fun m => Z.of_nat m + 2;
     StartListModeRun := true;
     CheckRunStatus := fun _ _ => 0 |}.

(** An event of [size] words for slot [slot], channel 0, of which the first
    [present] words are there. *)
Definition event (slot size : Z) (present : nat) : list Z :=
  firstn present (Header.make slot 0 size :: repeat 7 (Z.to_nat size - 1)).

(** Two complete events of 100 words and the first 50 words of an event of
    60, all for slot 2. *)
Definition straddle_words : list Z :=
  event 2 100 100 ++ event 2 100 100 ++ event 2 60 50.

(** Module 0 holds 250 words, module 1 none. *)
Definition straddle_crate : Pixie :=
  crate (fun m => if Nat.eqb m 0 then 250 else 0) (fun _ => straddle_words).

(** Every FIFO is empty. *)
Definition empty_crate : Pixie := crate (fun _ => 0) (fun _ => []).

(** One module holding an event that names slot 5 instead of slot 2. *)
Definition wrong_slot_crate : Pixie :=
  crate (fun _ => 100) (fun _ => event 5 100 100).

(** Module 1 reports a full FIFO. *)
Definition full_crate : Pixie :=
  crate (fun m => if Nat.eqb m 1 then 131072 else 0) (fun _ => []).

(** An acquisition that runs without recording. *)
Definition acquiring (n : nat) : Poll := set_acq_running true (fresh n good_disk).

(** The command [run], one pass of [run_control] on [straddle_crate], the
    command [spill], and one more pass on [empty_crate]. *)
Definition after_run : Poll :=
  prompt_state (command_control_step "run" (fresh 2 good_disk)).

Definition first_pass : Tick := run_control_tick pixie16 straddle_crate after_run.

Definition after_spill : Poll :=
  prompt_state (command_control_step "spill" (tick_state first_pass)).

Definition second_pass : Tick := run_control_tick pixie16 empty_crate after_spill.

(** A file of run 7 that is 4096 bytes short of the ceiling. *)
Definition nearly_full_file : PollOutputFile :=
  {| IsOpen := true; GetFilesize := 2 ^ 32 - 4096; GetRunNumber := 7;
     GetSuffix := 0; contents := [5]; closed_files := []; on_disk := [7];
     disk_ok := fun _ => Some 65552; attempts := 1 |}.

Definition recording_run_7 : Poll :=
  set_next_run_num 7
    (set_output_file nearly_full_file
       (set_file_open true (set_record_data true (acquiring 1)))).

(** The same run on a disk that takes no new file. *)
Definition refused_run_7 : Poll :=
  set_output_file
    {| IsOpen := true; GetFilesize := 2 ^ 32 - 4096; GetRunNumber := 7;
       GetSuffix := 0; contents := [5]; closed_files := []; on_disk := [7];
       disk_ok := fun _ => None; attempts := 1 |}
    recording_run_7.

(** A buffer whose word [i] is [i + 100]. *)
Definition counting : Buffer := fun i => i + 100.

(** ** Vocabulary of the further properties *)

(** The flags only an abandoned pass raises, and the request for a spill. *)
Definition same_alarms (st st' : Poll) : Prop :=
  stop_acq st' = stop_acq st /\ had_error st' = had_error st.

(** What belongs to the output file. *)
Definition same_files (st st' : Poll) : Prop :=
  record_data st' = record_data st /\ output_file st' = output_file st /\
  file_open st' = file_open st /\ next_run_num st' = next_run_num st.

(** A crate whose reads fail: every module reports 100 words and hands
    out none. *)
Definition dead_crate : Pixie :=
  {| CheckFIFOWords := fun _ _ => 100;
     ReadFIFOWords := fun _ _ => None;
     GetSlotNumber := fun m => Z.of_nat m + 2;
     StartListModeRun := true;
     CheckRunStatus := fun _ _ => 0 |}.

(** A crate whose modules are empty and have not ended their run when
    first asked. *)
Definition lingering_crate : Pixie :=
  {| CheckFIFOWords := fun _ _ => 0;
     ReadFIFOWords := fun _ _ => Some [];
     GetSlotNumber := fun m => Z.of_nat m + 2;
     StartListModeRun := true;
     CheckRunStatus := fun _ again => if again then 0 else 1 |}.


(** What only run control and [ReadFIFO] write: the flag of the running
    acquisition, the flag of the exit, the size of the crate, the
    threshold and the two buffers. *)
Definition same_acquisition (st st' : Poll) : Prop :=
  acq_running st' = acq_running st /\ run_ctrl_exit st' = run_ctrl_exit st /\
  n_cards st' = n_cards st /\ threshWords st' = threshWords st /\
  same_buffers st st'.

(** The file that is open is the file of [next_run_num], and [file_open]
    says that it is open. *)
Definition file_in_step (st : Poll) : Prop :=
  IsOpen (output_file st) = true ->
  file_open st = true /\ GetRunNumber (output_file st) = next_run_num st.

(** [mca_args] is zeroed unless an MCA run has been asked for. *)
Definition mca_args_zeroed (st : Poll) : Prop :=
  do_MCA_run st = false -> mca_args st = Zero.

(** The commands that are refused while the acquisition is running. *)
Definition refused_while_running : list string :=
  ["quit"; "exit"; "run"; "startacq"; "startvme"; "reboot"; "mca"; "MCA";
   "pwrite"; "pmwrite"; "adjust_offsets"; "find_tau"; "toggle";
   "toggle_bit"]%string.

(** A line printed on the terminal. *)
Definition is_print (line : string) (e : Event) : bool :=
  match e with Print l => String.eqb l line | _ => false end.

(** The file of run 7 with room left for exactly one spill of 2048 words
    and the two end-of-file buffers. *)
Definition room_for_one : Poll :=
  set_output_file
    {| IsOpen := true; GetFilesize := 2 ^ 32 - 73744; GetRunNumber := 7;
       GetSuffix := 0; contents := [5]; closed_files := []; on_disk := [7];
       disk_ok := fun _ => Some 65552; attempts := 1 |}
    recording_run_7.

(** The character [c] occurs in [s]. *)
Fixpoint contains (c : ascii) (s : string) : bool :=
  match s with
  | EmptyString => false
  | String a s' => Ascii.eqb a c || contains c s'
  end.

(** [s] without its last character. *)
Definition but_last (s : string) : string := substring 0 (String.length s - 1) s.

(** [n] dots. *)
Definition dots (n : nat) : string := string_of_list_ascii (repeat "."%char n).

(** The answer of the interpreter to a word it does not know. *)
Definition is_unknown (p : Prompt) : bool :=
  match p with
  | Back _ [Print line] => String.eqb line "Unknown command"
  | _ => false
  end.

(** * Properties *)

Lemma keeps_refl st : keeps st st.
Proof. constructor; auto. Qed.

Lemma keeps_trans st1 st2 st3 : keeps st1 st2 -> keeps st2 st3 -> keeps st1 st3.
Proof.
  intros [] []; constructor; try congruence; auto.
Qed.

Ltac keeps_now := constructor; simpl; auto.

Lemma close_output_file_keeps c st :
  keeps st (snd (fst (close_output_file c st))).
Proof.
  unfold close_output_file. simpl.
  destruct (IsOpen (output_file st)); [destruct c|]; simpl; keeps_now.
Qed.

Lemma open_output_file_keeps c st :
  keeps st (snd (fst (open_output_file c st))).
Proof.
  unfold open_output_file.
  destruct (IsOpen (output_file st)); simpl; [keeps_now|].
  destruct (OpenNewFile _ _ _) as [[] f]; simpl; keeps_now.
Qed.

Lemma write_data_keeps data n st :
  keeps st (snd (fst (write_data data n st))).
Proof.
  unfold write_data.
  pose proof (open_output_file_keeps false st) as H1.
  destruct (negb (IsOpen (output_file st))).
  - destruct (open_output_file false st) as [[b st1] e1]; simpl in H1.
    destruct (MAX_FILE_SIZE <? _).
    + pose proof (close_output_file_keeps true st1) as H2.
      destruct (close_output_file true st1) as [[b2 st2] e2]; simpl in H2.
      pose proof (open_output_file_keeps true st2) as H3.
      destruct (open_output_file true st2) as [[b3 st3] e3]; simpl in H3.
      destruct (Write _ _) as [w f]; simpl.
      apply (keeps_trans _ st3); [eauto using keeps_trans | keeps_now].
    + destruct (Write _ _) as [w f]; simpl.
      apply (keeps_trans _ st1); [auto | keeps_now].
  - destruct (MAX_FILE_SIZE <? _).
    + pose proof (close_output_file_keeps true st) as H2.
      destruct (close_output_file true st) as [[b2 st2] e2]; simpl in H2.
      pose proof (open_output_file_keeps true st2) as H3.
      destruct (open_output_file true st2) as [[b3 st3] e3]; simpl in H3.
      destruct (Write _ _) as [w f]; simpl.
      apply (keeps_trans _ st3); [eauto using keeps_trans | keeps_now].
    + destruct (Write _ _) as [w f]; simpl. keeps_now.
Qed.


Lemma drain_module_keeps cfg pif module W st dataWords :
  keeps st (drained_state (drain_module cfg pif module W st dataWords)).
Proof.
  unfold drain_module.
  destruct (W <? MIN_FIFO_READ cfg); [keeps_now|].
  destruct (W <? 0); [keeps_now|].
  destruct (EXTERNAL_FIFO_LENGTH cfg <=? W); [keeps_now|].
  destruct (ReadFIFOWords pif module W); [|keeps_now].
  destruct (parse_events _ _ _ _ _ _ _) as [[p e] evs].
  destruct (_ <? p); [keeps_now|].
  destruct (p <? _); keeps_now.
Qed.

Lemma drain_modules_keeps cfg pif nWords modules : forall st dataWords,
  keeps st (drained_state (drain_modules cfg pif nWords modules st dataWords)).
Proof.
  induction modules as [|m rest IH]; intros st dataWords; simpl.
  - apply keeps_refl.
  - pose proof (drain_module_keeps cfg pif m (nth m nWords 0) st dataWords) as H.
    destruct (drain_module _ _ _ _ _ _) as [st1 e1|st1 d1 e1]; simpl in *; auto.
    specialize (IH st1 d1).
    destruct (drain_modules _ _ _ _ _ _); simpl in *; eauto using keeps_trans.
Qed.

Lemma drain_module_abort cfg pif module W st dataWords st' evs :
  drain_module cfg pif module W st dataWords = Abort st' evs ->
  had_error st' = true /\ stop_acq st' = true.
Proof.
  unfold drain_module.
  destruct (W <? MIN_FIFO_READ cfg); [discriminate|].
  destruct (W <? 0); [discriminate|].
  destruct (EXTERNAL_FIFO_LENGTH cfg <=? W).
  { intros H; inversion H; subst; simpl; auto. }
  destruct (ReadFIFOWords pif module W).
  2:{ intros H; inversion H; subst; simpl; auto. }
  destruct (parse_events _ _ _ _ _ _ _) as [[p e] ev].
  destruct (_ <? p); [discriminate|].
  destruct (p <? _); [|discriminate].
  intros H; inversion H; subst; simpl; auto.
Qed.

Lemma drain_modules_abort cfg pif nWords modules : forall st dataWords st' evs,
  drain_modules cfg pif nWords modules st dataWords = Abort st' evs ->
  had_error st' = true /\ stop_acq st' = true.
Proof.
  induction modules as [|m rest IH]; intros st dataWords st' evs; simpl.
  - discriminate.
  - destruct (drain_module _ _ _ _ _ _) as [st1 e1|st1 d1 e1] eqn:E.
    + intros H; inversion H; subst. eapply drain_module_abort; eauto.
    + destruct (drain_modules _ _ _ _ _ _) eqn:E2; [|discriminate].
      intros H; inversion H; subst. eapply IH; eauto.
Qed.

Lemma set_force_spill_keeps b st : keeps st (set_force_spill b st).
Proof. keeps_now. Qed.

Lemma flush_spill_keeps st dataWords : keeps st (fst (flush_spill st dataWords)).
Proof.
  unfold flush_spill. destruct (record_data st); [|apply keeps_refl].
  pose proof (write_data_keeps (fifoData st) (w32 dataWords) st) as H.
  destruct (write_data _ _ _) as [[w st2] e2]. exact H.
Qed.

Lemma ReadFIFO_cycles_keeps cfg pif st :
  keeps st (snd (fst (ReadFIFO_cycles cfg pif st))).
Proof.
  unfold ReadFIFO_cycles.
  destruct (negb (acq_running st)); [apply keeps_refl|].
  destruct (wait_threshold pif st POLL_TRIES 0 _) as [cycles nWords].
  destruct (drains st nWords); [|apply keeps_refl].
  pose proof (drain_modules_keeps cfg pif nWords
                (seq 0 (n_cards (set_force_spill false st)))
                (set_force_spill false st) 0) as H.
  destruct (drain_modules _ _ _ _ _ _) as [st1 e1|st1 d1 e1]; simpl in *.
  - eapply keeps_trans; [apply set_force_spill_keeps | exact H].
  - pose proof (flush_spill_keeps st1 d1) as H2.
    destruct (flush_spill st1 d1) as [st2 e2]. simpl in *.
    eapply keeps_trans; [apply set_force_spill_keeps |].
    eapply keeps_trans; eauto.
Qed.

Lemma ReadFIFO_unfold cfg pif st :
  ReadFIFO cfg pif st =
  (fst (fst (fst (ReadFIFO_cycles cfg pif st))),
   snd (fst (ReadFIFO_cycles cfg pif st)),
   snd (ReadFIFO_cycles cfg pif st)).
Proof.
  unfold ReadFIFO. destruct (ReadFIFO_cycles cfg pif st) as [[[b c] s] e]. reflexivity.
Qed.

Lemma ReadFIFO_keeps cfg pif st : keeps st (snd (fst (ReadFIFO cfg pif st))).
Proof. rewrite ReadFIFO_unfold. simpl. apply ReadFIFO_cycles_keeps. Qed.

(** [ReadFIFO] does nothing when the acquisition is not running. *)
Lemma ReadFIFO_idle cfg pif st :
  acq_running st = false -> ReadFIFO cfg pif st = (false, st, []).
Proof.
  intros H. unfold ReadFIFO, ReadFIFO_cycles. rewrite H. reflexivity.
Qed.

Lemma end_run_modules_keeps cfg pif modules : forall st,
  acq_running st = false ->
  let st' := fst (end_run_modules cfg pif modules st) in
  kill_all st' = kill_all st /\ acq_running st' = false /\
  stop_acq st' = stop_acq st /\ run_ctrl_exit st' = run_ctrl_exit st.
Proof.
  induction modules as [|m rest IH]; intros st Hacq; simpl; auto.
  destruct (CheckRunStatus pif m false =? 1).
  - rewrite ReadFIFO_idle by exact Hacq.
    destruct (CheckRunStatus pif m true =? 0).
    + specialize (IH (set_force_spill true st) Hacq).
      destruct (end_run_modules _ _ _ _) as [s e]; simpl in *. exact IH.
    + specialize (IH (set_had_error true (set_force_spill true st)) Hacq).
      destruct (end_run_modules _ _ _ _) as [s e]; simpl in *. exact IH.
  - destruct (CheckRunStatus pif m true =? 0).
    + specialize (IH st Hacq).
      destruct (end_run_modules _ _ _ _) as [s e]; simpl in *. exact IH.
    + specialize (IH (set_had_error true st) Hacq).
      destruct (end_run_modules _ _ _ _) as [s e]; simpl in *. exact IH.
Qed.

(** C8.  A tick of run control looks at [kill_all] before anything else.
    With the acquisition running the check sets [stop_acq], and the same
    tick ends the run: the modules are told to end it, [acq_running] is
    false afterwards and [kill_all] is still set for the next tick.  With no
    acquisition running the tick leaves the loop at once, with the state
    untouched and nothing done -- no reboot, no MCA run, no acquisition
    work -- and [run_control] returns with [run_ctrl_exit] set. *)
Theorem C8_kill_all_supersedes cfg pif st :
  kill_all st = true ->
  (acq_running st = true ->
     kill_check st = Some (set_stop_acq true st) /\
     exists st' evs,
       run_control_tick cfg pif st = Again st' evs /\
       In PixieEndRun evs /\ acq_running st' = false /\ kill_all st' = true) /\
  (acq_running st = false ->
     kill_check st = None /\
     run_control_tick cfg pif st = Exit st /\
     forall pifs fuel tick,
       run_control cfg pifs (S fuel) tick st =
       Some (set_run_ctrl_exit true st, [Print "Run Control exited"])).
Proof.
  intros Hkill. split; intros Hacq.
  - split. { unfold kill_check. rewrite Hkill, Hacq. reflexivity. }
    unfold run_control_tick, kill_check. rewrite Hkill, Hacq.
    set (s0 := set_stop_acq true st).
    assert (H0 : kill_all s0 = true /\ acq_running s0 = true /\ stop_acq s0 = true)
      by (subst s0; simpl; auto).
    clearbody s0. destruct H0 as (K0 & A0 & S0).
    assert (H1 : kill_all (fst (reboot_check s0)) = true /\
                 acq_running (fst (reboot_check s0)) = true /\
                 stop_acq (fst (reboot_check s0)) = true).
    { unfold reboot_check. rewrite A0. destruct (do_reboot s0); simpl; auto. }
    destruct (reboot_check s0) as [s1 e1]; simpl in H1. destruct H1 as (K1 & A1 & S1).
    assert (H2 : kill_all (fst (mca_check s1)) = true /\
                 acq_running (fst (mca_check s1)) = true /\
                 stop_acq (fst (mca_check s1)) = true).
    { unfold mca_check. rewrite A1. destruct (do_MCA_run s1); simpl; auto. }
    destruct (mca_check s1) as [s2 e2]; simpl in H2. destruct H2 as (K2 & A2 & S2).
    assert (H3 : kill_all (fst (start_check pif s2)) = true /\
                 acq_running (fst (start_check pif s2)) = true /\
                 stop_acq (fst (start_check pif s2)) = true).
    { unfold start_check. rewrite A2. destruct (start_acq s2); simpl; auto. }
    destruct (start_check pif s2) as [s3 e3]; simpl in H3. destruct H3 as (K3 & A3 & S3).
    unfold acquire. rewrite A3.
    pose proof (ReadFIFO_keeps cfg pif s3) as HK.
    destruct (ReadFIFO cfg pif s3) as [[b s4] e4]; simpl in HK.
    rewrite (keeps_stop_acq _ _ HK S3).
    set (s5 := set_acq_running false (set_stop_acq false s4)).
    pose proof (end_run_modules_keeps cfg pif (seq 0 (n_cards s5)) s5 eq_refl) as HE.
    destruct (end_run_modules _ _ _ _) as [s6 e6]; simpl in HE.
    destruct HE as (K6 & A6 & _).
    eexists; eexists. split; [reflexivity|]. split; [|split].
    + do 3 (apply in_or_app; right). apply in_or_app; left.
      apply in_or_app; right. left. reflexivity.
    + exact A6.
    + rewrite K6. subst s5. simpl. rewrite (keeps_kill_all _ _ HK). exact K3.
  - assert (Hk : kill_check st = None) by (unfold kill_check; rewrite Hkill, Hacq; reflexivity).
    split; [exact Hk|]. split.
    + unfold run_control_tick. rewrite Hk. reflexivity.
    + intros pifs fuel tick. simpl. unfold run_control_tick. rewrite Hk. reflexivity.
Qed.

(** ** The command interpreter *)


Lemma close_output_file_had_error c st :
  had_error (snd (fst (close_output_file c st))) = had_error st.
Proof.
  unfold close_output_file. simpl.
  destruct (IsOpen (output_file st)); [destruct c|]; reflexivity.
Qed.

Lemma open_output_file_had_error c st :
  had_error (snd (fst (open_output_file c st))) = had_error st.
Proof.
  unfold open_output_file.
  destruct (IsOpen (output_file st)); simpl; [reflexivity|].
  destruct (OpenNewFile _ _ _) as [[] f]; reflexivity.
Qed.

Lemma StartAcq_had_error st : had_error (snd (fst (StartAcq st))) = had_error st.
Proof.
  unfold StartAcq. destruct (do_MCA_run st), (acq_running st); reflexivity.
Qed.

Lemma StopAcq_had_error st : had_error (snd (fst (StopAcq st))) = had_error st.
Proof. unfold StopAcq. destruct (acq_running st); reflexivity. Qed.

Lemma StopRun_had_error st : had_error (snd (fst (StopRun st))) = had_error st.
Proof.
  unfold StopRun. destruct (acq_running st) eqn:E; simpl; [|reflexivity].
  unfold StopAcq. rewrite E. reflexivity.
Qed.

Lemma StartRun_had_error st : had_error (snd (fst (StartRun st))) = had_error st.
Proof.
  unfold StartRun.
  destruct (do_MCA_run st); [reflexivity|].
  destruct (acq_running st); [reflexivity|].
  destruct (IsOpen (output_file st)).
  - pose proof (close_output_file_had_error false st) as Hc.
    destruct (close_output_file false st) as [[b s0] e0]; simpl in Hc.
    pose proof (open_output_file_had_error false s0) as Ho.
    destruct (open_output_file false s0) as [[ok s1] e1]; simpl in Ho.
    destruct ok; simpl; [|congruence].
    pose proof (StartAcq_had_error (set_record_data true s1)) as Ha.
    destruct (StartAcq _) as [[b2 s2] e2]; simpl in *. congruence.
  - pose proof (open_output_file_had_error false st) as Ho.
    destruct (open_output_file false st) as [[ok s1] e1]; simpl in Ho.
    destruct ok; simpl; [|congruence].
    pose proof (StartAcq_had_error (set_record_data true s1)) as Ha.
    destruct (StartAcq _) as [[b2 s2] e2]; simpl in *. congruence.
Qed.

(** The [mca] branch of the chain, whatever the arguments make of
    [mca_args]. *)
Ltac mca_branch :=
  repeat match goal with
         | |- context [split_str ?a default_delimiter] =>
             destruct (split_str a default_delimiter) as [? ?]
         | |- context [mca_arguments ?p ?l ?a] =>
             destruct (mca_arguments p l a) as [? ?]
         end.

(** All the [mca] command may print of itself is the line of the default
    time. *)
Lemma mca_arguments_events p_args arguments a :
  snd (mca_arguments p_args arguments a) = []
  \/ snd (mca_arguments p_args arguments a)
     = [Print "Using default MCA time of 10 seconds"].
Proof.
  unfold mca_arguments. destruct (totalTime _ =? 0); cbn [snd]; auto.
Qed.

(** No branch of the chain assigns [had_error]. *)
Lemma dispatch_had_error cmd arg st :
  had_error (prompt_state (dispatch cmd arg st)) = had_error st.
Proof.
  pose proof (StartRun_had_error st) as H1.
  pose proof (StartAcq_had_error st) as H2.
  pose proof (StopRun_had_error st) as H3.
  pose proof (StopAcq_had_error st) as H4.
  pose proof (close_output_file_had_error false st) as H5.
  unfold dispatch, toggled.
  destruct (StartRun st) as [[? ?] ?], (StartAcq st) as [[? ?] ?],
           (StopRun st) as [[? ?] ?], (StopAcq st) as [[? ?] ?],
           (close_output_file false st) as [[? ?] ?].
  simpl in H1, H2, H3, H4, H5.
  mca_branch.
  repeat match goal with
         | |- context [if ?b then _ else _] => destruct b
         end; simpl; auto.
Qed.

(** C10.  A line that reaches the dispatcher -- it is not empty, not
    CTRL_C and no request for tab completion -- is dispatched on a state
    whose [had_error] has just been set to false, whatever the command is;
    the flag is still false when the command has been carried out; and for
    the commands that only ask ([status], [help], [h], [version], [v]) the
    cleared flag is the only change to the state. *)
Theorem C10_command_clears_had_error cmd st :
  cmd <> ""%string -> cmd <> "CTRL_C"%string -> found tab cmd = false ->
  let line := if String.eqb cmd "CTRL_D" then "quit"%string else cmd in
  command_control_step cmd st =
    dispatch (fst (split_command line)) (snd (split_command line))
      (set_had_error false st) /\
  had_error (prompt_state (command_control_step cmd st)) = false /\
  (In cmd ["status"; "help"; "h"; "version"; "v"]%string ->
   exists evs, command_control_step cmd st = Back (set_had_error false st) evs).
Proof.
  intros Hne Hc Htab line.
  assert (Hstep : command_control_step cmd st =
    dispatch (fst (split_command line)) (snd (split_command line))
      (set_had_error false st)).
  { unfold command_control_step. fold line.
    assert (L1 : String.eqb line "CTRL_C" = false).
    { subst line. destruct (String.eqb_spec cmd "CTRL_D"); [reflexivity|].
      apply String.eqb_neq. exact Hc. }
    assert (L2 : found tab line = false).
    { subst line. destruct (String.eqb_spec cmd "CTRL_D"); [reflexivity|exact Htab]. }
    assert (L3 : String.eqb line "" = false).
    { subst line. destruct (String.eqb_spec cmd "CTRL_D"); [reflexivity|].
      apply String.eqb_neq. exact Hne. }
    rewrite L1, L2, L3. destruct (split_command line). reflexivity. }
  split; [exact Hstep|]. split.
  - rewrite Hstep, dispatch_had_error. reflexivity.
  - intros Hin. simpl in Hin.
    destruct Hin as [H|[H|[H|[H|[H|[]]]]]]; subst cmd; eexists; reflexivity.
Qed.

(** [status] after an error: the error indication is gone. *)
Lemma C10_status_witness :
  had_error (prompt_state (command_control_step "status"
               (set_had_error true (fresh 1 good_disk)))) = false.
Proof.
  apply (C10_command_clears_had_error "status" (set_had_error true (fresh 1 good_disk)));
    [discriminate | discriminate | reflexivity].
Defined.

(** ** A failing open *)

Lemma open_output_file_fails c st :
  IsOpen (output_file st) = false ->
  disk_ok (output_file st) (attempts (output_file st)) = None ->
  exists f,
    open_output_file c st =
      (false, set_record_data false (set_output_file f st),
       [FileOpen (next_run_num st) c false;
        Print "Failed to open output file! Check that the path is correct."]) /\
    IsOpen f = false.
Proof.
  intros Hopen Hdisk. unfold open_output_file, OpenNewFile.
  rewrite Hopen, Hdisk. simpl. eexists. split; reflexivity.
Qed.

(** C9, amended.  Let the disk refuse the next file.  Then
    [open_output_file] returns false with [record_data] cleared and with
    [start_acq], [stop_acq], [acq_running], [had_error] and [file_open] as
    they were.  [StartRun] returns false at that point: [record_data] is
    false, [start_acq] has not been set and no acquisition runs, so the
    run that was asked for does not start.  A [write_data] that has to
    change files in the middle of a run writes nothing and clears
    [record_data], and leaves [acq_running], [start_acq] and [stop_acq] as
    they were: the acquisition that is running goes on without
    recording. *)
Theorem C9_open_failure_clears_record_data st :
  disk_ok (output_file st) (attempts (output_file st)) = None ->
  (forall c, IsOpen (output_file st) = false ->
     exists st' evs,
       open_output_file c st = (false, st', evs) /\
       record_data st' = false /\
       start_acq st' = start_acq st /\ stop_acq st' = stop_acq st /\
       acq_running st' = acq_running st /\ had_error st' = had_error st /\
       file_open st' = file_open st /\ IsOpen (output_file st') = false) /\
  (do_MCA_run st = false -> acq_running st = false ->
     exists st' evs,
       StartRun st = (false, st', evs) /\
       record_data st' = false /\ start_acq st' = start_acq st /\
       acq_running st' = false) /\
  (forall data nWords,
     IsOpen (output_file st) = true ->
     MAX_FILE_SIZE < GetFilesize (output_file st) + w32 (4 * nWords + 65552) ->
     exists st' evs,
       write_data data nWords st = (0, st', evs) /\
       record_data st' = false /\ acq_running st' = acq_running st /\
       start_acq st' = start_acq st /\ stop_acq st' = stop_acq st /\
       IsOpen (output_file st') = false).
Proof.
  intros Hdisk. split; [|split].
  - intros c Hopen.
    destruct (open_output_file_fails c st Hopen Hdisk) as (f & -> & Hf).
    eexists; eexists. split; [reflexivity|]. simpl. auto 10.
  - intros Hmca Hacq. unfold StartRun. rewrite Hmca, Hacq.
    destruct (IsOpen (output_file st)) eqn:Hopen.
    + unfold close_output_file. simpl. rewrite Hopen. simpl.
      match goal with
      | |- context [open_output_file false ?s] =>
          destruct (open_output_file_fails false s eq_refl Hdisk) as (f & -> & Hf)
      end.
      simpl. eexists; eexists. split; [reflexivity|]. simpl. auto.
    + destruct (open_output_file_fails false st Hopen Hdisk) as (f & -> & Hf).
      simpl. eexists; eexists. split; [reflexivity|]. simpl. auto.
  - intros data nWords Hopen Hbig. unfold write_data. rewrite Hopen. simpl negb. cbv iota.
    apply Z.ltb_lt in Hbig. rewrite Hbig.
    unfold close_output_file. simpl. rewrite Hopen. simpl.
    match goal with
    | |- context [open_output_file true ?s] =>
        destruct (open_output_file_fails true s eq_refl Hdisk) as (f & -> & Hf)
    end.
    unfold Write. simpl. rewrite Hf.
    eexists; eexists. split; [reflexivity|]. simpl. auto 10.
Qed.

(** [StartRun] on a disk that refuses every file. *)
Lemma C9_open_failure_witness :
  let st := fresh 1 bad_disk in
  disk_ok (output_file st) (attempts (output_file st)) = None /\
  exists st' evs,
    StartRun st = (false, st', evs) /\
    record_data st' = false /\ start_acq st' = start_acq st /\
    acq_running st' = false.
Proof.
  split; [reflexivity|].
  apply (C9_open_failure_clears_record_data (fresh 1 bad_disk) eq_refl); reflexivity.
Defined.

(** C9, as stated: a [run] whose file cannot be opened starts nothing. *)
Lemma C9_run_without_file_starts_nothing :
  let st := fresh 1 bad_disk in
  let pif := crate (fun _ => 0) (fun _ => []) in
  exists st1 evs1 st2 evs2,
    command_control_step "run" st = Back st1 evs1 /\
    In (FileOpen 1 false false) evs1 /\
    record_data st1 = false /\ start_acq st1 = false /\
    run_control_tick pixie16 pif st1 = Again st2 evs2 /\
    acq_running st2 = false /\
    evs2 = [TermStatus "InfoStr [IDLE]"; Sleep].
Proof.
  do 4 eexists. split; [reflexivity|]. split; [left; reflexivity|].
  split; [reflexivity|]. split; [reflexivity|].
  split; [reflexivity|]. split; reflexivity.
Qed.

(** ** The threshold wait *)

Lemma wait_threshold_S pif st tries timeout nWords0 :
  wait_threshold pif st (S tries) timeout nWords0 =
  if threshWords st <? max_element (poll_depths pif st timeout)
  then (S timeout, poll_depths pif st timeout)
  else wait_threshold pif st tries (S timeout) (poll_depths pif st timeout).
Proof. reflexivity. Qed.

Lemma wait_threshold_spec pif st : forall tries timeout nWords0,
  let r := wait_threshold pif st (S tries) timeout nWords0 in
  (timeout < fst r <= timeout + S tries)%nat /\
  snd r = poll_depths pif st (fst r - 1) /\
  (forall k, (timeout <= k < fst r - 1)%nat ->
     max_element (poll_depths pif st k) <= threshWords st) /\
  ((fst r < timeout + S tries)%nat -> threshWords st < max_element (snd r)).
Proof.
  induction tries as [|tries IH]; intros timeout nWords0; cbv zeta.
  - cbn [wait_threshold].
    destruct (threshWords st <? max_element (poll_depths pif st timeout)) eqn:E;
      cbn [fst snd].
    all: replace (S timeout - 1)%nat with timeout by lia.
    all: split; [lia|]; split; [reflexivity|]; split; [intros k Hk; lia|].
    + intros _. apply Z.ltb_lt; exact E.
    + intros Hlt. lia.
  - rewrite wait_threshold_S.
    destruct (threshWords st <? max_element (poll_depths pif st timeout)) eqn:E.
    + cbn [fst snd]. split; [lia|]. split; [f_equal; lia|]. split; [intros; lia|].
      intros _. apply Z.ltb_lt. exact E.
    + specialize (IH (S timeout) (poll_depths pif st timeout)).
      cbv zeta in IH. destruct IH as (I1 & I2 & I3 & I4).
      split; [lia|]. split; [exact I2|]. split.
      * intros k Hk. destruct (Nat.eq_dec k timeout) as [->|Hne].
        -- apply Z.ltb_ge. exact E.
        -- apply I3. lia.
      * intros Hlt. apply I4. lia.
Qed.

Lemma wait_threshold_stop_acq pif st b : forall tries timeout nWords0,
  wait_threshold pif (set_stop_acq b st) tries timeout nWords0 =
  wait_threshold pif st tries timeout nWords0.
Proof.
  induction tries as [|tries IH]; intros timeout nWords0; [reflexivity|].
  cbn [wait_threshold]. rewrite IH. reflexivity.
Qed.

(** The loop over the modules does not touch the request for a spill. *)
Lemma drain_module_force_spill cfg pif module W st d :
  force_spill (drained_state (drain_module cfg pif module W st d)) = force_spill st.
Proof.
  unfold drain_module.
  destruct (W <? MIN_FIFO_READ cfg); [reflexivity|].
  destruct (W <? 0); [reflexivity|].
  destruct (EXTERNAL_FIFO_LENGTH cfg <=? W); [reflexivity|].
  destruct (ReadFIFOWords pif module W); [|reflexivity].
  destruct (parse_events _ _ _ _ _ _ _) as [[p e] evs].
  destruct (_ <? p); [|destruct (p <? _)]; reflexivity.
Qed.

Lemma drain_modules_force_spill cfg pif nWords modules : forall st d,
  force_spill (drained_state (drain_modules cfg pif nWords modules st d))
  = force_spill st.
Proof.
  induction modules as [|m rest IH]; intros st d; cbn [drain_modules drained_state];
    [reflexivity|].
  pose proof (drain_module_force_spill cfg pif m (nth m nWords 0) st d) as H1.
  destruct (drain_module cfg pif m (nth m nWords 0) st d) as [s1 e1|s1 d1 e1];
    cbn [drained_state] in *; [exact H1|].
  specialize (IH s1 d1).
  destruct (drain_modules cfg pif nWords rest s1 d1); cbn [drained_state] in *;
    congruence.
Qed.

(** Writing a spill does not touch the request for a spill. *)
Lemma write_data_force_spill data nWords st :
  force_spill (snd (fst (write_data data nWords st))) = force_spill st.
Proof.
  unfold write_data, close_output_file, open_output_file, OpenNewFile, Write.
  repeat match goal with
         | |- context [if ?b then _ else _] => destruct b
         | |- context [match ?x with Some _ => _ | None => _ end] => destruct x
         end; reflexivity.
Qed.

(** The flag [stop_acq] and the flag [force_spill] each make a pass drain,
    whatever the depths: the pass either runs to its end, where the spill
    goes to the broadcaster and its time to the statistics, or is
    abandoned with [had_error] set. *)
Lemma ReadFIFO_drains_on_request cfg pif st :
  acq_running st = true -> stop_acq st = true \/ force_spill st = true ->
  let r := ReadFIFO cfg pif st in
  (forall nWords, drains st nWords = true) /\
  force_spill (snd (fst r)) = false /\
  ((fst (fst r) = true /\ In StatsAddTime (snd r) /\
    (shm_mode st = false -> In SendPacket (snd r))) \/
   (fst (fst r) = false /\ had_error (snd (fst r)) = true)).
Proof.
  intros Hacq Hreq.
  assert (Hd : forall nWords, drains st nWords = true).
  { intros nWords. unfold drains.
    destruct Hreq as [-> | ->]; rewrite ?orb_true_r; reflexivity. }
  cbv zeta. split; [exact Hd|].
  rewrite ReadFIFO_unfold. cbn [fst snd]. unfold ReadFIFO_cycles.
  rewrite Hacq. cbn [negb].
  destruct (wait_threshold pif st POLL_TRIES 0 _) as [cycles nWords].
  rewrite Hd.
  pose proof (drain_modules_keeps cfg pif nWords
                (seq 0 (n_cards (set_force_spill false st)))
                (set_force_spill false st) 0) as Hk.
  pose proof (drain_modules_abort cfg pif nWords
                (seq 0 (n_cards (set_force_spill false st)))
                (set_force_spill false st) 0) as Hab.
  pose proof (drain_modules_force_spill cfg pif nWords
                (seq 0 (n_cards (set_force_spill false st)))
                (set_force_spill false st) 0) as Hf.
  cbn [force_spill set_force_spill] in Hf.
  destruct (drain_modules _ _ _ _ _ _) as [st1 e1|st1 d1 e1];
    cbn [drained_state fst snd] in *.
  - split; [exact Hf|]. right. split; [reflexivity|].
    destruct (Hab st1 e1 eq_refl) as (He & _). exact He.
  - pose proof (keeps_shm_mode _ _ Hk) as Hshm. cbn [shm_mode set_force_spill] in Hshm.
    unfold flush_spill.
    assert (Hw : exists st2 ev_write,
               (if record_data st1
                then let '(_, st', evs') := write_data (fifoData st1) (w32 d1) st1 in
                     (st', evs')
                else (st1, [])) = (st2, ev_write)
               /\ shm_mode st2 = shm_mode st1 /\ force_spill st2 = force_spill st1).
    { destruct (record_data st1).
      - pose proof (write_data_keeps (fifoData st1) (w32 d1) st1) as Hkw.
        pose proof (write_data_force_spill (fifoData st1) (w32 d1) st1) as Hfw.
        destruct (write_data _ _ _) as [[w st2] e2]. cbn [fst snd] in *.
        exists st2, e2. split; [reflexivity|]. split; [apply (keeps_shm_mode _ _ Hkw)|].
        exact Hfw.
      - exists st1, []. auto. }
    destruct Hw as (st2 & ev_write & -> & Hshm2 & Hf2). cbn [fst snd].
    split; [rewrite Hf2; exact Hf|]. left. split; [reflexivity|]. split.
    + apply in_or_app. right. apply in_or_app. right. apply in_or_app. right.
      apply in_or_app. right. left. reflexivity.
    + intros Hno. apply in_or_app. right. apply in_or_app. right. apply in_or_app. right.
      apply in_or_app. left. unfold broadcast_data.
      rewrite Hshm2, Hshm, Hno. left. reflexivity.
Qed.

(** C3, amended.  The wait of a pass polls the depths at least once and at
    most [POLL_TRIES] = 100 times and returns the depths of its last poll.
    No earlier poll saw a depth above [threshWords]; when the wait ends
    before its hundredth poll, the largest depth of the last poll is above
    [threshWords].  The flag [stop_acq] has no part in it: the wait gives
    the same result whatever the flag is.  With the acquisition running
    the number of cycles of the pass is the number of polls of the wait.
    The flag is read once the wait is over: like [force_spill] it makes
    the pass drain whatever the depths -- [force_spill] is cleared and
    the pass either hands its spill to the broadcaster and its time to the
    statistics or is abandoned with [had_error] set -- whereas a pass
    with neither flag and no depth above [threshWords] does nothing. *)
Theorem C3_wait_leaves_on_threshold_only cfg pif st :
  let r := wait_threshold pif st POLL_TRIES 0 (repeat 0 (n_cards st)) in
  (1 <= fst r <= 100)%nat /\
  snd r = poll_depths pif st (fst r - 1) /\
  (forall k, (k < fst r - 1)%nat ->
     max_element (poll_depths pif st k) <= threshWords st) /\
  ((fst r < 100)%nat -> threshWords st < max_element (snd r)) /\
  (forall b,
     wait_threshold pif (set_stop_acq b st) POLL_TRIES 0 (repeat 0 (n_cards st)) = r) /\
  (acq_running st = true ->
     snd (fst (fst (ReadFIFO_cycles cfg pif st))) = fst r) /\
  (acq_running st = true -> stop_acq st = true \/ force_spill st = true ->
     drains st (snd r) = true /\
     force_spill (snd (fst (ReadFIFO cfg pif st))) = false /\
     ((fst (fst (ReadFIFO cfg pif st)) = true /\
       In StatsAddTime (snd (ReadFIFO cfg pif st)) /\
       (shm_mode st = false -> In SendPacket (snd (ReadFIFO cfg pif st)))) \/
      (fst (fst (ReadFIFO cfg pif st)) = false /\
       had_error (snd (fst (ReadFIFO cfg pif st))) = true))) /\
  (acq_running st = true -> stop_acq st = false -> force_spill st = false ->
     max_element (snd r) <= threshWords st ->
     drains st (snd r) = false /\ ReadFIFO cfg pif st = (true, st, [])).
Proof.
  intros r.
  pose proof (wait_threshold_spec pif st 99 0 (repeat 0 (n_cards st))) as H.
  change (wait_threshold pif st 100 0 (repeat 0 (n_cards st))) with r in H.
  cbv zeta in H. destruct H as (H1 & H2 & H3 & H4).
  split; [lia|]. split; [exact H2|]. split; [intros k Hk; apply H3; lia|].
  split; [intros Hlt; apply H4; lia|]. split; [|split; [|split]].
  - intros b. apply wait_threshold_stop_acq.
  - intros Hacq. unfold ReadFIFO_cycles. rewrite Hacq. cbn [negb].
    fold r. destruct r as [cycles nWords]. cbn [fst snd].
    destruct (drains st nWords); [|reflexivity].
    destruct (drain_modules _ _ _ _ _ _); [reflexivity|].
    destruct (flush_spill _ _). reflexivity.
  - intros Hacq Hreq.
    pose proof (ReadFIFO_drains_on_request cfg pif st Hacq Hreq) as (D1 & D2 & D3).
    split; [apply D1|]. split; [exact D2|exact D3].
  - intros Hacq Hstop Hforce Hmax.
    assert (Hd : drains st (snd r) = false).
    { unfold drains. rewrite Hstop, Hforce.
      replace (threshWords st <? max_element (snd r)) with false
        by (symmetry; apply Z.ltb_ge; exact Hmax).
      reflexivity. }
    split; [exact Hd|].
    unfold ReadFIFO, ReadFIFO_cycles. rewrite Hacq. cbn [negb].
    fold r. destruct r as [cycles nWords]. cbn [snd] in Hd. rewrite Hd. reflexivity.
Qed.

(** C3, as stated: with [stop_acq] set and the FIFOs empty the wait runs
    its hundred cycles all the same. *)
Lemma C3_stop_acq_does_not_cut_the_wait :
  let st := set_stop_acq true (set_acq_running true (fresh 1 good_disk)) in
  let pif := crate (fun _ => 0) (fun _ => []) in
  stop_acq st = true /\
  fst (wait_threshold pif st POLL_TRIES 0 (repeat 0 (n_cards st))) = 100%nat /\
  snd (fst (fst (ReadFIFO_cycles pixie16 pif st))) = 100%nat.
Proof. repeat split; vm_compute; reflexivity. Qed.

Lemma w32_is_word z : is_word (w32 z).
Proof. unfold is_word, w32. apply Z.mod_pos_bound. lia. Qed.

Lemma w32_small z : 0 <= z < 2 ^ 32 -> w32 z = z.
Proof. intros H. unfold w32. apply Z.mod_small. exact H. Qed.

Lemma poll_depths_words pif st timeout : Forall is_word (poll_depths pif st timeout).
Proof.
  unfold poll_depths. apply Forall_forall. intros w Hw.
  apply in_map_iff in Hw. destruct Hw as (m & <- & _). apply w32_is_word.
Qed.

Lemma wait_threshold_words pif st : forall tries timeout nWords0,
  Forall is_word nWords0 ->
  Forall is_word (snd (wait_threshold pif st tries timeout nWords0)).
Proof.
  induction tries as [|tries IH]; intros timeout nWords0 H0; [exact H0|].
  rewrite wait_threshold_S.
  destruct (threshWords st <? _).
  - apply poll_depths_words.
  - apply IH. apply poll_depths_words.
Qed.

Lemma nth_word (nWords : list Z) m : Forall is_word nWords -> is_word (nth m nWords 0).
Proof.
  intros H. destruct (Nat.lt_ge_cases m (List.length nWords)) as [Hlt|Hge].
  - eapply Forall_forall; [exact H|]. apply nth_In. exact Hlt.
  - rewrite nth_overflow by exact Hge. unfold is_word. lia.
Qed.

Lemma wait_depths_words pif st m :
  is_word (nth m (snd (wait_threshold pif st POLL_TRIES 0 (repeat 0 (n_cards st)))) 0).
Proof.
  apply nth_word, wait_threshold_words.
  apply Forall_forall. intros w Hw. apply repeat_spec in Hw. subst w.
  unfold is_word. lia.
Qed.

Lemma quiet_nil : quiet_events [].
Proof. intros e []. Qed.

Lemma quiet_app evs1 evs2 :
  quiet_events evs1 -> quiet_events evs2 -> quiet_events (evs1 ++ evs2).
Proof. intros H1 H2 e He. apply in_app_or in He. destruct He; auto. Qed.

Lemma quiet_cons e evs :
  is_output e = false -> quiet_events evs -> quiet_events (e :: evs).
Proof. intros H1 H2 x [<-|Hx]; auto. Qed.

Lemma quiet_if (b : bool) evs : quiet_events evs -> quiet_events (if b then evs else []).
Proof. destruct b; auto using quiet_nil. Qed.

Lemma quiet_if' (b : bool) evs : quiet_events evs -> quiet_events (if b then [] else evs).
Proof. destruct b; auto using quiet_nil. Qed.

Create HintDb quiet.

#[local] Hint Resolve quiet_nil quiet_app quiet_cons quiet_if quiet_if' : quiet.


(** One pass of the parse loop, by cases. *)
Lemma parse_events_S fuel buf slot module stop p es :
  parse_events (S fuel) buf slot module stop p es =
  if p <? stop then
    if bad_header slot (buf p) then
      (p, Header.eventSize (buf p),
       [Print (if negb (Header.slotRead (buf p) =? slot)
               then "Slot read not the same as slot expected"
               else if (Header.chanRead (buf p) <? 0) || (15 <? Header.chanRead (buf p))
                    then "Channel read not valid!" else "ZERO EVENT SIZE")])
    else
      let '(p', e', evs) :=
        parse_events fuel buf slot module stop
          (p + Header.eventSize (buf p)) (Header.eventSize (buf p)) in
      (p', e',
       (if negb (Header.virtualChannel (buf p))
        then [StatsAddEvent module (Header.chanRead (buf p))
                (4 * Header.eventSize (buf p))]
        else []) ++ evs)
  else (p, es, []).
Proof.
  cbn [parse_events]. unfold bad_header.
  destruct (p <? stop); [|reflexivity].
  destruct (negb (Header.slotRead (buf p) =? slot)); [reflexivity|].
  destruct ((Header.chanRead (buf p) <? 0) || (15 <? Header.chanRead (buf p)));
    [reflexivity|].
  destruct (Header.eventSize (buf p) =? 0); reflexivity.
Qed.

Lemma parse_events_quiet buf slot module stop : forall fuel parseWords eventSize,
  quiet_events (snd (parse_events fuel buf slot module stop parseWords eventSize)).
Proof.
  induction fuel as [|fuel IH]; intros parseWords eventSize; [apply quiet_nil|].
  rewrite parse_events_S.
  destruct (parseWords <? stop); [|apply quiet_nil].
  destruct (bad_header slot (buf parseWords)).
  { cbn [snd]. apply quiet_cons; [reflexivity|apply quiet_nil]. }
  specialize (IH (parseWords + Header.eventSize (buf parseWords))
                 (Header.eventSize (buf parseWords))).
  destruct (parse_events fuel buf slot module stop _ _) as [[p e] evs].
  cbn [snd] in *. apply quiet_app; [|exact IH].
  destruct (negb (Header.virtualChannel (buf parseWords)));
    [apply quiet_cons; [reflexivity|]|]; apply quiet_nil.
Qed.

Lemma drain_module_quiet cfg pif module W st dataWords :
  quiet_events (drained_events (drain_module cfg pif module W st dataWords)).
Proof.
  unfold drain_module.
  destruct (W <? MIN_FIFO_READ cfg); [apply quiet_nil|].
  destruct (W <? 0); [simpl; auto with quiet|].
  destruct (EXTERNAL_FIFO_LENGTH cfg <=? W); [simpl; auto with quiet|].
  destruct (ReadFIFOWords pif module W); [|simpl; auto with quiet].
  match goal with
  | |- context [parse_events ?f ?b ?s ?m ?t ?p ?e] =>
      pose proof (parse_events_quiet b s m t f p e) as Hp;
      destruct (parse_events f b s m t p e) as [[pw es] evs]
  end.
  simpl in Hp.
  destruct (_ <? pw); [simpl; auto 10 with quiet|].
  destruct (pw <? _); simpl; auto 10 with quiet.
Qed.

Lemma drain_modules_quiet cfg pif nWords modules : forall st dataWords,
  quiet_events (drained_events (drain_modules cfg pif nWords modules st dataWords)).
Proof.
  induction modules as [|m rest IH]; intros st dataWords; simpl; [apply quiet_nil|].
  pose proof (drain_module_quiet cfg pif m (nth m nWords 0) st dataWords) as H.
  destruct (drain_module _ _ _ _ _ _) as [st1 e1|st1 d1 e1]; simpl in *; auto.
  specialize (IH st1 d1).
  destruct (drain_modules _ _ _ _ _ _); simpl in *; auto with quiet.
Qed.

(** ** A full FIFO *)

Lemma drain_module_full cfg pif module W st dataWords :
  MIN_FIFO_READ cfg <= EXTERNAL_FIFO_LENGTH cfg ->
  0 <= W -> EXTERNAL_FIFO_LENGTH cfg <= W ->
  drain_module cfg pif module W st dataWords =
  Abort (set_stop_acq true (set_had_error true st)) [Print "Full FIFO ABORTING!"].
Proof.
  intros Hmin H0 Hfull. unfold drain_module.
  replace (W <? MIN_FIFO_READ cfg) with false by (symmetry; apply Z.ltb_ge; lia).
  replace (W <? 0) with false by (symmetry; apply Z.ltb_ge; lia).
  replace (EXTERNAL_FIFO_LENGTH cfg <=? W) with true by (symmetry; apply Z.leb_le; lia).
  reflexivity.
Qed.

Lemma drain_modules_full cfg pif nWords m modules : forall st dataWords,
  MIN_FIFO_READ cfg <= EXTERNAL_FIFO_LENGTH cfg ->
  In m modules -> 0 <= nth m nWords 0 ->
  EXTERNAL_FIFO_LENGTH cfg <= nth m nWords 0 ->
  exists st' evs, drain_modules cfg pif nWords modules st dataWords = Abort st' evs.
Proof.
  induction modules as [|x rest IH]; intros st dataWords Hmin Hin H0 Hfull; [destruct Hin|].
  simpl. destruct (drain_module cfg pif x (nth x nWords 0) st dataWords)
    as [st1 e1|st1 d1 e1] eqn:E; [eauto|].
  destruct Hin as [->|Hin].
  - rewrite drain_module_full in E by assumption. discriminate.
  - destruct (IH st1 d1 Hmin Hin H0 Hfull) as (st' & evs & ->). eauto.
Qed.

(** A pass whose loop over the modules is left by [return false]. *)
Lemma ReadFIFO_aborted cfg pif st st' evs :
  acq_running st = true ->
  let nWords := snd (wait_threshold pif st POLL_TRIES 0 (repeat 0 (n_cards st))) in
  drains st nWords = true ->
  drain_modules cfg pif nWords (seq 0 (n_cards st)) (set_force_spill false st) 0
    = Abort st' evs ->
  ReadFIFO cfg pif st = (false, st', evs).
Proof.
  intros Hacq nWords Hdrains Hab. unfold ReadFIFO, ReadFIFO_cycles.
  rewrite Hacq. cbn [negb]. subst nWords.
  destruct (wait_threshold pif st POLL_TRIES 0 _) as [cycles nWords].
  cbn [snd] in *. rewrite Hdrains.
  change (n_cards (set_force_spill false st)) with (n_cards st).
  rewrite Hab. reflexivity.
Qed.

(** Every entry of [nWords] is at most the maximum the wait computes. *)
Lemma max_element_ge (nWords : list Z) m : nth m nWords 0 <= max_element nWords.
Proof.
  revert m. induction nWords as [|w ws IH]; intros m; simpl.
  - destruct m; lia.
  - destruct m as [|m]; [lia|]. specialize (IH m). lia.
Qed.

(** With a threshold below the FIFO length a full FIFO makes the pass drain. *)
Lemma full_fifo_drains cfg st nWords m :
  threshWords st < EXTERNAL_FIFO_LENGTH cfg ->
  EXTERNAL_FIFO_LENGTH cfg <= nth m nWords 0 ->
  drains st nWords = true.
Proof.
  intros Hth Hfull. unfold drains.
  pose proof (max_element_ge nWords m) as Hmax.
  replace (threshWords st <? max_element nWords) with true
    by (symmetry; apply Z.ltb_lt; lia).
  reflexivity.
Qed.

(** C6.  In a pass of [ReadFIFO] with the acquisition running, let some
    module [m] report a depth of at least [EXTERNAL_FIFO_LENGTH] words,
    equality included.  If the pass drains -- which it does whenever the
    threshold is below the FIFO length, and also when a spill is forced or
    a stop requested -- then [ReadFIFO] returns false with [had_error] and
    [stop_acq] set, and among all it did there is no write to the output
    file and no datagram: the spill of this pass is neither written nor
    broadcast. *)
Theorem C6_full_fifo_aborts cfg pif st m :
  MIN_FIFO_READ cfg <= EXTERNAL_FIFO_LENGTH cfg ->
  acq_running st = true ->
  let nWords := snd (wait_threshold pif st POLL_TRIES 0 (repeat 0 (n_cards st))) in
  drains st nWords = true \/ threshWords st < EXTERNAL_FIFO_LENGTH cfg ->
  (m < n_cards st)%nat ->
  EXTERNAL_FIFO_LENGTH cfg <= nth m nWords 0 ->
  exists st' evs,
    ReadFIFO cfg pif st = (false, st', evs) /\
    had_error st' = true /\ stop_acq st' = true /\
    quiet_events evs.
Proof.
  intros Hmin Hacq nWords Hpass Hm Hfull.
  assert (Hdrains : drains st nWords = true).
  { destruct Hpass as [H|H]; [exact H|].
    apply (full_fifo_drains cfg st nWords m); assumption. }
  assert (H0 : 0 <= nth m nWords 0) by apply (wait_depths_words pif st m).
  destruct (drain_modules_full cfg pif nWords m (seq 0 (n_cards st))
              (set_force_spill false st) 0 Hmin) as (st' & evs & Hab); auto.
  { apply in_seq. lia. }
  exists st', evs. split; [|split; [|split]].
  - apply ReadFIFO_aborted; assumption.
  - eapply drain_modules_abort; eauto.
  - eapply drain_modules_abort; eauto.
  - pose proof (drain_modules_quiet cfg pif nWords (seq 0 (n_cards st))
                  (set_force_spill false st) 0) as Hq.
    rewrite Hab in Hq. exact Hq.
Qed.

(** ** Words, ranges and bytes *)

Lemma range_length from n : List.length (range from n) = n.
Proof. unfold range. rewrite length_map, length_seq. reflexivity. Qed.

Lemma range_S from n : range from (S n) = from :: range (from + 1) n.
Proof.
  unfold range. simpl. rewrite <- seq_shift, map_map. f_equal.
  - apply Z.add_0_r.
  - apply map_ext. intros k. rewrite Nat2Z.inj_succ. apply Z.add_assoc || lia.
Qed.

Lemma range_app from n m :
  range from (n + m) = range from n ++ range (from + Z.of_nat n) m.
Proof.
  revert from. induction n as [|n IH]; intros from.
  - simpl. rewrite Z.add_0_r. reflexivity.
  - change (S n + m)%nat with (S (n + m)). rewrite !range_S, IH. simpl.
    do 3 f_equal. lia.
Qed.

Lemma load_words_length buf from n : List.length (load_words buf from n) = Z.to_nat n.
Proof. unfold load_words. rewrite length_map. apply range_length. Qed.

Lemma len_app (a b : list Z) : len (a ++ b) = len a + len b.
Proof. unfold len. rewrite length_app. lia. Qed.

Lemma len_load_words buf from n : 0 <= n -> len (load_words buf from n) = n.
Proof. intros H. unfold len. rewrite load_words_length. lia. Qed.

Lemma load_words_app buf from n m :
  0 <= n -> 0 <= m ->
  load_words buf from (n + m) = load_words buf from n ++ load_words buf (from + n) m.
Proof.
  intros Hn Hm. unfold load_words.
  rewrite Z2Nat.inj_add, range_app, map_app by lia. rewrite Z2Nat.id by lia. reflexivity.
Qed.

Lemma le32_length w : List.length (le32 w) = 4%nat.
Proof. reflexivity. Qed.

Lemma byte_at_word data a j :
  0 <= j < 4 -> byte_at data (4 * a + j) = nth (Z.to_nat j) (le32 (data a)) 0.
Proof.
  intros Hj. unfold byte_at.
  replace ((4 * a + j) mod 4) with j
    by (rewrite Z.add_comm, Z.mul_comm, Z.mod_add by lia; symmetry; apply Z.mod_small; lia).
  replace ((4 * a + j) / 4) with a
    by (rewrite Z.add_comm, Z.mul_comm, Z.div_add by lia; rewrite Z.div_small by lia; lia).
  reflexivity.
Qed.

Lemma byte_at_le32 data a :
  map (byte_at data) (range (4 * a) 4) = le32 (data a).
Proof.
  change (range (4 * a) 4) with [4 * a + 0; 4 * a + 1; 4 * a + 2; 4 * a + 3].
  cbn [map].
  rewrite (byte_at_word data a 0), (byte_at_word data a 1),
          (byte_at_word data a 2), (byte_at_word data a 3) by lia.
  reflexivity.
Qed.

(** The byte view of a run of whole words. *)
Lemma data_bytes_words data : forall n a,
  map (byte_at data) (range (4 * a) (4 * n)) =
  bytes_of_words (map data (range a n)).
Proof.
  induction n as [|n IH]; intros a; [reflexivity|].
  replace (4 * S n)%nat with (4 + 4 * n)%nat by lia.
  rewrite range_app, map_app, byte_at_le32, (range_S a n).
  replace (4 * a + Z.of_nat 4) with (4 * (a + 1)) by lia.
  rewrite IH. reflexivity.
Qed.

Lemma data_bytes_load data a n :
  0 <= n ->
  data_bytes data (4 * a) (4 * n) = bytes_of_words (load_words data a n).
Proof.
  intros Hn. unfold data_bytes, load_words.
  replace (Z.to_nat (4 * n)) with (4 * Z.to_nat n)%nat by lia.
  apply data_bytes_words.
Qed.

Lemma bytes_of_words_length ws : len (bytes_of_words ws) = 4 * len ws.
Proof.
  unfold len, bytes_of_words. induction ws as [|w ws IH]; [reflexivity|].
  cbn [flat_map]. rewrite length_app, le32_length. cbn [List.length]. lia.
Qed.

Lemma bytes_of_words_app ws1 ws2 :
  bytes_of_words (ws1 ++ ws2) = bytes_of_words ws1 ++ bytes_of_words ws2.
Proof. unfold bytes_of_words. apply flat_map_app. Qed.

(** ** The datagrams of a spill *)

Lemma net_chunks_ceil nWords :
  0 <= nWords -> nWords < 2 ^ 32 -> net_chunks nWords = (nWords + 9999) / 10000.
Proof.
  intros H0 H1. unfold net_chunks.
  pose proof (Z.div_mod nWords 10000 ltac:(lia)) as Hdm.
  pose proof (Z.mod_pos_bound nWords 10000 ltac:(lia)) as Hm.
  assert (Hq : 0 <= nWords / 10000) by (apply Z.div_pos; lia).
  destruct (nWords mod 10000 =? 0) eqn:E; cbn [negb].
  - apply Z.eqb_eq in E. apply Z.div_unique with (r := 9999); lia.
  - apply Z.eqb_neq in E. rewrite w32_small.
    + apply Z.div_unique with (r := nWords mod 10000 - 1); lia.
    + split; [lia|]. assert (nWords / 10000 <= nWords) by (apply Z.div_le_upper_bound; lia).
      lia.
Qed.

Lemma firstn_header a b (x : list Z) : firstn 8 (le32 a ++ le32 b ++ x) = le32 a ++ le32 b.
Proof. reflexivity. Qed.

Lemma skipn_header a b (x : list Z) : skipn 8 (le32 a ++ le32 b ++ x) = x.
Proof. reflexivity. Qed.

Lemma header_length a b (x : list Z) : len (le32 a ++ le32 b ++ x) = 8 + len x.
Proof. unfold len. rewrite !length_app, !le32_length. lia. Qed.

Ltac some_inj H :=
  match type of H with
  | Some ?x = Some ?y =>
      let E := fresh in assert (E : x = y) by congruence; clear H; subst y
  end.

Lemma datagrams_send b n evs :
  datagrams (SendMessage b n :: evs) = (b, n) :: datagrams evs.
Proof. reflexivity. Qed.

Lemma broadcast_chunks_done fuel data nWords total net_chunk :
  broadcast_chunks fuel data nWords total net_chunk nWords = [].
Proof.
  destruct fuel; cbn [broadcast_chunks]; [reflexivity|].
  rewrite Z.ltb_irrefl. reflexivity.
Qed.

Lemma broadcast_chunks_spec data nWords total :
  0 <= nWords -> 4 * nWords < 2 ^ 32 ->
  forall fuel k,
    0 <= k -> 10000 * k <= nWords -> nWords - 10000 * k <= Z.of_nat fuel ->
    let evs := broadcast_chunks fuel data nWords total (k + 1) (10000 * k) in
    let ds := datagrams evs in
    evs = map (fun d => SendMessage (fst d) (snd d)) ds /\
    Z.of_nat (List.length ds) = (nWords - 10000 * k + 9999) / 10000 /\
    (forall i d, nth_error ds i = Some d -> chunk_ok data nWords total k i d) /\
    List.concat (map payload ds) =
      bytes_of_words (load_words data (10000 * k) (nWords - 10000 * k)).
Proof.
  intros H0 H32. induction fuel as [|fuel IH]; intros k Hk Hle Hfuel; cbv zeta.
  - assert (nWords = 10000 * k) by lia. cbn [broadcast_chunks].
    replace (nWords - 10000 * k) with 0 by lia.
    split; [reflexivity|]. split; [reflexivity|].
    split; [intros [|i] d; discriminate | reflexivity].
  - cbn [broadcast_chunks].
    destruct (10000 * k <? nWords) eqn:Elt.
    2:{ apply Z.ltb_ge in Elt.
        replace (nWords - 10000 * k) with 0 by lia.
        split; [reflexivity|]. split; [reflexivity|].
        split; [intros [|i] d; discriminate | reflexivity]. }
    apply Z.ltb_lt in Elt.
    rewrite (w32_small (nWords - 10000 * k)) by lia.
    rewrite (w32_small (10000 * k * 4)) by lia.
    rewrite (w32_small (k + 1 + 1)) by lia.
    replace (10000 * k * 4) with (4 * (10000 * k)) by lia.
    destruct (10000 <? nWords - 10000 * k) eqn:Ebig.
    + apply Z.ltb_lt in Ebig.
      rewrite (w32_small (10000 * k + 10000)) by lia.
      replace (10000 * k + 10000) with (10000 * (k + 1)) by lia.
      specialize (IH (k + 1) ltac:(lia) ltac:(lia) ltac:(lia)). cbv zeta in IH.
      destruct IH as (I1 & I2 & I3 & I4).
      set (rest := broadcast_chunks fuel data nWords total (k + 1 + 1) (10000 * (k + 1))) in *.
      change 40000 with (4 * 10000).
      rewrite (data_bytes_load data (10000 * k) 10000) by lia.
      set (body := bytes_of_words (load_words data (10000 * k) 10000)).
      assert (Hbody : len body = 40000)
        by (subst body; rewrite bytes_of_words_length, len_load_words by lia; reflexivity).
      remember (le32 (k + 1) ++ le32 total ++ body) as msg eqn:Hmsg.
      rewrite datagrams_send, !map_cons, length_cons, concat_cons.
      split; [f_equal; exact I1|]. split; [|split].
      * rewrite Nat2Z.inj_succ, I2.
        replace (nWords - 10000 * k + 9999)
          with (nWords - 10000 * (k + 1) + 9999 + 1 * 10000) by lia.
        rewrite Z.div_add by lia. lia.
      * intros [|i] d Hd.
        -- cbn [nth_error] in Hd. some_inj Hd.
           unfold chunk_ok, payload, fst, snd. subst msg.
           replace (k + Z.of_nat 0) with k by lia.
           replace (10000 <? nWords - 10000 * k) with true by (symmetry; apply Z.ltb_lt; lia).
           replace (Z.min (nWords - 10000 * k) 10000) with 10000 by lia.
           split; [apply firstn_header|]. split; [apply skipn_header|].
           split; [|reflexivity].
           rewrite header_length, Hbody. reflexivity.
        -- cbn [nth_error] in Hd. specialize (I3 i d Hd). unfold chunk_ok in *.
           replace (k + Z.of_nat (S i)) with (k + 1 + Z.of_nat i) by lia. exact I3.
      * unfold payload at 1. cbn [fst]. subst msg.
        rewrite skipn_header, I4. subst body.
        rewrite <- bytes_of_words_app. f_equal.
        replace (nWords - 10000 * k) with (10000 + (nWords - 10000 * (k + 1))) by lia.
        rewrite load_words_app by lia. do 2 f_equal. lia.
    + apply Z.ltb_ge in Ebig.
      rewrite (w32_small (10000 * k + (nWords - 10000 * k))) by lia.
      replace (10000 * k + (nWords - 10000 * k)) with nWords by lia.
      rewrite (w32_small ((nWords - 10000 * k) * 4)) by lia.
      rewrite (w32_small ((nWords - 10000 * k + 2) * 4)) by lia.
      rewrite broadcast_chunks_done.
      replace ((nWords - 10000 * k) * 4) with (4 * (nWords - 10000 * k)) by lia.
      rewrite (data_bytes_load data (10000 * k) (nWords - 10000 * k)) by lia.
      set (body := bytes_of_words (load_words data (10000 * k) (nWords - 10000 * k))).
      assert (Hbody : len body = 4 * (nWords - 10000 * k))
        by (subst body; rewrite bytes_of_words_length, len_load_words by lia; reflexivity).
      remember (le32 (k + 1) ++ le32 total ++ body) as msg eqn:Hmsg.
      rewrite datagrams_send, !map_cons, length_cons, concat_cons.
      split; [reflexivity|]. split; [|split].
      * apply Z.div_unique with (r := nWords - 10000 * k - 1); cbn [datagrams flat_map List.length]; lia.
      * intros [|[|i]] d Hd; try discriminate.
        cbn [nth_error] in Hd. some_inj Hd.
        unfold chunk_ok, payload, fst, snd. subst msg.
        replace (k + Z.of_nat 0) with k by lia.
        replace (10000 <? nWords - 10000 * k) with false by (symmetry; apply Z.ltb_ge; lia).
        replace (Z.min (nWords - 10000 * k) 10000) with (nWords - 10000 * k) by lia.
        split; [apply firstn_header|]. split; [apply skipn_header|].
        split; [|reflexivity].
        rewrite header_length, Hbody. cbv iota. lia.
      * unfold payload. cbn [fst]. subst msg.
        rewrite skipn_header. apply app_nil_r.
Qed.

Ltac quiet_tac :=
  repeat first
    [ assumption
    | apply quiet_nil
    | apply quiet_app
    | apply quiet_cons; [reflexivity|]
    | match goal with |- quiet_events (if ?b then _ else _) => destruct b end ].

Lemma datagrams_app evs1 evs2 : datagrams (evs1 ++ evs2) = datagrams evs1 ++ datagrams evs2.
Proof. unfold datagrams. apply flat_map_app. Qed.

Lemma ceil_bounds n :
  0 <= n -> 10000 * ((n + 9999) / 10000) - 9999 <= n <= 10000 * ((n + 9999) / 10000).
Proof.
  intros Hn.
  pose proof (Z.div_mod (n + 9999) 10000 ltac:(lia)) as Hdm.
  pose proof (Z.mod_pos_bound (n + 9999) 10000 ltac:(lia)) as Hm.
  lia.
Qed.

(** The file gets the whole spill in one [Write], after everything else. *)
Lemma write_data_single_write data nWords st :
  exists pre,
    snd (write_data data nWords st) = pre ++ [FileWrite (load_words data 0 nWords)] /\
    forall e, In e pre -> is_output e = false.
Proof.
  unfold write_data.
  set (ws := load_words data 0 nWords).
  assert (Hc : forall c s, quiet_events (snd (close_output_file c s))).
  { intros c s. unfold close_output_file. simpl.
    destruct (IsOpen (output_file s)); [destruct c|]; simpl;
      intros e He; repeat (destruct He as [<-|He]; [reflexivity|]); destruct He. }
  assert (Ho : forall c s, quiet_events (snd (open_output_file c s))).
  { intros c s. unfold open_output_file.
    destruct (negb (IsOpen (output_file s))); simpl.
    - destruct (OpenNewFile _ _ _) as [[] f]; simpl;
        intros e He; repeat (destruct He as [<-|He]; [reflexivity|]); destruct He.
    - intros e He; repeat (destruct He as [<-|He]; [reflexivity|]); destruct He. }
  pose proof (Ho false st) as H0.
  destruct (negb (IsOpen (output_file st)));
    [destruct (open_output_file false st) as [[b0 s0] e0]|set (s0 := st)];
    (destruct (MAX_FILE_SIZE <? _);
     [pose proof (Hc true s0) as H1;
      destruct (close_output_file true s0) as [[b1 s1] e1];
      pose proof (Ho true s1) as H2;
      destruct (open_output_file true s1) as [[b2 s2] e2]|]);
    destruct (Write ws _) as [w f]; cbn [snd] in *;
    (eexists; split; [rewrite !app_assoc; reflexivity|]);
    quiet_tac.
Qed.

(** ** The file ceiling *)

(** C4, amended.  Let the file be open, let [4 * nWords + 65552] fit a
    word and let the size of the file plus that number exceed
    [MAX_FILE_SIZE] = 2^32.  Then [write_data] closes the file as the
    file of a run that goes on, [next_run_num] staying as it is, and asks
    for a new file of [next_run_num] as a continuation, before it writes.
    When the disk accepts the new file, the calls on the output file are
    close, open and one write of all [nWords] words of the spill; the new
    file has the run number [next_run_num] -- that of the old file when
    the old file was the file of [next_run_num] -- and the next suffix,
    and holds the spill and nothing else; the old file was closed with
    what it had.  When the disk refuses the new file, [record_data] is
    cleared, no file is open and the write is called all the same: the
    spill reaches no file.  In every case [write_data] hands the spill
    to the file in a single write, which is the last thing it does: no
    spill is split across two files. *)
Theorem C4_rotation_precedes_write data nWords st :
  IsOpen (output_file st) = true ->
  0 <= nWords -> 4 * nWords + 65552 < 2 ^ 32 ->
  MAX_FILE_SIZE < GetFilesize (output_file st) + 4 * nWords + 65552 ->
  let f := output_file st in
  let ws := load_words data 0 nWords in
  (forall size,
     disk_ok f (attempts f) = Some size ->
     exists st' evs,
       write_data data nWords st = (4 * nWords, st', evs) /\
       file_calls evs = [FileClose; FileOpen (next_run_num st) true true; FileWrite ws] /\
       len ws = nWords /\
       next_run_num st' = next_run_num st /\
       GetRunNumber (output_file st') = next_run_num st /\
       (GetRunNumber f = next_run_num st ->
        GetRunNumber (output_file st') = GetRunNumber f) /\
       GetSuffix (output_file st') = GetSuffix f + 1 /\
       contents (output_file st') = ws /\
       closed_files (output_file st') =
         (GetRunNumber f, GetSuffix f, contents f) :: closed_files f /\
       IsOpen (output_file st') = true /\ file_open st' = true /\
       record_data st' = record_data st) /\
  (disk_ok f (attempts f) = None ->
   exists written st' evs,
     write_data data nWords st = (written, st', evs) /\
     file_calls evs = [FileClose; FileOpen (next_run_num st) true false; FileWrite ws] /\
     next_run_num st' = next_run_num st /\
     IsOpen (output_file st') = false /\ file_open st' = false /\
     record_data st' = false /\
     contents (output_file st') = [] /\
     closed_files (output_file st') =
       (GetRunNumber f, GetSuffix f, contents f) :: closed_files f) /\
  (forall data0 nWords0 st0,
     exists pre,
       snd (write_data data0 nWords0 st0) =
         pre ++ [FileWrite (load_words data0 0 nWords0)] /\
       quiet_events pre).
Proof.
  intros Hopen H0 H32 Hbig f ws.
  assert (Hlen : len ws = nWords) by (subst ws; apply len_load_words; exact H0).
  split; [|split; [|intros data0 nWords0 st0; apply write_data_single_write]].
  - intros size Hdisk. subst f.
    unfold write_data. rewrite Hopen. cbn [negb].
    rewrite (w32_small (4 * nWords + 65552)) by lia.
    replace (MAX_FILE_SIZE <? GetFilesize (output_file st) + (4 * nWords + 65552))
      with true by (symmetry; apply Z.ltb_lt; lia).
    unfold close_output_file. cbn [output_file set_file_open negb]. rewrite Hopen.
    cbn [negb].
    unfold open_output_file, OpenNewFile.
    cbn [output_file set_output_file CloseFile IsOpen negb disk_ok attempts next_run_num].
    rewrite Hdisk. cbn [negb output_file set_output_file set_file_open].
    unfold Write. cbn [IsOpen]. fold ws. rewrite Hlen.
    match goal with
    | |- context [negb (is_quiet ?s)] => change (is_quiet s) with (is_quiet st)
    end.
    eexists; eexists. split; [reflexivity|].
    split; [destruct (is_quiet st); reflexivity|].
    repeat split. intros H; exact (eq_sym H).
  - intros Hdisk. subst f.
    unfold write_data. rewrite Hopen. cbn [negb].
    rewrite (w32_small (4 * nWords + 65552)) by lia.
    replace (MAX_FILE_SIZE <? GetFilesize (output_file st) + (4 * nWords + 65552))
      with true by (symmetry; apply Z.ltb_lt; lia).
    unfold close_output_file. cbn [output_file set_file_open negb]. rewrite Hopen.
    cbn [negb].
    unfold open_output_file, OpenNewFile.
    cbn [output_file set_output_file CloseFile IsOpen negb disk_ok attempts next_run_num].
    rewrite Hdisk. cbn [negb output_file set_output_file set_file_open set_record_data
                        IsOpen].
    unfold Write. cbn [IsOpen]. fold ws.
    match goal with
    | |- context [negb (is_quiet ?s)] => change (is_quiet s) with (is_quiet st)
    end.
    eexists; eexists; eexists. split; [reflexivity|].
    split; [destruct (is_quiet st); reflexivity|].
    repeat split.
Qed.

(** A file of run 7 that is 4096 bytes short of the ceiling receives a
    spill of 2048 words: the file is changed first. *)
Lemma C4_rotation_witness :
  exists st' evs,
    write_data counting 2048 recording_run_7 = (4 * 2048, st', evs) /\
    file_calls evs =
      [FileClose; FileOpen 7 true true; FileWrite (load_words counting 0 2048)] /\
    GetRunNumber (output_file st') = 7 /\
    GetSuffix (output_file st') = 1 /\
    contents (output_file st') = load_words counting 0 2048 /\
    closed_files (output_file st') = [(7, 0, [5])] /\
    record_data st' = true.
Proof.
  destruct (C4_rotation_precedes_write counting 2048 recording_run_7)
    as (H & _); [reflexivity | lia | lia | reflexivity |].
  destruct (H 65552 eq_refl)
    as (st' & evs & H1 & H2 & _ & _ & H5 & _ & H6 & H7 & H8 & _ & _ & H10).
  exists st', evs. repeat split; assumption.
Defined.

(** C4, as stated: the same file and the same spill on a disk that takes
    no new file.  The file is closed, no file is opened, [record_data] is
    cleared and the spill is handed to a sink that has no file: no file
    holds it. *)
Lemma C4_refused_file_loses_the_spill :
  let st := refused_run_7 in
  let r := write_data counting 2048 st in
  IsOpen (output_file st) = true /\
  MAX_FILE_SIZE < GetFilesize (output_file st) + 4 * 2048 + 65552 /\
  file_calls (snd r) =
    [FileClose; FileOpen 7 true false; FileWrite (load_words counting 0 2048)] /\
  IsOpen (output_file (snd (fst r))) = false /\
  contents (output_file (snd (fst r))) = [] /\
  closed_files (output_file (snd (fst r))) = [(7, 0, [5])] /\
  record_data (snd (fst r)) = false.
Proof. repeat split; vm_compute; reflexivity. Qed.

(** ** Header fields *)

Lemma chanRead_range w : 0 <= Header.chanRead w <= 15.
Proof.
  unfold Header.chanRead. change (Z.land w 0xF) with (Z.land w (Z.ones 4)).
  rewrite Z.land_ones by lia.
  pose proof (Z.mod_pos_bound w (2 ^ 4) ltac:(lia)). change (2 ^ 4) with 16 in *. lia.
Qed.

Lemma eventSize_range w : 0 <= Header.eventSize w <= 16383.
Proof.
  unfold Header.eventSize.
  replace (Z.land w 0x7FFE2000) with (Z.land (Z.land w 0x7FFE2000) (Z.ones 31))
    by (rewrite <- Z.land_assoc; reflexivity).
  rewrite Z.land_ones, Z.shiftr_div_pow2 by lia.
  pose proof (Z.mod_pos_bound (Z.land w 0x7FFE2000) (2 ^ 31) ltac:(lia)) as H.
  split.
  - apply Z.div_pos; lia.
  - apply Z.lt_succ_r. apply Z.div_lt_upper_bound; [lia|].
    change (2 ^ 17 * Z.succ 16383) with (2 ^ 31). lia.
Qed.

(** ** Reading back what was stored *)

Lemma store_same buf i v : store buf i v i = v.
Proof. unfold store. rewrite Z.eqb_refl. reflexivity. Qed.

Lemma store_other buf i v j : j <> i -> store buf i v j = buf j.
Proof. intros H. unfold store. apply Z.eqb_neq in H. rewrite H. reflexivity. Qed.

Lemma store_words_outside ws : forall buf pos j,
  j < pos \/ pos + len ws <= j -> store_words buf pos ws j = buf j.
Proof.
  unfold len. induction ws as [|w ws IH]; intros buf pos j Hj; [reflexivity|].
  cbn [store_words]. rewrite IH by (cbn [List.length] in Hj; lia).
  apply store_other. cbn [List.length] in Hj. lia.
Qed.

Lemma store_words_inside ws : forall buf pos k,
  (k < List.length ws)%nat ->
  store_words buf pos ws (pos + Z.of_nat k) = nth k ws 0.
Proof.
  induction ws as [|w ws IH]; intros buf pos k Hk; [inversion Hk|].
  cbn [store_words]. destruct k as [|k].
  - rewrite store_words_outside by lia. rewrite Z.add_0_r. apply store_same.
  - replace (pos + Z.of_nat (S k)) with (pos + 1 + Z.of_nat k) by lia.
    apply IH. cbn [List.length] in Hk. lia.
Qed.

Lemma load_words_ext buf buf' from n :
  (forall j, from <= j < from + n -> buf j = buf' j) ->
  load_words buf from n = load_words buf' from n.
Proof.
  intros H. unfold load_words, range. rewrite !map_map. apply map_ext_in.
  intros k Hk. apply in_seq in Hk. apply H. lia.
Qed.

Lemma load_words_nth buf from n k :
  (k < Z.to_nat n)%nat -> nth k (load_words buf from n) 0 = buf (from + Z.of_nat k).
Proof.
  intros Hk. unfold load_words, range. rewrite map_map.
  rewrite (nth_indep _ 0 ((fun x => buf (from + Z.of_nat x)) O))
    by (rewrite length_map, length_seq; exact Hk).
  rewrite (map_nth (fun x => buf (from + Z.of_nat x))), seq_nth by exact Hk.
  reflexivity.
Qed.

Lemma load_store_words buf pos ws :
  load_words (store_words buf pos ws) pos (len ws) = ws.
Proof.
  apply (nth_ext _ _ 0 0).
  - rewrite load_words_length. unfold len. lia.
  - intros k Hk. rewrite load_words_length in Hk.
    rewrite load_words_nth by exact Hk.
    apply store_words_inside. unfold len in Hk. lia.
Qed.

Lemma load_words_cons buf from n :
  0 < n -> load_words buf from n = buf from :: load_words buf (from + 1) (n - 1).
Proof.
  intros Hn. unfold load_words.
  replace (Z.to_nat n) with (S (Z.to_nat (n - 1))) by lia.
  rewrite range_S. reflexivity.
Qed.

Lemma load_words_prefix buf from n k :
  0 <= k <= n -> firstn (Z.to_nat k) (load_words buf from n) = load_words buf from k.
Proof.
  intros Hk. replace n with (k + (n - k)) by lia.
  rewrite load_words_app by lia.
  rewrite firstn_app, load_words_length, Nat.sub_diag, firstn_O, app_nil_r.
  apply firstn_all2. rewrite load_words_length. lia.
Qed.

Lemma load_words_suffix buf from n k :
  0 <= k <= n -> skipn (Z.to_nat k) (load_words buf from n) = load_words buf (from + k) (n - k).
Proof.
  intros Hk. replace n with (k + (n - k)) at 1 by lia.
  rewrite load_words_app by lia.
  rewrite skipn_app, load_words_length, Nat.sub_diag, skipn_O.
  rewrite skipn_all2 by (rewrite load_words_length; lia). reflexivity.
Qed.

Lemma fifo_words_length n ws : len (fifo_words n ws) = Z.max 0 n.
Proof. unfold len, fifo_words. rewrite length_map, length_seq. lia. Qed.

(** ** The walk over the events of a segment *)

Lemma bad_header_false slot w :
  bad_header slot w = false ->
  Header.slotRead w = slot /\ 1 <= Header.eventSize w <= 16383.
Proof.
  unfold bad_header. intros H.
  apply orb_false_elim in H. destruct H as (H & H3).
  apply orb_false_elim in H. destruct H as (H1 & H2).
  apply negb_false_iff, Z.eqb_eq in H1. apply Z.eqb_neq in H3.
  pose proof (eventSize_range w). split; [exact H1|lia].
Qed.

Lemma reaches_ge buf slot stop p q : reaches buf slot stop p q -> p <= q.
Proof.
  induction 1 as [|p q Hp Hgood _ IH]; [lia|].
  apply bad_header_false in Hgood. lia.
Qed.

(** Where the parse loop stops, given enough fuel. *)
Lemma parse_events_outcome buf slot module stop : forall fuel p0 es0,
  stop - p0 <= Z.of_nat fuel ->
  let r := parse_events fuel buf slot module stop p0 es0 in
  let p := fst (fst r) in
  let es := snd (fst r) in
  (stop <= p0 /\ p = p0 /\ es = es0) \/
  (exists q,
     reaches buf slot stop p0 q /\ q < stop /\ es = Header.eventSize (buf q) /\
     ((bad_header slot (buf q) = true /\ p = q) \/
      (bad_header slot (buf q) = false /\ p = q + es /\ stop <= p))).
Proof.
  induction fuel as [|fuel IH]; intros p0 es0 Hfuel; cbv zeta.
  - left. cbn [parse_events fst snd]. split; [lia|auto].
  - rewrite parse_events_S.
    destruct (p0 <? stop) eqn:Elt.
    2:{ left. apply Z.ltb_ge in Elt. cbn [fst snd]. auto. }
    apply Z.ltb_lt in Elt. right.
    destruct (bad_header slot (buf p0)) eqn:Ebad.
    + exists p0. cbn [fst snd]. split; [constructor|]. split; [exact Elt|].
      split; [reflexivity|]. left. auto.
    + pose proof (bad_header_false _ _ Ebad) as (_ & Hes).
      specialize (IH (p0 + Header.eventSize (buf p0)) (Header.eventSize (buf p0))
                    ltac:(lia)).
      cbv zeta in IH.
      destruct (parse_events fuel buf slot module stop _ _) as [[p' e'] evs].
      cbn [fst snd] in *.
      destruct IH as [(H1 & H2 & H3)|(q & H1 & H2 & H3 & H4)].
      * exists p0. split; [constructor|]. split; [exact Elt|].
        split; [exact H3|]. right. split; [exact Ebad|]. subst. split; [reflexivity|lia].
      * exists q. split; [eapply reaches_next; eauto|]. auto.
Qed.

(** The parse loop does not need more fuel than the words it walks. *)
Lemma parse_events_fuel buf slot module stop : forall fuel fuel' p0 es0,
  stop - p0 <= Z.of_nat fuel -> stop - p0 <= Z.of_nat fuel' ->
  parse_events fuel buf slot module stop p0 es0 =
  parse_events fuel' buf slot module stop p0 es0.
Proof.
  induction fuel as [|fuel IH]; intros fuel' p0 es0 H1 H2.
  - destruct fuel' as [|fuel']; [reflexivity|].
    rewrite parse_events_S. cbn [parse_events].
    replace (p0 <? stop) with false by (symmetry; apply Z.ltb_ge; lia). reflexivity.
  - destruct fuel' as [|fuel'].
    + rewrite parse_events_S. cbn [parse_events].
      replace (p0 <? stop) with false by (symmetry; apply Z.ltb_ge; lia). reflexivity.
    + rewrite !parse_events_S.
      destruct (p0 <? stop) eqn:Elt; [|reflexivity].
      destruct (bad_header slot (buf p0)) eqn:Ebad; [reflexivity|].
      apply Z.ltb_lt in Elt. pose proof (bad_header_false _ _ Ebad) as (_ & Hes).
      rewrite (IH fuel') by lia. reflexivity.
Qed.

(** A bad header the walk arrives at is where the loop breaks. *)
Lemma parse_events_bad buf slot module stop p0 q :
  reaches buf slot stop p0 q -> q < stop -> bad_header slot (buf q) = true ->
  forall fuel es0, stop - p0 <= Z.of_nat fuel ->
    fst (parse_events fuel buf slot module stop p0 es0) = (q, Header.eventSize (buf q)).
Proof.
  induction 1 as [p|p q Hp Hgood Hreach IH]; intros Hq Hbad fuel es0 Hfuel.
  - destruct fuel as [|fuel]; [lia|].
    rewrite parse_events_S.
    replace (p <? stop) with true by (symmetry; apply Z.ltb_lt; lia).
    rewrite Hbad. reflexivity.
  - destruct fuel as [|fuel]; [lia|].
    rewrite parse_events_S.
    replace (p <? stop) with true by (symmetry; apply Z.ltb_lt; lia).
    rewrite Hgood. pose proof (bad_header_false _ _ Hgood) as (_ & Hes).
    specialize (IH Hq Hbad fuel (Header.eventSize (buf p)) ltac:(lia)).
    destruct (parse_events fuel buf slot module stop _ _) as [[p' e'] evs].
    exact IH.
Qed.

Lemma parse_events_no_dump buf slot module stop : forall fuel p es,
  forallb (fun e => negb (is_dump e))
    (snd (parse_events fuel buf slot module stop p es)) = true.
Proof.
  induction fuel as [|fuel IH]; intros p es; [reflexivity|].
  rewrite parse_events_S.
  destruct (p <? stop); [|reflexivity].
  destruct (bad_header slot (buf p)); [reflexivity|].
  specialize (IH (p + Header.eventSize (buf p)) (Header.eventSize (buf p))).
  destruct (parse_events fuel buf slot module stop _ _) as [[p' e'] evs].
  cbn [snd] in *. rewrite forallb_app, IH.
  destruct (negb (Header.virtualChannel (buf p))); reflexivity.
Qed.

Lemma len_nonneg (l : list Z) : 0 <= len l.
Proof. unfold len. lia. Qed.

(** ** The segment of a module that is read *)

(** The module word sits right after the length slot. *)
Lemma loaded_module_word st module dataWords W ws :
  loaded st module dataWords W ws (dataWords + 1) = Z.of_nat module.
Proof.
  unfold loaded. pose proof (len_nonneg (partialEvent st module)).
  rewrite !store_words_outside by lia. apply store_same.
Qed.

(** The words saved by the previous pass come first ... *)
Lemma loaded_partial st module dataWords W ws :
  load_words (loaded st module dataWords W ws) (dataWords + 2)
    (len (partialEvent st module)) = partialEvent st module.
Proof.
  unfold loaded.
  rewrite <- (load_store_words (store (fifoData st) (dataWords + 1) (Z.of_nat module))
                (dataWords + 2) (partialEvent st module)) at 4.
  apply load_words_ext. intros j Hj. apply store_words_outside. lia.
Qed.

(** ... and the words just read from the FIFO follow them. *)
Lemma loaded_fifo st module dataWords W ws :
  0 <= W ->
  load_words (loaded st module dataWords W ws)
    (dataWords + 2 + len (partialEvent st module)) W = fifo_words W ws.
Proof.
  intros HW. unfold loaded.
  replace W with (len (fifo_words W ws)) at 2 by (rewrite fifo_words_length; lia).
  apply load_store_words.
Qed.

(** Nothing below the segment is touched. *)
Lemma loaded_below st module dataWords W ws j :
  j <= dataWords -> loaded st module dataWords W ws j = fifoData st j.
Proof.
  intros Hj. unfold loaded. pose proof (len_nonneg (partialEvent st module)).
  rewrite !store_words_outside by lia. apply store_other. lia.
Qed.

(** ** One module, read from its FIFO *)

Section ModuleRead.

Variables (cfg : Config) (pif : Pixie) (module : nat) (W : Z) (st : Poll)
          (dataWords : Z) (ws : list Z).

Hypothesis enough : MIN_FIFO_READ cfg <= W.
Hypothesis not_full : 0 <= W < EXTERNAL_FIFO_LENGTH cfg.
Hypothesis read_ok : ReadFIFOWords pif module W = Some ws.
Hypothesis fits : W + len (partialEvent st module) + 2 < 2 ^ 32.

Local Notation buf := (loaded st module dataWords W ws).
Local Notation n := (W + len (partialEvent st module)).
Local Notation start := (dataWords + 2).
Local Notation stop := (dataWords + 2 + (W + len (partialEvent st module))).
Local Notation slot := (w32 (GetSlotNumber pif module)).
Local Notation st1 := (set_partialEvent module [] (set_fifoData buf st)).

Lemma drain_module_read :
  drain_module cfg pif module W st dataWords =
  let ev_read := if negb (is_quiet st) then [Print "Read words"] else [] in
  let '(parseWords, eventSize, ev_parse) :=
    parse_events (Z.to_nat n) buf slot module stop start 0 in
  if stop <? parseWords then
    let partialSize := w32 (eventSize - w32 (parseWords - start - n)) in
    let ev_partial := if debug_mode st then [Print "Partial event"] else [] in
    Next (set_fifoData (store buf dataWords (w32 (w32 (n - partialSize) + 2)))
            (set_partialEvent module
               (load_words buf (parseWords - eventSize) partialSize) st1))
      (start + w32 (n - partialSize)) (ev_read ++ ev_parse ++ ev_partial)
  else if parseWords <? stop then
    Abort (set_had_error true (set_stop_acq true st1))
      (ev_read ++ ev_parse ++ [Print "Parsing indicated corrupted data"]
       ++ (if negb (is_quiet st) then [HexDump (load_words buf start 100)] else []))
  else
    Next (set_fifoData (store buf dataWords (w32 (n + 2))) st1)
      (start + n) (ev_read ++ ev_parse).
Proof.
  unfold drain_module.
  replace (W <? MIN_FIFO_READ cfg) with false by (symmetry; apply Z.ltb_ge; lia).
  replace (W <? 0) with false by (symmetry; apply Z.ltb_ge; lia).
  replace (EXTERNAL_FIFO_LENGTH cfg <=? W) with false by (symmetry; apply Z.leb_gt; lia).
  rewrite read_ok. cbv zeta.
  cbn [fifoData set_fifoData partialEvent is_quiet debug_mode].
  assert (Hlen : 0 <= len (partialEvent st module)) by (unfold len; lia).
  rewrite (w32_small (W + len (partialEvent st module))) by lia.
  replace (dataWords + 1 + 1) with (dataWords + 2) by lia.
  fold (loaded st module dataWords W ws).
  replace (dataWords + 2 - 2) with dataWords by lia.
  reflexivity.
Qed.

Lemma drain_module_outcome :
  exists o,
    outcome_ok pif module W st dataWords ws o
      (drain_module cfg pif module W st dataWords).
Proof.
  rewrite drain_module_read. cbv zeta.
  pose proof (len_nonneg (partialEvent st module)) as Hn.
  pose proof (parse_events_outcome buf slot module stop (Z.to_nat n) start 0
                ltac:(lia)) as Hout.
  pose proof (parse_events_no_dump buf slot module stop (Z.to_nat n) start 0) as Hnd.
  pose proof (parse_events_quiet buf slot module stop (Z.to_nat n) start 0) as Hq.
  cbv zeta in Hout.
  destruct (parse_events (Z.to_nat n) buf slot module stop start 0) as [[p es] evp].
  cbn [fst snd] in Hout, Hnd, Hq.
  assert (Hread : forallb (fun e => negb (is_dump e))
                    (if negb (is_quiet st) then [Print "Read words"] else []) = true)
    by (destruct (is_quiet st); reflexivity).
  destruct Hout as [(H1 & H2 & H3)|(q & Hreach & Hq1 & Hes & Hcase)].
  - (* nothing to parse *)
    assert (Hn0 : n = 0) by lia. subst p es.
    replace (stop <? start) with false by (symmetry; apply Z.ltb_ge; lia).
    replace (start <? stop) with false by (symmetry; apply Z.ltb_ge; lia).
    exists Clean. cbn [outcome_ok]. eexists. split.
    + rewrite w32_small by lia. reflexivity.
    + rewrite forallb_app, Hread, Hnd. reflexivity.
  - destruct Hcase as [(Hbad & Hp)|(Hgood & Hp & Hstop)].
    + (* the loop broke at q *)
      subst p.
      replace (stop <? q) with false by (symmetry; apply Z.ltb_ge; lia).
      replace (q <? stop) with true by (symmetry; apply Z.ltb_lt; lia).
      exists (Corrupted q). cbn [outcome_ok].
      split; [exact Hreach|]. split; [exact Hq1|]. split; [exact Hbad|].
      eexists. split; [rewrite !app_assoc; reflexivity|]. split.
      * rewrite !forallb_app, Hnd. destruct (is_quiet st); reflexivity.
      * destruct (is_quiet st); cbn [negb]; auto 6 with quiet.
    + pose proof (bad_header_false _ _ Hgood) as (_ & Hrange). rewrite <- Hes in Hrange.
      pose proof (reaches_ge _ _ _ _ _ Hreach) as Hge.
      destruct (stop <? p) eqn:Eover.
      * (* the last event runs past the end *)
        apply Z.ltb_lt in Eover.
        exists (Straddled q). cbn [outcome_ok]. cbv zeta. rewrite <- Hes.
        split; [exact Hreach|]. split; [exact Hq1|]. split; [exact Hgood|].
        split; [lia|]. split; [lia|]. split; [lia|]. split; [lia|].
        replace (p - start - n) with (p - stop) by lia.
        rewrite (w32_small (p - stop)) by lia.
        replace (es - (p - stop)) with (stop - q) by lia.
        rewrite (w32_small (stop - q)) by lia.
        rewrite (w32_small (n - (stop - q))) by lia.
        rewrite (w32_small (n - (stop - q) + 2)) by lia.
        replace (p - es) with q by lia.
        eexists. split; [reflexivity|].
        rewrite !forallb_app, Hread, Hnd. destruct (debug_mode st); reflexivity.
      * apply Z.ltb_ge in Eover.
        replace (p <? stop) with false by (symmetry; apply Z.ltb_ge; lia).
        exists Clean. cbn [outcome_ok]. eexists. split.
        -- rewrite w32_small by lia. reflexivity.
        -- rewrite forallb_app, Hread, Hnd. reflexivity.
Qed.

End ModuleRead.

(** ** Segments *)

Lemma segment_length module data : len (segment module data) = len data + 2.
Proof. unfold segment, len. cbn [List.length]. lia. Qed.

Lemma load_segment buf d (module : nat) n :
  0 <= n -> buf d = n + 2 -> buf (d + 1) = Z.of_nat module ->
  load_words buf d (n + 2) = segment module (load_words buf (d + 2) n).
Proof.
  intros Hn Hd Hm. unfold segment.
  rewrite load_words_cons by lia. rewrite load_words_cons by lia.
  rewrite len_load_words by lia. rewrite Hd, Hm.
  do 2 f_equal. replace (d + 1 + 1) with (d + 2) by lia.
  replace (n + 2 - 1 - 1) with n by lia. reflexivity.
Qed.

Lemma partial_ok_set module ws st :
  len ws < 16383 -> partial_ok st -> partial_ok (set_partialEvent module ws st).
Proof.
  intros Hws Hst k. cbn [partialEvent set_partialEvent].
  destruct (Nat.eqb k module); [exact Hws|apply Hst].
Qed.

Lemma drain_module_segment cfg pif module W st d st' d' evs :
  sane cfg -> 0 <= W < 2 ^ 32 -> partial_ok st ->
  drain_module cfg pif module W st d = Next st' d' evs ->
  exists data,
    d' = d + len (segment module data) /\
    load_words (fifoData st') d (len (segment module data)) = segment module data /\
    (forall j, j < d -> fifoData st' j = fifoData st j) /\
    (W < MIN_FIFO_READ cfg -> data = []) /\
    len data <= EXTERNAL_FIFO_LENGTH cfg + 16383 /\
    partial_ok st' /\ forallb (fun e => negb (is_dump e)) evs = true.
Proof.
  intros (S1 & S2 & S3) HW Hpart Hrun.
  destruct (W <? MIN_FIFO_READ cfg) eqn:Emin.
  { unfold drain_module in Hrun. rewrite Emin in Hrun.
    inversion Hrun; subst; clear Hrun. exists []. cbn [fifoData set_fifoData].
    rewrite segment_length. change (len []) with 0.
    split; [reflexivity|]. split; [|split; [|split; [|split; [|split]]]]; auto.
    - rewrite (load_segment _ d module 0); [reflexivity|lia| |].
      + rewrite store_other by lia. apply store_same.
      + apply store_same.
    - intros j Hj. rewrite !store_other by lia. reflexivity.
    - lia. }
  apply Z.ltb_ge in Emin.
  destruct (EXTERNAL_FIFO_LENGTH cfg <=? W) eqn:Efull.
  { unfold drain_module in Hrun.
    replace (W <? MIN_FIFO_READ cfg) with false in Hrun by (symmetry; apply Z.ltb_ge; lia).
    replace (W <? 0) with false in Hrun by (symmetry; apply Z.ltb_ge; lia).
    rewrite Efull in Hrun. discriminate. }
  apply Z.leb_gt in Efull.
  destruct (ReadFIFOWords pif module W) as [ws|] eqn:Eread.
  2:{ unfold drain_module in Hrun.
      replace (W <? MIN_FIFO_READ cfg) with false in Hrun by (symmetry; apply Z.ltb_ge; lia).
      replace (W <? 0) with false in Hrun by (symmetry; apply Z.ltb_ge; lia).
      replace (EXTERNAL_FIFO_LENGTH cfg <=? W) with false in Hrun
        by (symmetry; apply Z.leb_gt; lia).
      rewrite Eread in Hrun. discriminate. }
  pose proof (Hpart module) as Hp. pose proof (len_nonneg (partialEvent st module)) as Hp0.
  assert (Hnf : 0 <= W < EXTERNAL_FIFO_LENGTH cfg) by lia.
  assert (Hfit : W + len (partialEvent st module) + 2 < 2 ^ 32) by lia.
  destruct (drain_module_outcome cfg pif module W st d ws Emin Hnf Eread Hfit)
    as (o & Ho).
  rewrite Hrun in Ho.
  set (buf := loaded st module d W ws) in *.
  set (n := W + len (partialEvent st module)) in *.
  assert (Hmod : buf (d + 1) = Z.of_nat module)
    by (apply loaded_module_word).
  assert (Hbelow : forall j, j <= d -> buf j = fifoData st j)
    by (intros j Hj; apply loaded_below; exact Hj).
  destruct o as [q|q|]; cbn [outcome_ok] in Ho.
  - destruct Ho as (_ & _ & _ & pre & Hd & _). discriminate.
  - cbv zeta in Ho.
    destruct Ho as (Hreach & Hq & Hgood & Hover & _ & Hps & Hpsn & evs' & Hd & Hnd).
    inversion Hd; subst st' d' evs'; clear Hd.
    pose proof (eventSize_range (buf q)) as Hes.
    fold buf in Hps, Hpsn, Hes. fold n in Hpsn.
    set (ps := d + 2 + n - q) in *.
    exists (load_words buf (d + 2) (n - ps)).
    rewrite segment_length, len_load_words by lia. cbn [fifoData set_fifoData].
    split; [lia|]. split; [|split; [|split; [|split; [|split]]]]; auto.
    + rewrite (load_segment _ d module (n - ps)).
      * f_equal. apply load_words_ext. intros j Hj. apply store_other. lia.
      * lia.
      * apply store_same.
      * rewrite store_other by lia. exact Hmod.
    + intros j Hj. rewrite store_other by lia. apply Hbelow. lia.
    + intros Hlt. lia.
    + lia.
    + apply partial_ok_set; [rewrite len_load_words by lia; lia|].
      apply partial_ok_set; [change (len []) with 0; lia|]. exact Hpart.
  - destruct Ho as (evs' & Hd & Hnd).
    inversion Hd; subst st' d' evs'; clear Hd.
    exists (load_words buf (d + 2) n).
    rewrite segment_length, len_load_words by lia. cbn [fifoData set_fifoData].
    split; [lia|]. split; [|split; [|split; [|split; [|split]]]]; auto.
    + rewrite (load_segment _ d module n).
      * f_equal. apply load_words_ext. intros j Hj. apply store_other. lia.
      * lia.
      * apply store_same.
      * rewrite store_other by lia. exact Hmod.
    + intros j Hj. rewrite store_other by lia. apply Hbelow. lia.
    + intros Hlt. lia.
    + lia.
    + apply partial_ok_set; [change (len []) with 0; lia|]. exact Hpart.
Qed.

Lemma drain_modules_segments cfg pif nWords :
  sane cfg -> Forall is_word nWords ->
  forall modules st d st' d' evs,
    partial_ok st ->
    drain_modules cfg pif nWords modules st d = Next st' d' evs ->
    exists segs,
      load_words (fifoData st') d (d' - d) = List.concat segs /\
      d <= d' <= d + Z.of_nat (List.length modules) * (EXTERNAL_FIFO_LENGTH cfg + 16386) /\
      (forall j, j < d -> fifoData st' j = fifoData st j) /\
      partial_ok st' /\ forallb (fun e => negb (is_dump e)) evs = true /\
      Forall2 (fun module seg =>
                 exists data, seg = segment module data /\
                   (nth module nWords 0 < MIN_FIFO_READ cfg -> data = []))
        modules segs.
Proof.
  intros Hsane Hwords. pose proof Hsane as (S1 & S2 & S3).
  induction modules as [|m rest IH]; intros st d st' d' evs Hpart Hrun.
  - cbn [drain_modules] in Hrun. inversion Hrun; subst; clear Hrun.
    exists []. rewrite Z.sub_diag. cbn [List.length]. repeat split; auto; lia.
  - cbn [drain_modules] in Hrun.
    destruct (drain_module cfg pif m (nth m nWords 0) st d) as [|st1 d1 e1] eqn:E1;
      [discriminate|].
    destruct (drain_modules cfg pif nWords rest st1 d1) as [|st2 d2 e2] eqn:E2;
      [discriminate|].
    inversion Hrun; subst st2 d2 evs; clear Hrun.
    destruct (drain_module_segment cfg pif m (nth m nWords 0) st d st1 d1 e1 Hsane
                (nth_word nWords m Hwords) Hpart E1)
      as (data & Hd1 & Hload1 & Hbelow1 & Hskip & Hlen & Hpart1 & Hq1).
    destruct (IH st1 d1 st' d' e2 Hpart1 E2)
      as (segs & Hload2 & Hd2 & Hbelow2 & Hpart2 & Hq2 & Hall).
    rewrite segment_length in Hd1, Hload1.
    pose proof (len_nonneg data) as Hdata.
    exists (segment m data :: segs). cbn [List.concat List.length].
    split; [|split; [|split; [|split; [|split]]]]; auto.
    + replace (d' - d) with ((len data + 2) + (d' - d1)) by lia.
      rewrite load_words_app by lia.
      replace (d + (len data + 2)) with d1 by lia.
      rewrite Hload2. f_equal. rewrite <- Hload1.
      apply load_words_ext. intros j Hj. apply Hbelow2. lia.
    + rewrite Nat2Z.inj_succ. nia.
    + intros j Hj. rewrite Hbelow2 by lia. apply Hbelow1. exact Hj.
    + rewrite forallb_app, Hq1, Hq2. reflexivity.
    + constructor; [|exact Hall]. exists data. auto.
Qed.

Lemma Forall2_seq_nth {A} (R : nat -> A -> Prop) (default : A) : forall N a xs,
  Forall2 R (seq a N) xs ->
  List.length xs = N /\ forall m, (m < N)%nat -> R (a + m)%nat (nth m xs default).
Proof.
  induction N as [|N IH]; intros a xs H; cbn [seq] in H.
  - inversion H; subst. split; [reflexivity|]. intros m Hm. inversion Hm.
  - inversion H as [|x y l l' Hxy Hrest]; subst.
    destruct (IH (S a) l' Hrest) as (Hlen & Hnth).
    split; [cbn [List.length]; lia|].
    intros [|m] Hm; cbn [nth].
    + rewrite Nat.add_0_r. exact Hxy.
    + replace (a + S m)%nat with (S a + m)%nat by lia. apply Hnth. lia.
Qed.

(** A pass whose loop over the modules runs to its end. *)
Lemma ReadFIFO_flushes cfg pif st st1 dataWords evs :
  acq_running st = true ->
  let nWords := snd (wait_threshold pif st POLL_TRIES 0 (repeat 0 (n_cards st))) in
  drains st nWords = true ->
  drain_modules cfg pif nWords (seq 0 (n_cards st)) (set_force_spill false st) 0
    = Next st1 dataWords evs ->
  ReadFIFO cfg pif st =
    (true, fst (flush_spill st1 dataWords), evs ++ snd (flush_spill st1 dataWords)).
Proof.
  intros Hacq nWords Hdrains Hrun. unfold ReadFIFO, ReadFIFO_cycles.
  rewrite Hacq. cbn [negb]. subst nWords.
  destruct (wait_threshold pif st POLL_TRIES 0 _) as [cycles nWords].
  cbn [snd] in *. rewrite Hdrains.
  change (n_cards (set_force_spill false st)) with (n_cards st).
  rewrite Hrun. destruct (flush_spill st1 dataWords). reflexivity.
Qed.

Lemma flush_spill_writes st dataWords :
  record_data st = true ->
  In (FileWrite (load_words (fifoData st) 0 (w32 dataWords)))
     (snd (flush_spill st dataWords)).
Proof.
  intros Hrec. unfold flush_spill. rewrite Hrec.
  destruct (write_data_single_write (fifoData st) (w32 dataWords) st) as (pre & Hpre & _).
  destruct (write_data (fifoData st) (w32 dataWords) st) as [[w st2] e2].
  cbn [snd] in *. subst e2.
  apply in_or_app. right. apply in_or_app. left. apply in_or_app. right. left. reflexivity.
Qed.

(** A segment ends where the writes of its module end, or before. *)
Lemma drain_module_extent cfg pif module W st d st' d' evs :
  sane cfg -> 0 <= W < 2 ^ 32 -> partial_ok st ->
  drain_module cfg pif module W st d = Next st' d' evs ->
  d <= d' <= extent cfg module W st d.
Proof.
  intros (S1 & S2 & S3) HW Hpart Hrun. unfold extent.
  destruct (W <? MIN_FIFO_READ cfg) eqn:Emin.
  { unfold drain_module in Hrun. rewrite Emin in Hrun.
    inversion Hrun; subst; clear Hrun. lia. }
  apply Z.ltb_ge in Emin.
  replace (W <? 0) with false by (symmetry; apply Z.ltb_ge; lia).
  destruct (EXTERNAL_FIFO_LENGTH cfg <=? W) eqn:Efull.
  { unfold drain_module in Hrun.
    replace (W <? MIN_FIFO_READ cfg) with false in Hrun by (symmetry; apply Z.ltb_ge; lia).
    replace (W <? 0) with false in Hrun by (symmetry; apply Z.ltb_ge; lia).
    rewrite Efull in Hrun. discriminate. }
  apply Z.leb_gt in Efull.
  destruct (ReadFIFOWords pif module W) as [ws|] eqn:Eread.
  2:{ unfold drain_module in Hrun.
      replace (W <? MIN_FIFO_READ cfg) with false in Hrun by (symmetry; apply Z.ltb_ge; lia).
      replace (W <? 0) with false in Hrun by (symmetry; apply Z.ltb_ge; lia).
      replace (EXTERNAL_FIFO_LENGTH cfg <=? W) with false in Hrun
        by (symmetry; apply Z.leb_gt; lia).
      rewrite Eread in Hrun. discriminate. }
  pose proof (Hpart module) as Hp. pose proof (len_nonneg (partialEvent st module)) as Hp0.
  assert (Hnf : 0 <= W < EXTERNAL_FIFO_LENGTH cfg) by lia.
  assert (Hfit : W + len (partialEvent st module) + 2 < 2 ^ 32) by lia.
  destruct (drain_module_outcome cfg pif module W st d ws Emin Hnf Eread Hfit)
    as (o & Ho).
  rewrite Hrun in Ho.
  destruct o as [q|q|]; cbn [outcome_ok] in Ho.
  - destruct Ho as (_ & _ & _ & pre & Hd & _). discriminate.
  - cbv zeta in Ho.
    destruct Ho as (Hreach & Hq & _ & _ & _ & Hps & Hpsn & evs' & Hd & _).
    inversion Hd; subst st' d' evs'; clear Hd. lia.
  - destruct Ho as (evs' & Hd & _).
    inversion Hd; subst st' d' evs'; clear Hd. lia.
Qed.

(** A loop over the modules that stays within the array ends within it. *)
Lemma within_array_end cfg pif nWords :
  sane cfg -> Forall is_word nWords ->
  forall modules st d st' d' evs,
    partial_ok st -> d <= fifoData_length cfg st ->
    within_array cfg pif nWords modules st d = true ->
    drain_modules cfg pif nWords modules st d = Next st' d' evs ->
    d <= d' <= fifoData_length cfg st.
Proof.
  intros Hsane Hwords.
  induction modules as [|m rest IH]; intros st d st' d' evs Hpart Hcap Hin Hrun.
  - cbn [drain_modules] in Hrun. inversion Hrun; subst; clear Hrun. lia.
  - cbn [drain_modules] in Hrun. cbn [within_array] in Hin.
    apply andb_true_iff in Hin. destruct Hin as (Hin1 & Hin2).
    destruct (drain_module cfg pif m (nth m nWords 0) st d) as [|st1 d1 e1] eqn:E1;
      [discriminate|].
    destruct (drain_modules cfg pif nWords rest st1 d1) as [|st2 d2 e2] eqn:E2;
      [discriminate|].
    inversion Hrun; subst st2 d2 evs; clear Hrun.
    pose proof (drain_module_extent cfg pif m (nth m nWords 0) st d st1 d1 e1 Hsane
                  (nth_word nWords m Hwords) Hpart E1) as He.
    destruct (drain_module_segment cfg pif m (nth m nWords 0) st d st1 d1 e1 Hsane
                (nth_word nWords m Hwords) Hpart E1)
      as (data & _ & _ & _ & _ & _ & Hpart1 & _).
    pose proof (drain_module_keeps cfg pif m (nth m nWords 0) st d) as Hk.
    rewrite E1 in Hk. cbn [drained_state] in Hk.
    assert (Hlen : fifoData_length cfg st1 = fifoData_length cfg st)
      by (unfold fifoData_length; rewrite (keeps_n_cards _ _ Hk); reflexivity).
    unfold in_array in Hin1. apply andb_true_iff in Hin1. destruct Hin1 as (_ & Hx).
    apply Z.leb_le in Hx.
    assert (H1 : d1 <= fifoData_length cfg st1) by lia.
    specialize (IH st1 d1 st' d' e2 Hpart1 H1 Hin2 E2). lia.
Qed.

(** C2.  Take a pass of [ReadFIFO] that gets as far as writing and
    broadcasting, the saved tails being shorter than an event can be, the
    buffer within the range of a word and every write of the loop over the
    modules within the array [fifoData].  The spill it hands on -- the
    words the file receives when data is recorded -- lies within the array
    and is the concatenation of one segment for each module, in the order
    of the modules.  The first word of the segment of module [m] is the
    number of words of that segment, itself and the module word included,
    so at least 2; the second word is [m]; and a module whose depth was
    below [MIN_FIFO_READ] contributes the two words [2, m] and nothing
    else. *)
Theorem C2_segment_length_word cfg pif st st1 dataWords evs :
  sane cfg -> partial_ok st ->
  Z.of_nat (n_cards st) * (EXTERNAL_FIFO_LENGTH cfg + 16386) < 2 ^ 32 ->
  acq_running st = true ->
  let nWords := snd (wait_threshold pif st POLL_TRIES 0 (repeat 0 (n_cards st))) in
  drains st nWords = true ->
  within_array cfg pif nWords (seq 0 (n_cards st)) (set_force_spill false st) 0 = true ->
  drain_modules cfg pif nWords (seq 0 (n_cards st)) (set_force_spill false st) 0
    = Next st1 dataWords evs ->
  let spill := load_words (fifoData st1) 0 (w32 dataWords) in
  ReadFIFO cfg pif st =
    (true, fst (flush_spill st1 dataWords), evs ++ snd (flush_spill st1 dataWords)) /\
  (record_data st1 = true -> In (FileWrite spill) (snd (flush_spill st1 dataWords))) /\
  0 <= dataWords <= fifoData_length cfg st /\ w32 dataWords = dataWords /\
  exists segs,
    spill = List.concat segs /\ List.length segs = n_cards st /\
    forall m, (m < n_cards st)%nat ->
      let seg := nth m segs [] in
      nth 0 seg 0 = len seg /\ nth 1 seg 0 = Z.of_nat m /\ 2 <= nth 0 seg 0 /\
      (nth m nWords 0 < MIN_FIFO_READ cfg -> seg = [2; Z.of_nat m]).
Proof.
  intros Hsane Hpart Hcap Hacq nWords Hdrains Hin Hrun spill.
  split; [apply ReadFIFO_flushes; assumption|].
  split; [apply flush_spill_writes|].
  assert (Hwords : Forall is_word nWords).
  { subst nWords. apply wait_threshold_words.
    apply Forall_forall. intros w Hw. apply repeat_spec in Hw. subst w.
    unfold is_word. lia. }
  destruct (drain_modules_segments cfg pif nWords Hsane Hwords
              (seq 0 (n_cards st)) (set_force_spill false st) 0 st1 dataWords evs
              Hpart Hrun)
    as (segs & Hload & Hd & _ & _ & _ & Hall).
  rewrite length_seq in Hd. rewrite Z.sub_0_r in Hload.
  assert (Hlen0 : 0 <= fifoData_length cfg (set_force_spill false st)).
  { destruct Hsane as (_ & S2 & _). unfold fifoData_length. nia. }
  pose proof (within_array_end cfg pif nWords Hsane Hwords
                (seq 0 (n_cards st)) (set_force_spill false st) 0 st1 dataWords evs
                Hpart Hlen0 Hin Hrun) as Hend.
  change (fifoData_length cfg (set_force_spill false st))
    with (fifoData_length cfg st) in Hend.
  split; [exact Hend|]. split; [apply w32_small; lia|].
  exists segs. subst spill. rewrite w32_small by lia.
  split; [exact Hload|].
  destruct (Forall2_seq_nth _ [] _ _ _ Hall) as (Hlen & Hnth).
  split; [exact Hlen|].
  intros m Hm. cbv zeta. destruct (Hnth m Hm) as (data & Hseg & Hskip).
  cbn [Nat.add] in Hseg, Hskip. rewrite Hseg.
  pose proof (len_nonneg data). rewrite segment_length. unfold segment. cbn [nth].
  split; [reflexivity|]. split; [reflexivity|]. split; [lia|].
  intros Hlt. rewrite (Hskip Hlt). reflexivity.
Qed.

Lemma drain_modules_app cfg pif nWords l1 : forall l2 st d,
  drain_modules cfg pif nWords (l1 ++ l2) st d =
  match drain_modules cfg pif nWords l1 st d with
  | Abort st' evs => Abort st' evs
  | Next st1 d1 evs1 =>
      match drain_modules cfg pif nWords l2 st1 d1 with
      | Abort st' evs => Abort st' (evs1 ++ evs)
      | Next st' d' evs => Next st' d' (evs1 ++ evs)
      end
  end.
Proof.
  induction l1 as [|m l1 IH]; intros l2 st d.
  - cbn [app drain_modules]. destruct (drain_modules cfg pif nWords l2 st d); reflexivity.
  - cbn [app drain_modules].
    destruct (drain_module cfg pif m (nth m nWords 0) st d) as [|st1 d1 e1]; [reflexivity|].
    rewrite IH.
    destruct (drain_modules cfg pif nWords l1 st1 d1) as [|st2 d2 e2]; [reflexivity|].
    destruct (drain_modules cfg pif nWords l2 st2 d2); rewrite app_assoc; reflexivity.
Qed.

(** The loop over the modules is left at the first module that aborts. *)
Lemma drain_modules_abort_at cfg pif nWords N m st st1 d1 evs1 st2 evs2 :
  (m < N)%nat ->
  drain_modules cfg pif nWords (seq 0 m) st 0 = Next st1 d1 evs1 ->
  drain_module cfg pif m (nth m nWords 0) st1 d1 = Abort st2 evs2 ->
  drain_modules cfg pif nWords (seq 0 N) st 0 = Abort st2 (evs1 ++ evs2).
Proof.
  intros Hm H1 H2.
  replace N with (m + S (N - S m))%nat by lia.
  rewrite seq_app, drain_modules_app, H1. cbn [seq Nat.add drain_modules].
  rewrite H2. reflexivity.
Qed.

Lemma bad_header_true slot w :
  Header.slotRead w <> slot \/ 15 < Header.chanRead w \/ Header.eventSize w = 0 ->
  bad_header slot w = true.
Proof.
  unfold bad_header. intros [H|[H|H]].
  - apply Z.eqb_neq in H. rewrite H. reflexivity.
  - apply Z.ltb_lt in H. rewrite H. rewrite !orb_true_r. reflexivity.
  - apply Z.eqb_eq in H. rewrite H. apply orb_true_r.
Qed.

(** C5, amended.  In a pass that drains, let the modules before [m] have
    been read without fault and let the walk over the events of module [m]
    arrive at a header, before the end of the segment, that names another
    slot than that of the module or an event of size 0 (a channel above 15
    cannot be read from the four bits of the channel field).  Then the walk
    stops at that header, short of the end of the segment, and [ReadFIFO]
    returns false with [had_error] and [stop_acq] set, writing and
    broadcasting nothing.  The first 100 words of the data of the module
    are dumped exactly when quiet mode is off; debug mode has no part in
    it. *)
Theorem C5_bad_header_aborts cfg pif st m st1 d1 evs1 ws q :
  sane cfg -> partial_ok st -> acq_running st = true ->
  let nWords := snd (wait_threshold pif st POLL_TRIES 0 (repeat 0 (n_cards st))) in
  drains st nWords = true ->
  (m < n_cards st)%nat ->
  drain_modules cfg pif nWords (seq 0 m) (set_force_spill false st) 0
    = Next st1 d1 evs1 ->
  let W := nth m nWords 0 in
  MIN_FIFO_READ cfg <= W < EXTERNAL_FIFO_LENGTH cfg ->
  ReadFIFOWords pif m W = Some ws ->
  let buf := loaded st1 m d1 W ws in
  let n := W + len (partialEvent st1 m) in
  let stop := d1 + 2 + n in
  let slot := w32 (GetSlotNumber pif m) in
  reaches buf slot stop (d1 + 2) q -> q < stop ->
  Header.slotRead (buf q) <> slot \/ 15 < Header.chanRead (buf q)
    \/ Header.eventSize (buf q) = 0 ->
  fst (fst (parse_events (Z.to_nat n) buf slot m stop (d1 + 2) 0)) = q /\
  exists st' pre,
    ReadFIFO cfg pif st =
      (false, st',
       pre ++ (if is_quiet st then [] else [HexDump (load_words buf (d1 + 2) 100)])) /\
    had_error st' = true /\ stop_acq st' = true /\
    forallb (fun e => negb (is_dump e)) pre = true /\
    quiet_events pre.
Proof.
  intros Hsane Hpart Hacq nWords Hdrains Hm Hpre W HW Hread buf n stop slot Hreach Hq Hbad.
  pose proof Hsane as (S1 & S2 & S3).
  apply bad_header_true in Hbad.
  assert (Hwords : Forall is_word nWords).
  { subst nWords. apply wait_threshold_words.
    apply Forall_forall. intros w Hw. apply repeat_spec in Hw. subst w.
    unfold is_word. lia. }
  destruct (drain_modules_segments cfg pif nWords Hsane Hwords
              (seq 0 m) (set_force_spill false st) 0 st1 d1 evs1 Hpart Hpre)
    as (segs & _ & _ & _ & Hpart1 & Hnd1 & _).
  pose proof (drain_modules_quiet cfg pif nWords (seq 0 m) (set_force_spill false st) 0)
    as Hq1. rewrite Hpre in Hq1. cbn [drained_events] in Hq1.
  pose proof (drain_modules_keeps cfg pif nWords (seq 0 m) (set_force_spill false st) 0)
    as Hk. rewrite Hpre in Hk. cbn [drained_state] in Hk.
  pose proof (keeps_is_quiet _ _ Hk) as Hquiet. cbn [is_quiet set_force_spill] in Hquiet.
  pose proof (Hpart1 m) as Hp. pose proof (len_nonneg (partialEvent st1 m)) as Hp0.
  pose proof (nth_word nWords m Hwords) as HW0. fold W in HW0. unfold is_word in HW0.
  assert (Hn : 0 <= n) by (subst n; lia).
  pose proof (parse_events_bad buf slot m stop (d1 + 2) q Hreach Hq Hbad
                (Z.to_nat n) 0 ltac:(subst stop; lia)) as Hparse.
  pose proof (reaches_ge _ _ _ _ _ Hreach) as Hge.
  split; [rewrite Hparse; reflexivity|].
  assert (Hstep : exists pre,
    drain_module cfg pif m W st1 d1 =
      Abort (set_had_error true (set_stop_acq true
               (set_partialEvent m [] (set_fifoData buf st1))))
        (pre ++ (if is_quiet st then [] else [HexDump (load_words buf (d1 + 2) 100)])) /\
    forallb (fun e => negb (is_dump e)) pre = true /\ quiet_events pre).
  { rewrite (drain_module_read cfg pif m W st1 d1 ws) by (assumption || lia).
    cbv zeta. fold buf n stop slot.
    pose proof (parse_events_no_dump buf slot m stop (Z.to_nat n) (d1 + 2) 0) as Hnd.
    pose proof (parse_events_quiet buf slot m stop (Z.to_nat n) (d1 + 2) 0) as Hqp.
    destruct (parse_events (Z.to_nat n) buf slot m stop (d1 + 2) 0) as [[p es] evp].
    cbn [fst snd] in Hparse, Hnd, Hqp. inversion Hparse; subst p es; clear Hparse.
    replace (stop <? q) with false by (symmetry; apply Z.ltb_ge; lia).
    replace (q <? stop) with true by (symmetry; apply Z.ltb_lt; lia).
    rewrite Hquiet.
    exists ((if negb (is_quiet st) then [Print "Read words"] else []) ++ evp
            ++ [Print "Parsing indicated corrupted data"]).
    split; [rewrite <- !app_assoc; destruct (is_quiet st); reflexivity|]. split.
    - rewrite !forallb_app, Hnd. destruct (is_quiet st); reflexivity.
    - destruct (is_quiet st); cbn [negb]; auto 6 with quiet. }
  destruct Hstep as (pre & Hstep & Hnd & Hqp).
  exists (set_had_error true (set_stop_acq true
            (set_partialEvent m [] (set_fifoData buf st1)))), (evs1 ++ pre).
  split; [|split; [reflexivity|split; [reflexivity|split]]].
  - rewrite <- app_assoc. apply ReadFIFO_aborted; [assumption|assumption|].
    eapply drain_modules_abort_at; eauto.
  - rewrite forallb_app, Hnd1, Hnd. reflexivity.
  - auto with quiet.
Qed.

(** A module whose FIFO is below [MIN_FIFO_READ] is not read: two words,
    and the saved tail stays where it is. *)
Lemma drain_module_skipped cfg pif module W st d :
  W < MIN_FIFO_READ cfg ->
  drain_module cfg pif module W st d =
  Next (set_fifoData (store (store (fifoData st) d 2) (d + 1) (Z.of_nat module)) st)
    (d + 2) [].
Proof.
  intros H. unfold drain_module.
  replace (W <? MIN_FIFO_READ cfg) with true by (symmetry; apply Z.ltb_lt; lia).
  reflexivity.
Qed.

(** A pass over another module leaves the saved tail of [module] alone. *)
Lemma drain_module_partial_other cfg pif k W st d module :
  k <> module ->
  partialEvent (drained_state (drain_module cfg pif k W st d)) module
  = partialEvent st module.
Proof.
  intros Hk. apply Nat.eqb_neq in Hk. rewrite Nat.eqb_sym in Hk.
  unfold drain_module.
  destruct (W <? MIN_FIFO_READ cfg); [reflexivity|].
  destruct (W <? 0); [reflexivity|].
  destruct (EXTERNAL_FIFO_LENGTH cfg <=? W); [reflexivity|].
  destruct (ReadFIFOWords pif k W); [|reflexivity].
  destruct (parse_events _ _ _ _ _ _ _) as [[p e] evs].
  destruct (_ <? p); [|destruct (p <? _)];
    cbn [drained_state partialEvent set_partialEvent set_fifoData set_had_error set_stop_acq];
    rewrite ?Hk; reflexivity.
Qed.

(** What [in_array] says of a module that is read. *)
Lemma in_array_read cfg m W st d :
  MIN_FIFO_READ cfg <= W -> 0 <= W < EXTERNAL_FIFO_LENGTH cfg ->
  in_array cfg m W st d = true ->
  extent cfg m W st d = d + 2 + len (partialEvent st m) + W /\
  0 <= d /\ d + 2 + len (partialEvent st m) + W <= fifoData_length cfg st.
Proof.
  intros Hmin Hnf H. unfold in_array in H. apply andb_true_iff in H.
  destruct H as (H0 & H1). apply Z.leb_le in H0, H1.
  assert (He : extent cfg m W st d = d + 2 + len (partialEvent st m) + W).
  { unfold extent.
    replace (W <? MIN_FIFO_READ cfg) with false by (symmetry; apply Z.ltb_ge; lia).
    replace (W <? 0) with false by (symmetry; apply Z.ltb_ge; lia).
    replace (EXTERNAL_FIFO_LENGTH cfg <=? W) with false
      by (symmetry; apply Z.leb_gt; lia).
    reflexivity. }
  rewrite He in H1. auto.
Qed.

(** When a module is read, the buffer the call leaves is the one the
    module word, the saved words and the words of the FIFO were put into,
    but for the length word of the segment. *)
Lemma drain_module_buffer cfg pif m W st d ws :
  MIN_FIFO_READ cfg <= W -> 0 <= W < EXTERNAL_FIFO_LENGTH cfg ->
  ReadFIFOWords pif m W = Some ws ->
  W + len (partialEvent st m) + 2 < 2 ^ 32 ->
  forall j, j <> d ->
    fifoData (drained_state (drain_module cfg pif m W st d)) j
    = loaded st m d W ws j.
Proof.
  intros Hmin Hnf Hread Hfit j Hj.
  destruct (drain_module_outcome cfg pif m W st d ws Hmin Hnf Hread Hfit) as (o & Ho).
  destruct o as [q|q|]; cbn [outcome_ok] in Ho.
  - destruct Ho as (_ & _ & _ & pre & -> & _). reflexivity.
  - cbv zeta in Ho. destruct Ho as (_ & _ & _ & _ & _ & _ & _ & evs & -> & _).
    cbn [drained_state fifoData set_fifoData]. apply store_other. exact Hj.
  - destruct Ho as (evs & -> & _).
    cbn [drained_state fifoData set_fifoData]. apply store_other. exact Hj.
Qed.

(** C1, amended.  Let module [m] be read (its depth [W] is at least
    [MIN_FIFO_READ] and below the FIFO length, and the read succeeds),
    what is written for it lying within the array [fifoData], and let the
    walk over its events end at [p] beyond the end of the segment.  Then
    the [partialSize = eventSize - missingWords] words of the last event
    that are there -- the last [partialSize] of the words that were saved
    before and read now, as they stand in the buffer the call leaves,
    which but for the length word is the buffer the walk went over --
    are saved for module [m], the saved words of the other modules are
    left alone, and the segment is shortened by [partialSize]: its length
    word is [n - partialSize + 2] and the next segment starts right after.
    At the next pass in which module [m] is read, the buffer the call
    leaves holds the module word, then the saved words, then the words
    read from the FIFO, and what is saved for [m] afterwards is either
    nothing or a tail of that new segment.  At a pass in which the depth
    of module [m] is below [MIN_FIFO_READ] the module contributes [2, m]
    and the saved words stay saved. *)
Theorem C1_straddle_saved_and_replayed cfg pif m W st d ws :
  MIN_FIFO_READ cfg <= W -> 0 <= W < EXTERNAL_FIFO_LENGTH cfg ->
  ReadFIFOWords pif m W = Some ws ->
  W + len (partialEvent st m) + 2 < 2 ^ 32 ->
  in_array cfg m W st d = true ->
  let buf := loaded st m d W ws in
  let n := W + len (partialEvent st m) in
  let stop := d + 2 + n in
  let slot := w32 (GetSlotNumber pif m) in
  let parsed := fst (parse_events (Z.to_nat n) buf slot m stop (d + 2) 0) in
  let p := fst parsed in
  let eventSize := snd parsed in
  stop < p ->
  let missingWords := p - stop in
  let partialSize := eventSize - missingWords in
  exists st' evs,
    drain_module cfg pif m W st d = Next st' (d + 2 + (n - partialSize)) evs /\
    0 < missingWords < eventSize /\ 0 < partialSize <= n /\
    p - eventSize + partialSize = stop /\ stop <= fifoData_length cfg st' /\
    partialEvent st' m = load_words buf (p - eventSize) partialSize /\
    partialEvent st' m = load_words (fifoData st') (p - eventSize) partialSize /\
    partialEvent st' m
      = skipn (Z.to_nat (n - partialSize)) (partialEvent st m ++ fifo_words W ws) /\
    fifoData st' d = n - partialSize + 2 /\
    (forall j, j <> d -> fifoData st' j = buf j) /\
    (forall k, k <> m -> partialEvent st' k = partialEvent st k) /\
    (forall pif2 W2 st2 d2 ws2,
       partialEvent st2 m = partialEvent st' m ->
       MIN_FIFO_READ cfg <= W2 -> 0 <= W2 < EXTERNAL_FIFO_LENGTH cfg ->
       ReadFIFOWords pif2 m W2 = Some ws2 ->
       W2 + partialSize + 2 < 2 ^ 32 ->
       in_array cfg m W2 st2 d2 = true ->
       let st3 := drained_state (drain_module cfg pif2 m W2 st2 d2) in
       fifoData st3 (d2 + 1) = Z.of_nat m /\
       load_words (fifoData st3) (d2 + 2) partialSize = partialEvent st' m /\
       load_words (fifoData st3) (d2 + 2 + partialSize) W2 = fifo_words W2 ws2 /\
       d2 + 2 + partialSize + W2 <= fifoData_length cfg st3 /\
       (partialEvent st3 m = [] \/
        exists q2, d2 + 2 <= q2 < d2 + 2 + W2 + partialSize /\
          partialEvent st3 m
          = load_words (fifoData st3) q2 (d2 + 2 + W2 + partialSize - q2))) /\
    (forall pif2 W2 st2 d2,
       W2 < MIN_FIFO_READ cfg -> in_array cfg m W2 st2 d2 = true ->
       let st3 := drained_state (drain_module cfg pif2 m W2 st2 d2) in
       partialEvent st3 m = partialEvent st2 m /\
       load_words (fifoData st3) d2 2 = [2; Z.of_nat m] /\
       d2 + 2 <= fifoData_length cfg st3).
Proof.
  intros Hmin Hnf Hread Hfit Hin buf n stop slot parsed p eventSize Hover
    missingWords partialSize.
  pose proof (len_nonneg (partialEvent st m)) as Hp0.
  assert (Hn : 0 <= n) by (subst n; lia).
  destruct (in_array_read cfg m W st d Hmin Hnf Hin) as (_ & Hd0 & Hcap).
  replace (d + 2 + len (partialEvent st m) + W) with stop in Hcap by (subst stop n; lia).
  pose proof (parse_events_outcome buf slot m stop (Z.to_nat n) (d + 2) 0
                ltac:(subst stop; lia)) as Hout.
  cbv zeta in Hout. fold parsed in Hout. fold p eventSize in Hout.
  destruct Hout as [(H1 & H2 & H3)|(q & Hreach & Hq & Hes & Hcase)];
    [subst stop; lia|].
  destruct Hcase as [(Hbad & Hp)|(Hgood & Hp & Hstop)]; [lia|].
  pose proof (bad_header_false _ _ Hgood) as (_ & Hrange). rewrite <- Hes in Hrange.
  pose proof (reaches_ge _ _ _ _ _ Hreach) as Hge.
  assert (Hps : partialSize = stop - q) by (subst partialSize missingWords; lia).
  assert (Hstep :
    drain_module cfg pif m W st d =
    Next (set_fifoData (store buf d (n - partialSize + 2))
            (set_partialEvent m (load_words buf (p - eventSize) partialSize)
               (set_partialEvent m [] (set_fifoData buf st))))
      (d + 2 + (n - partialSize))
      ((if negb (is_quiet st) then [Print "Read words"] else [])
       ++ snd (parse_events (Z.to_nat n) buf slot m stop (d + 2) 0)
       ++ (if debug_mode st then [Print "Partial event"] else []))).
  { rewrite (drain_module_read cfg pif m W st d ws) by assumption.
    cbv zeta. fold buf n stop slot.
    subst partialSize missingWords p eventSize parsed.
    destruct (parse_events (Z.to_nat n) buf slot m stop (d + 2) 0) as [[p es] evp].
    cbn [fst snd] in *.
    replace (stop <? p) with true by (symmetry; apply Z.ltb_lt; lia).
    replace (p - (d + 2) - n) with (p - stop) by (subst stop; lia).
    rewrite (w32_small (p - stop)) by lia.
    rewrite (w32_small (es - (p - stop))) by (subst stop; lia).
    rewrite (w32_small (n - (es - (p - stop)))) by (subst stop; lia).
    rewrite (w32_small (n - (es - (p - stop)) + 2)) by (subst stop; lia).
    reflexivity. }
  assert (Hall : load_words buf (d + 2) n = partialEvent st m ++ fifo_words W ws).
  { subst n.
    replace (W + len (partialEvent st m)) with (len (partialEvent st m) + W) by lia.
    rewrite load_words_app by lia.
    subst buf. rewrite loaded_partial, loaded_fifo by lia. reflexivity. }
  eexists; eexists. split; [exact Hstep|].
  cbn [partialEvent set_partialEvent set_fifoData fifoData n_cards].
  split; [subst missingWords; lia|]. split; [subst stop; lia|].
  split; [lia|]. split; [exact Hcap|].
  split; [rewrite Nat.eqb_refl; reflexivity|].
  split.
  { rewrite Nat.eqb_refl. apply load_words_ext. intros j Hj.
    symmetry. apply store_other. lia. }
  split.
  { rewrite Nat.eqb_refl. rewrite <- Hall.
    replace n with ((n - partialSize) + partialSize) at 2 by lia.
    rewrite load_words_app by (subst stop; lia).
    rewrite skipn_app.
    replace (Z.to_nat (n - partialSize))
      with (List.length (load_words buf (d + 2) (n - partialSize))).
    2:{ pose proof (len_load_words buf (d + 2) (n - partialSize)
                      ltac:(subst stop; lia)) as Hl.
        unfold len in Hl. lia. }
    rewrite skipn_all, Nat.sub_diag. cbn [skipn app].
    f_equal. subst stop. lia. }
  split; [apply store_same|].
  split; [intros j Hj; apply store_other; exact Hj|]. split.
  { intros k Hk. apply Nat.eqb_neq in Hk. rewrite Hk. reflexivity. }
  split.
  - intros pif2 W2 st2 d2 ws2 Hsame Hmin2 Hnf2 Hread2 Hfit2 Hin2.
    set (buf2 := loaded st2 m d2 W2 ws2).
    set (st3 := drained_state (drain_module cfg pif2 m W2 st2 d2)).
    rewrite Nat.eqb_refl in Hsame.
    assert (Hlen2 : len (partialEvent st2 m) = partialSize)
      by (rewrite Hsame; apply len_load_words; subst stop; lia).
    assert (Hfit2' : W2 + len (partialEvent st2 m) + 2 < 2 ^ 32) by lia.
    destruct (in_array_read cfg m W2 st2 d2 Hmin2 Hnf2 Hin2) as (_ & Hd2 & Hcap2).
    assert (Hbuf : forall j, j <> d2 -> fifoData st3 j = buf2 j)
      by (intros j Hj; apply drain_module_buffer; assumption).
    pose proof (drain_module_keeps cfg pif2 m W2 st2 d2) as Hk3. fold st3 in Hk3.
    split; [rewrite Hbuf by lia; apply loaded_module_word|].
    split; [|split; [|split]].
    + rewrite (load_words_ext _ buf2) by (intros j Hj; apply Hbuf; lia).
      rewrite Nat.eqb_refl. rewrite <- Hsame, <- Hlen2. apply loaded_partial.
    + rewrite (load_words_ext _ buf2) by (intros j Hj; apply Hbuf; lia).
      rewrite <- Hlen2. apply loaded_fifo. lia.
    + unfold fifoData_length in *. rewrite (keeps_n_cards _ _ Hk3). lia.
    + destruct (drain_module_outcome cfg pif2 m W2 st2 d2 ws2 Hmin2 Hnf2 Hread2 Hfit2')
        as (o & Ho).
      subst st3. destruct o as [q2|q2|]; cbn [outcome_ok] in Ho.
      * destruct Ho as (_ & _ & _ & pre & -> & _). left.
        cbn [drained_state partialEvent set_partialEvent set_had_error set_stop_acq].
        rewrite Nat.eqb_refl. reflexivity.
      * cbv zeta in Ho. destruct Ho as (Hr2 & Hq2 & _ & _ & _ & _ & _ & evs2 & Heq & _).
        right. exists q2. apply reaches_ge in Hr2. rewrite Hlen2 in *.
        split; [lia|].
        rewrite (load_words_ext _ buf2) by (intros j Hj; apply Hbuf; lia).
        rewrite Heq.
        cbn [drained_state partialEvent set_partialEvent set_fifoData].
        rewrite Nat.eqb_refl. f_equal. lia.
      * destruct Ho as (evs2 & -> & _). left.
        cbn [drained_state partialEvent set_partialEvent set_fifoData].
        rewrite Nat.eqb_refl. reflexivity.
  - intros pif2 W2 st2 d2 Hskip Hin2.
    assert (Hcap2 : d2 + 2 <= fifoData_length cfg st2).
    { unfold in_array, extent in Hin2.
      replace (W2 <? MIN_FIFO_READ cfg) with true in Hin2
        by (symmetry; apply Z.ltb_lt; lia).
      apply andb_true_iff in Hin2. destruct Hin2 as (_ & Hx).
      apply Z.leb_le in Hx. exact Hx. }
    rewrite drain_module_skipped by exact Hskip.
    cbn [drained_state partialEvent set_fifoData fifoData].
    split; [reflexivity|]. split; [|exact Hcap2].
    rewrite load_words_cons by lia. rewrite load_words_cons by lia.
    rewrite store_other by lia. rewrite !store_same. reflexivity.
Qed.

Lemma close_output_file_buffers c st :
  same_buffers st (snd (fst (close_output_file c st))).
Proof.
  unfold close_output_file, same_buffers. simpl.
  destruct (IsOpen (output_file st)); [destruct c|]; simpl; auto.
Qed.

Lemma open_output_file_buffers c st :
  same_buffers st (snd (fst (open_output_file c st))).
Proof.
  unfold open_output_file, same_buffers.
  destruct (IsOpen (output_file st)); simpl; auto.
  destruct (OpenNewFile _ _ _) as [[] f]; simpl; auto.
Qed.

Lemma write_data_buffers data nWords st :
  same_buffers st (snd (fst (write_data data nWords st))).
Proof.
  unfold write_data.
  pose proof (open_output_file_buffers false st) as H0.
  destruct (negb (IsOpen (output_file st)));
    [destruct (open_output_file false st) as [[b0 s0] e0]; cbn [fst snd] in H0
    |set (s0 := st); assert (H0' : same_buffers st s0) by (split; reflexivity);
     clear H0; rename H0' into H0];
    (destruct (MAX_FILE_SIZE <? _);
     [pose proof (close_output_file_buffers true s0) as H1;
      destruct (close_output_file true s0) as [[b1 s1] e1];
      pose proof (open_output_file_buffers true s1) as H2;
      destruct (open_output_file true s1) as [[b2 s2] e2]; cbn [fst snd] in H1, H2|]);
    destruct (Write _ _) as [w f]; cbn [fst snd];
    unfold same_buffers in *; cbn [fifoData partialEvent set_output_file];
    intuition congruence.
Qed.

Lemma datagrams_quiet evs : quiet_events evs -> datagrams evs = [].
Proof.
  induction evs as [|e evs IH]; intros H; [reflexivity|].
  assert (He : is_output e = false) by (apply H; left; reflexivity).
  unfold datagrams in *. cbn [flat_map]. rewrite IH.
  - destruct e; try reflexivity. discriminate.
  - intros x Hx. apply H. right. exact Hx.
Qed.

(** What the file gets and what the subscriber gets in shared-memory mode
    are the same bytes. *)
Lemma flush_spill_same_bytes st dataWords :
  record_data st = true -> shm_mode st = true -> 4 * w32 dataWords < 2 ^ 32 ->
  let evs := snd (flush_spill st dataWords) in
  let spill := load_words (fifoData st) 0 (w32 dataWords) in
  In (FileWrite spill) evs /\
  List.concat (map payload (datagrams evs)) = bytes_of_words spill.
Proof.
  intros Hrec Hshm H32. cbv zeta. split; [apply flush_spill_writes; exact Hrec|].
  unfold flush_spill. rewrite Hrec.
  destruct (write_data_single_write (fifoData st) (w32 dataWords) st) as (pre & Hpre & Hq).
  pose proof (write_data_buffers (fifoData st) (w32 dataWords) st) as (Hb & _).
  pose proof (write_data_keeps (fifoData st) (w32 dataWords) st) as Hk.
  destruct (write_data (fifoData st) (w32 dataWords) st) as [[w st2] e2].
  cbn [fst snd] in *. subst e2.
  pose proof (keeps_shm_mode _ _ Hk) as Hshm2. rewrite Hshm in Hshm2.
  pose proof (w32_is_word dataWords) as Hw. unfold is_word in Hw.
  pose proof (broadcast_chunks_spec (fifoData st2) (w32 dataWords)
                (net_chunks (w32 dataWords)) ltac:(lia) H32
                (Z.to_nat (w32 dataWords)) 0 ltac:(lia) ltac:(lia) ltac:(lia)) as H.
  cbv zeta in H. destruct H as (_ & _ & _ & H4).
  change (0 + 1) with 1 in H4. change (10000 * 0) with 0 in H4.
  rewrite !Z.sub_0_r in H4.
  rewrite !datagrams_app.
  rewrite (datagrams_quiet (if negb (is_quiet st) then _ else _))
    by (destruct (is_quiet st); cbn [negb]; auto with quiet).
  rewrite (datagrams_quiet pre) by exact Hq.
  unfold broadcast_data. rewrite Hshm2, datagrams_app.
  rewrite (datagrams_quiet (if debug_mode st2 then _ else _))
    by (destruct (debug_mode st2); auto with quiet).
  cbn [datagrams flat_map app]. rewrite app_nil_r.
  fold (datagrams (broadcast_chunks (Z.to_nat (w32 dataWords)) (fifoData st2)
                     (w32 dataWords) (net_chunks (w32 dataWords)) 1 0)).
  rewrite H4, Hb. reflexivity.
Qed.

(** ** The saved tails stay short *)

Lemma partial_ok_same st st' :
  partialEvent st' = partialEvent st -> partial_ok st -> partial_ok st'.
Proof. intros H Hst k. rewrite H. apply Hst. Qed.

Lemma drain_module_partial_ok cfg pif module W st d :
  sane cfg -> 0 <= W < 2 ^ 32 -> partial_ok st ->
  partial_ok (drained_state (drain_module cfg pif module W st d)).
Proof.
  intros Hsane HW Hpart.
  destruct (drain_module cfg pif module W st d) as [st' evs|st' d' evs] eqn:E.
  - cbn [drained_state]. unfold drain_module in E.
    destruct (W <? MIN_FIFO_READ cfg); [discriminate|].
    destruct (W <? 0); [discriminate|].
    destruct (EXTERNAL_FIFO_LENGTH cfg <=? W).
    { inversion E; subst. exact Hpart. }
    destruct (ReadFIFOWords pif module W).
    2:{ inversion E; subst. exact Hpart. }
    destruct (parse_events _ _ _ _ _ _ _) as [[p e] ev].
    destruct (_ <? p); [discriminate|].
    destruct (p <? _); [|discriminate].
    inversion E; subst.
    apply (partial_ok_set module [] _ ltac:(change (len []) with 0; lia) Hpart).
  - destruct (drain_module_segment cfg pif module W st d st' d' evs Hsane HW Hpart E)
      as (data & _ & _ & _ & _ & _ & H & _). exact H.
Qed.

Lemma drain_modules_partial_ok cfg pif nWords :
  sane cfg -> Forall is_word nWords ->
  forall modules st d, partial_ok st ->
    partial_ok (drained_state (drain_modules cfg pif nWords modules st d)).
Proof.
  intros Hsane Hwords. induction modules as [|m rest IH]; intros st d Hpart; [exact Hpart|].
  cbn [drain_modules].
  pose proof (drain_module_partial_ok cfg pif m (nth m nWords 0) st d Hsane
                (nth_word nWords m Hwords) Hpart) as H1.
  destruct (drain_module cfg pif m (nth m nWords 0) st d) as [|st1 d1 e1]; [exact H1|].
  cbn [drained_state] in H1. specialize (IH st1 d1 H1).
  destruct (drain_modules cfg pif nWords rest st1 d1); exact IH.
Qed.

(** Every pass keeps the saved tails short; the constructor starts with
    empty ones. *)
Lemma ReadFIFO_partial_ok cfg pif st :
  sane cfg -> partial_ok st -> partial_ok (snd (fst (ReadFIFO cfg pif st))).
Proof.
  intros Hsane Hpart. rewrite ReadFIFO_unfold. cbn [fst snd].
  unfold ReadFIFO_cycles.
  destruct (negb (acq_running st)); [exact Hpart|].
  pose proof (wait_threshold_words pif st POLL_TRIES 0 (repeat 0 (n_cards st))) as Hw.
  destruct (wait_threshold pif st POLL_TRIES 0 _) as [cycles nWords]. cbn [snd] in Hw.
  assert (Hwords : Forall is_word nWords).
  { apply Hw. apply Forall_forall. intros w Hin. apply repeat_spec in Hin. subst w.
    unfold is_word. lia. }
  destruct (drains st nWords); [|exact Hpart].
  pose proof (drain_modules_partial_ok cfg pif nWords Hsane Hwords
                (seq 0 (n_cards (set_force_spill false st)))
                (set_force_spill false st) 0 Hpart) as H.
  destruct (drain_modules _ _ _ _ _ _) as [st1 e1|st1 d1 e1]; cbn [drained_state] in H;
    [exact H|].
  unfold flush_spill. destruct (record_data st1); [|exact H].
  pose proof (write_data_buffers (fifoData st1) (w32 d1) st1) as (_ & Hb).
  destruct (write_data _ _ _) as [[w st2] e2]. cbn [fst snd] in *.
  eapply partial_ok_same; eauto.
Qed.

Lemma fresh_partial_ok n disk : partial_ok (fresh n disk).
Proof. intros k. cbn. lia. Qed.

Lemma pixie16_sane : sane pixie16.
Proof. unfold sane, pixie16. cbn. lia. Qed.

(** C7.  In shared-memory mode a spill of [nWords] words leaves as exactly
    [ceil (nWords / 10000)] datagrams.  Datagram [i] (counted from 1) starts
    with the two words [i] and the number of datagrams; its transport length
    is the number of bytes it carries, 40008 (8 of header and 40000 of
    payload) for every datagram but the last and [(remaining + 2) * 4] for
    the last; the payloads in order are the bytes of the spill; and in a
    pass that records, the words handed to the output file in its one
    [Write] are the words whose bytes the datagrams carry. *)
Theorem C7_shm_datagrams data nWords st :
  shm_mode st = true -> 0 <= nWords -> 4 * nWords < 2 ^ 32 ->
  let ds := datagrams (broadcast_data data nWords st) in
  let total := (nWords + 9999) / 10000 in
  Z.of_nat (List.length ds) = total /\
  (forall i d, nth_error ds i = Some d ->
     firstn 8 (fst d) = le32 (Z.of_nat i + 1) ++ le32 total /\
     len (fst d) = snd d /\
     snd d = (if Z.of_nat i + 1 <? total then 40008
              else (nWords - 10000 * (total - 1) + 2) * 4) /\
     (Z.of_nat i + 1 < total -> len (payload d) = 40000)) /\
  List.concat (map payload ds) = bytes_of_words (load_words data 0 nWords) /\
  (forall e, In e (broadcast_data data nWords st) -> e <> SendPacket) /\
  (forall st0 dataWords,
     record_data st0 = true -> shm_mode st0 = true ->
     4 * w32 dataWords < 2 ^ 32 ->
     let evs := snd (flush_spill st0 dataWords) in
     exists spill,
       In (FileWrite spill) evs /\
       List.concat (map payload (datagrams evs)) = bytes_of_words spill).
Proof.
  intros Hshm H0 H32 ds total.
  pose proof (broadcast_chunks_spec data nWords (net_chunks nWords) H0 H32
                (Z.to_nat nWords) 0 ltac:(lia) ltac:(lia) ltac:(lia)) as H.
  cbv zeta in H. rewrite net_chunks_ceil in H by lia.
  change (0 + 1) with 1 in H. change (10000 * 0) with 0 in H.
  rewrite !Z.sub_0_r in H. fold total in H.
  assert (Hds : ds = datagrams (broadcast_chunks (Z.to_nat nWords) data nWords total 1 0)).
  { subst ds. unfold broadcast_data. rewrite Hshm, datagrams_app.
    rewrite net_chunks_ceil by lia. fold total.
    destruct (debug_mode st); reflexivity. }
  rewrite <- Hds in H. destruct H as (H1 & H2 & H3 & H4).
  pose proof (ceil_bounds nWords H0) as Hc. fold total in Hc.
  split; [exact H2|]. split; [|split; [exact H4|split]].
  - intros i d Hd.
    assert (Hi : Z.of_nat i < total).
    { rewrite <- H2. apply inj_lt. apply nth_error_Some. congruence. }
    destruct (H3 i d Hd) as (C1 & C2 & C3 & C4). cbv zeta in *.
    rewrite Z.add_0_l in *.
    split; [exact C1|]. split; [exact C3|]. split.
    + rewrite C4. destruct (Z.of_nat i + 1 <? total) eqn:E.
      * apply Z.ltb_lt in E.
        replace (10000 <? nWords - 10000 * Z.of_nat i) with true
          by (symmetry; apply Z.ltb_lt; lia). reflexivity.
      * apply Z.ltb_ge in E. assert (Z.of_nat i = total - 1) as -> by lia.
        replace (10000 <? nWords - 10000 * (total - 1)) with false
          by (symmetry; apply Z.ltb_ge; lia). reflexivity.
    + intros Hlt. rewrite C2, bytes_of_words_length, len_load_words by lia. lia.
  - intros e He. unfold broadcast_data in He. rewrite Hshm in He.
    apply in_app_or in He. destruct He as [He|He].
    + destruct (debug_mode st); [|destruct He].
      destruct He as [<-|[]]. discriminate.
    + rewrite net_chunks_ceil in He by lia. fold total in He.
      rewrite H1 in He. apply in_map_iff in He. destruct He as (d & <- & _). discriminate.
  - intros st0 dataWords Hrec Hshm0 Hfit. cbv zeta.
    destruct (flush_spill_same_bytes st0 dataWords Hrec Hshm0 Hfit) as (Hin & Hsame).
    eexists. split; [exact Hin|exact Hsame].
Qed.

(** A spill of 25000 words leaves as three datagrams. *)
Lemma C7_shm_witness :
  let st := set_shm_mode true (acquiring 1) in
  let ds := datagrams (broadcast_data counting 25000 st) in
  shm_mode st = true /\
  Z.of_nat (List.length ds) = 3 /\
  List.concat (map payload ds) = bytes_of_words (load_words counting 0 25000).
Proof.
  intros st ds. split; [reflexivity|].
  destruct (C7_shm_datagrams counting 25000 st eq_refl ltac:(lia) ltac:(lia))
    as (H1 & _ & H3 & _).
  split; [exact H1|exact H3].
Defined.

(** C1, as stated: the pass after a straddle emits [2, 0] for module 0 and
    keeps the saved words. *)
Lemma C1_saved_words_wait_for_a_read :
  partialEvent (tick_state first_pass) 0%nat = event 2 60 50 /\
  force_spill after_spill = true /\
  In (FileWrite [2; 0; 2; 1]) (tick_events second_pass) /\
  partialEvent (tick_state second_pass) 0%nat = event 2 60 50.
Proof.
  split; [vm_compute; reflexivity|]. split; [vm_compute; reflexivity|].
  split; [|vm_compute; reflexivity].
  vm_compute. right. right. left. reflexivity.
Qed.

(** Module 0 of two reports 250 words, the last event of 60 words having
    50 of them there: the 50 words are saved and the segment has 202. *)
Lemma C1_straddle_witness :
  let st := acquiring 2 in
  exists st' evs,
    drain_module pixie16 straddle_crate 0 250 st 0 = Next st' 202 evs /\
    partialEvent st' 0%nat = event 2 60 50 /\
    fifoData st' 0 = 202.
Proof.
  intros st.
  destruct (C1_straddle_saved_and_replayed pixie16 straddle_crate 0%nat 250 st 0
              straddle_words)
    as (st' & evs & H1 & _ & _ & _ & _ & H5 & _ & _ & H6 & _).
  - vm_compute. discriminate.
  - vm_compute. split; [discriminate|reflexivity].
  - reflexivity.
  - vm_compute. reflexivity.
  - vm_compute. reflexivity.
  - vm_compute. reflexivity.
  - exists st', evs. split; [|split].
    + rewrite H1. f_equal.
    + rewrite H5. vm_compute. reflexivity.
    + rewrite H6. vm_compute. reflexivity.
Defined.

(** The same crate: the spill is two segments, the second being [2, 1]. *)
Lemma C2_segment_witness :
  let st := acquiring 2 in
  let nWords := snd (wait_threshold straddle_crate st POLL_TRIES 0 (repeat 0 2%nat)) in
  let d := drain_modules pixie16 straddle_crate nWords (seq 0 2) (set_force_spill false st) 0 in
  exists segs,
    load_words (fifoData (drained_state d)) 0 204 = List.concat segs /\
    List.length segs = 2%nat /\
    nth 0 (nth 0 segs []) 0 = len (nth 0 segs []) /\
    nth 1 segs [] = [2; 1].
Proof.
  intros st nWords d.
  destruct (C2_segment_length_word pixie16 straddle_crate st (drained_state d) 204
              (drained_events d))
    as (_ & _ & _ & _ & segs & H1 & H2 & H3).
  - exact pixie16_sane.
  - apply fresh_partial_ok.
  - vm_compute. reflexivity.
  - reflexivity.
  - vm_compute. reflexivity.
  - vm_compute. reflexivity.
  - vm_compute. reflexivity.
  - exists segs. split; [exact H1|]. split; [exact H2|].
    split; [apply (H3 0%nat); cbn; lia|].
    apply (H3 1%nat); [cbn; lia|]. vm_compute. reflexivity.
Defined.

(** C5, as stated: in debug mode with quiet mode on, nothing is dumped; and
    without debug mode the dump is there. *)
Lemma C5_dump_follows_quiet_not_debug :
  let loud := set_debug_mode true (set_is_quiet true (acquiring 1)) in
  let plain := acquiring 1 in
  debug_mode loud = true /\
  fst (fst (ReadFIFO pixie16 wrong_slot_crate loud)) = false /\
  forallb (fun e => negb (is_dump e)) (snd (ReadFIFO pixie16 wrong_slot_crate loud)) = true /\
  debug_mode plain = false /\
  existsb is_dump (snd (ReadFIFO pixie16 wrong_slot_crate plain)) = true.
Proof. repeat split; vm_compute; reflexivity. Qed.

(** The first event names slot 5 where the module sits in slot 2. *)
Lemma C5_bad_header_witness :
  let st := acquiring 1 in
  exists st' evs,
    ReadFIFO pixie16 wrong_slot_crate st = (false, st', evs) /\
    had_error st' = true /\ stop_acq st' = true /\ existsb is_dump evs = true.
Proof.
  intros st.
  destruct (C5_bad_header_aborts pixie16 wrong_slot_crate st 0%nat
              (set_force_spill false st) 0 [] (event 5 100 100) 2)
    as (_ & st' & pre & H1 & H2 & H3 & _).
  - exact pixie16_sane.
  - apply fresh_partial_ok.
  - reflexivity.
  - vm_compute. reflexivity.
  - cbn. lia.
  - reflexivity.
  - vm_compute. split; discriminate || reflexivity.
  - reflexivity.
  - apply reaches_here.
  - vm_compute. reflexivity.
  - left. vm_compute. discriminate.
  - exists st'. eexists. split; [exact H1|]. split; [exact H2|]. split; [exact H3|].
    rewrite existsb_app. cbn [is_quiet]. apply orb_true_r.
Defined.

(** Module 1 of two reports a full FIFO. *)
Lemma C6_full_fifo_witness :
  let st := acquiring 2 in
  exists st' evs,
    ReadFIFO pixie16 full_crate st = (false, st', evs) /\
    had_error st' = true /\ stop_acq st' = true /\ quiet_events evs.
Proof.
  intros st.
  apply (C6_full_fifo_aborts pixie16 full_crate st 1%nat).
  - cbn. lia.
  - reflexivity.
  - left. vm_compute. reflexivity.
  - cbn. lia.
  - vm_compute. discriminate.
Defined.

(** [kill_all] with nothing running: run control is left at the first tick. *)
Lemma C8_kill_all_witness :
  let st := set_kill_all true (fresh 1 good_disk) in
  kill_all st = true /\
  run_control pixie16 (fun _ => empty_crate) 1 0 st =
    Some (set_run_ctrl_exit true st, [Print "Run Control exited"]).
Proof.
  intros st. split; [reflexivity|].
  apply (C8_kill_all_supersedes pixie16 empty_crate st eq_refl). reflexivity.
Defined.

(** * Further properties *)

(** ** What a pass of [ReadFIFO] changes *)

Lemma drain_module_next_alarms cfg pif module W st d st' d' evs :
  drain_module cfg pif module W st d = Next st' d' evs ->
  same_alarms st st' /\ same_files st st' /\ force_spill st' = force_spill st.
Proof.
  unfold drain_module, same_alarms, same_files.
  destruct (W <? MIN_FIFO_READ cfg); [intros H; inversion H; subst; simpl; auto 10|].
  destruct (W <? 0); [intros H; inversion H; subst; simpl; auto 10|].
  destruct (EXTERNAL_FIFO_LENGTH cfg <=? W); [discriminate|].
  destruct (ReadFIFOWords pif module W); [|discriminate].
  destruct (parse_events _ _ _ _ _ _ _) as [[p e] ev].
  destruct (_ <? p); [intros H; inversion H; subst; simpl; auto 10|].
  destruct (p <? _); [discriminate|].
  intros H; inversion H; subst; simpl; auto 10.
Qed.

Lemma drain_module_files cfg pif module W st d :
  let st' := drained_state (drain_module cfg pif module W st d) in
  same_files st st' /\ force_spill st' = force_spill st.
Proof.
  unfold drain_module, same_files.
  destruct (W <? MIN_FIFO_READ cfg); [simpl; auto 10|].
  destruct (W <? 0); [simpl; auto 10|].
  destruct (EXTERNAL_FIFO_LENGTH cfg <=? W); [simpl; auto 10|].
  destruct (ReadFIFOWords pif module W); [|simpl; auto 10].
  destruct (parse_events _ _ _ _ _ _ _) as [[p e] ev].
  destruct (_ <? p); [simpl; auto 10|].
  destruct (p <? _); simpl; auto 10.
Qed.

Lemma drain_modules_files cfg pif nWords modules : forall st d,
  let st' := drained_state (drain_modules cfg pif nWords modules st d) in
  same_files st st' /\ force_spill st' = force_spill st.
Proof.
  induction modules as [|m rest IH]; intros st d; simpl.
  - unfold same_files. auto 10.
  - pose proof (drain_module_files cfg pif m (nth m nWords 0) st d) as H.
    destruct (drain_module _ _ _ _ _ _) as [st1 e1|st1 d1 e1]; simpl in *; auto.
    specialize (IH st1 d1).
    destruct (drain_modules _ _ _ _ _ _); simpl in *;
      unfold same_files in *; intuition congruence.
Qed.

Lemma drain_modules_next_alarms cfg pif nWords modules : forall st d st' d' evs,
  drain_modules cfg pif nWords modules st d = Next st' d' evs ->
  same_alarms st st'.
Proof.
  induction modules as [|m rest IH]; intros st d st' d' evs; simpl.
  - intros H; inversion H; subst. split; reflexivity.
  - destruct (drain_module _ _ _ _ _ _) as [st1 e1|st1 d1 e1] eqn:E; [discriminate|].
    destruct (drain_modules _ _ _ _ _ _) as [st2 e2|st2 d2 e2] eqn:E2; [discriminate|].
    intros H; inversion H; subst.
    apply drain_module_next_alarms in E. destruct E as (Ha & _).
    apply IH in E2. unfold same_alarms in *. intuition congruence.
Qed.

Lemma close_output_file_alarms c st :
  let st' := snd (fst (close_output_file c st)) in
  same_alarms st st' /\ force_spill st' = force_spill st /\
  record_data st' = record_data st.
Proof.
  unfold close_output_file, same_alarms. simpl.
  destruct (IsOpen (output_file st)); [destruct c|]; simpl; auto.
Qed.

Lemma open_output_file_alarms c st :
  let st' := snd (fst (open_output_file c st)) in
  same_alarms st st' /\ force_spill st' = force_spill st /\
  (record_data st' = true -> record_data st = true).
Proof.
  unfold open_output_file, same_alarms.
  destruct (IsOpen (output_file st)); simpl; auto.
  destruct (OpenNewFile _ _ _) as [[] f]; simpl; auto.
  repeat split; auto. discriminate.
Qed.

Lemma write_data_alarms data nWords st :
  let st' := snd (fst (write_data data nWords st)) in
  same_alarms st st' /\ force_spill st' = force_spill st /\
  (record_data st' = true -> record_data st = true).
Proof.
  unfold write_data.
  pose proof (open_output_file_alarms false st) as H0.
  destruct (negb (IsOpen (output_file st)));
    [destruct (open_output_file false st) as [[b0 s0] e0]; cbn [fst snd] in H0
    |set (s0 := st);
     assert (H0' : same_alarms st s0 /\ force_spill s0 = force_spill st /\
                   (record_data s0 = true -> record_data st = true))
       by (unfold same_alarms; auto);
     clear H0; rename H0' into H0];
    (destruct (MAX_FILE_SIZE <? _);
     [pose proof (close_output_file_alarms true s0) as H1;
      destruct (close_output_file true s0) as [[b1 s1] e1];
      pose proof (open_output_file_alarms true s1) as H2;
      destruct (open_output_file true s1) as [[b2 s2] e2]; cbn [fst snd] in H1, H2|]);
    destruct (Write _ _) as [w f]; cbv zeta in *; cbn [fst snd] in *;
    unfold same_alarms in *;
    cbn [stop_acq had_error force_spill record_data set_output_file] in *;
    repeat match goal with H : _ /\ _ |- _ => destruct H end;
    (repeat split; try congruence); intros Hr;
    repeat match goal with
           | H : record_data ?a = true -> _, H' : record_data ?a = true |- _ =>
               specialize (H H')
           | H : record_data ?a = record_data ?b, H' : record_data ?a = true |- _ =>
               rewrite H in H'
           end; assumption.
Qed.

Lemma flush_spill_alarms st dataWords :
  let st' := fst (flush_spill st dataWords) in
  same_alarms st st' /\ force_spill st' = force_spill st /\
  (record_data st' = true -> record_data st = true).
Proof.
  unfold flush_spill. destruct (record_data st) eqn:Hrec.
  - pose proof (write_data_alarms (fifoData st) (w32 dataWords) st) as H.
    destruct (write_data _ _ _) as [[w st2] e2]. cbn [fst snd] in *.
    destruct H as (H1 & H2 & H3). auto.
  - cbn [fst]. unfold same_alarms. rewrite Hrec. auto.
Qed.

Lemma ReadFIFO_clears cfg pif st :
  let st' := snd (fst (ReadFIFO cfg pif st)) in
  let nWords := snd (wait_threshold pif st POLL_TRIES 0 (repeat 0 (n_cards st))) in
  (force_spill st' = true -> force_spill st = true) /\
  (record_data st' = true -> record_data st = true) /\
  (acq_running st = true /\ drains st nWords = true -> force_spill st' = false).
Proof.
  cbv zeta.
  rewrite ReadFIFO_unfold. cbn [fst snd]. unfold ReadFIFO_cycles.
  destruct (acq_running st) eqn:Hacq; cbn [negb fst snd].
  2:{ split; [auto|]. split; [auto|]. intros [H _]; discriminate. }
  destruct (wait_threshold pif st POLL_TRIES 0 _) as [cycles nWords]. cbn [snd].
  destruct (drains st nWords) eqn:Hd.
  2:{ cbn [fst snd]. split; [auto|]. split; [auto|]. intros [_ H]; discriminate. }
  pose proof (drain_modules_files cfg pif nWords
                (seq 0 (n_cards (set_force_spill false st)))
                (set_force_spill false st) 0) as H.
  destruct (drain_modules _ _ _ _ _ _) as [st1 e1|st1 d1 e1];
    cbn [drained_state fst snd] in *; destruct H as ((Hr & _) & Hf);
    cbn [force_spill record_data set_force_spill] in Hf, Hr.
  - rewrite Hf, Hr. split; [discriminate|]. split; auto.
  - pose proof (flush_spill_alarms st1 d1) as H2.
    destruct (flush_spill st1 d1) as [st2 e2]. cbn [fst snd] in *.
    destruct H2 as (_ & Hf2 & Hr2). rewrite Hf2, Hf.
    split; [discriminate|]. split; [|auto].
    intros Hx. apply Hr2 in Hx. congruence.
Qed.

Lemma ReadFIFO_outcome cfg pif st :
  let r := ReadFIFO cfg pif st in
  let st' := snd (fst r) in
  (fst (fst r) = true ->
     acq_running st = true /\ same_alarms st st') /\
  (fst (fst r) = false ->
     quiet_events (snd r) /\
     ((acq_running st = false /\ r = (false, st, [])) \/
      (acq_running st = true /\ had_error st' = true /\ stop_acq st' = true))).
Proof.
  cbv zeta. rewrite ReadFIFO_unfold. cbn [fst snd]. unfold ReadFIFO_cycles.
  destruct (acq_running st) eqn:Hacq; cbn [negb fst snd].
  2:{ split; [discriminate|]. intros _. split; [apply quiet_nil|]. left. auto. }
  destruct (wait_threshold pif st POLL_TRIES 0 _) as [cycles nWords].
  destruct (drains st nWords).
  2:{ cbn [fst snd]. split; [|discriminate]. intros _. split; [reflexivity|].
      split; reflexivity. }
  pose proof (drain_modules_quiet cfg pif nWords
                (seq 0 (n_cards (set_force_spill false st)))
                (set_force_spill false st) 0) as Hq.
  destruct (drain_modules _ _ _ _ _ _) as [st1 e1|st1 d1 e1] eqn:E;
    cbn [drained_events fst snd] in *.
  - split; [discriminate|]. intros _. split; [exact Hq|]. right.
    apply drain_modules_abort in E. destruct E. auto.
  - pose proof (flush_spill_alarms st1 d1) as H2.
    destruct (flush_spill st1 d1) as [st2 e2]. cbn [fst snd] in *.
    split; [|discriminate]. intros _. split; [reflexivity|].
    apply drain_modules_next_alarms in E. destruct H2 as (H2 & _).
    unfold same_alarms in *. cbn [stop_acq had_error set_force_spill] in E.
    intuition congruence.
Qed.

(** A pass that ends with [stop_acq] set has drained. *)
Lemma ReadFIFO_stop_drains cfg pif st :
  acq_running st = true ->
  stop_acq (snd (fst (ReadFIFO cfg pif st))) = true ->
  force_spill (snd (fst (ReadFIFO cfg pif st))) = false.
Proof.
  intros Hacq Hstop.
  pose proof (ReadFIFO_clears cfg pif st) as (_ & _ & Hc). cbv zeta in Hc.
  apply Hc. split; [exact Hacq|].
  destruct (drains st _) eqn:Hd; [reflexivity|].
  rewrite ReadFIFO_unfold in Hstop. cbn [fst snd] in Hstop.
  unfold ReadFIFO_cycles in Hstop. rewrite Hacq in Hstop. cbn [negb] in Hstop.
  destruct (wait_threshold pif st POLL_TRIES 0 _) as [cycles nWords].
  cbn [snd] in Hd. rewrite Hd in Hstop. cbn [fst snd] in Hstop.
  unfold drains in Hd. rewrite Hstop in Hd.
  rewrite orb_true_r in Hd. discriminate.
Qed.

(** X1.  A pass of [ReadFIFO] leaves every request and every setting as it
    finds them: [kill_all], [start_acq], [do_reboot], [acq_running],
    [run_ctrl_exit], [do_MCA_run], the modes, the number of cards and the
    threshold.  It may set [stop_acq] and [had_error] and never clears
    them; it may clear [force_spill] and [record_data] and never sets
    them; and a pass that drains leaves [force_spill] cleared. *)
Theorem ReadFIFO_changes_few_flags cfg pif st :
  let st' := snd (fst (ReadFIFO cfg pif st)) in
  let nWords := snd (wait_threshold pif st POLL_TRIES 0 (repeat 0 (n_cards st))) in
  keeps st st' /\
  (force_spill st' = true -> force_spill st = true) /\
  (record_data st' = true -> record_data st = true) /\
  (acq_running st = true /\ drains st nWords = true -> force_spill st' = false).
Proof.
  cbv zeta. split; [apply ReadFIFO_keeps|]. apply ReadFIFO_clears.
Qed.

(** X2.  When [ReadFIFO] returns true the acquisition was running and the
    pass raised neither [stop_acq] nor [had_error].  When it returns false
    nothing was written to the file and nothing broadcast, and either the
    acquisition was not running, in which case nothing happened at all, or
    the pass was abandoned with [had_error] and [stop_acq] set. *)
Theorem ReadFIFO_return_value cfg pif st :
  let r := ReadFIFO cfg pif st in
  let st' := snd (fst r) in
  (fst (fst r) = true ->
     acq_running st = true /\ same_alarms st st') /\
  (fst (fst r) = false ->
     quiet_events (snd r) /\
     ((acq_running st = false /\ r = (false, st, [])) \/
      (acq_running st = true /\ had_error st' = true /\ stop_acq st' = true))).
Proof. apply ReadFIFO_outcome. Qed.

(** ** A pass below the threshold *)

(** X3.  With the acquisition running, no stop requested and no spill
    forced, a pass in which none of the hundred polls sees a depth above
    [threshWords] polls a hundred times, returns true and does nothing
    else: the state is as before and nothing is read, written or sent. *)
Theorem ReadFIFO_below_threshold cfg pif st :
  acq_running st = true -> stop_acq st = false -> force_spill st = false ->
  (forall k, (k < 100)%nat ->
     max_element (poll_depths pif st k) <= threshWords st) ->
  ReadFIFO cfg pif st = (true, st, []) /\
  snd (fst (fst (ReadFIFO_cycles cfg pif st))) = 100%nat.
Proof.
  intros Hacq Hstop Hforce Hlow.
  pose proof (wait_threshold_spec pif st 99 0 (repeat 0 (n_cards st))) as H.
  rewrite ReadFIFO_unfold. unfold ReadFIFO_cycles. rewrite Hacq. cbn [negb].
  change POLL_TRIES with 100%nat.
  destruct (wait_threshold pif st 100 0 (repeat 0 (n_cards st))) as [cycles nWords].
  cbv zeta in H. cbn [fst snd] in H. destruct H as (H1 & H2 & H3 & H4).
  assert (Hc : cycles = 100%nat).
  { destruct (Nat.eq_dec cycles 100) as [E|E]; [exact E|].
    assert (Hlt : (cycles < 0 + 100)%nat) by lia.
    apply H4 in Hlt. rewrite H2 in Hlt.
    specialize (Hlow (cycles - 1)%nat ltac:(lia)). lia. }
  assert (Hd : drains st nWords = false).
  { unfold drains. rewrite Hstop, Hforce, H2, Hc.
    replace (threshWords st <? _) with false; [reflexivity|].
    symmetry. apply Z.ltb_ge. apply Hlow. lia. }
  rewrite Hd. cbn [fst snd]. subst cycles. split; reflexivity.
Qed.

(** An acquisition whose FIFOs stay empty. *)
Lemma ReadFIFO_below_threshold_witness :
  ReadFIFO pixie16 empty_crate (acquiring 2) = (true, acquiring 2, []).
Proof.
  apply (ReadFIFO_below_threshold pixie16 empty_crate (acquiring 2));
    try reflexivity.
  intros k _. vm_compute. discriminate.
Defined.

(** ** A read that fails *)

Lemma drain_module_read_failure cfg pif module W st d :
  MIN_FIFO_READ cfg <= W -> 0 <= W < EXTERNAL_FIFO_LENGTH cfg ->
  ReadFIFOWords pif module W = None ->
  drain_module cfg pif module W st d =
  Abort (set_stop_acq true
           (set_had_error true
              (set_fifoData
                 (store_words (store (fifoData st) (d + 1) (Z.of_nat module))
                    (d + 2) (partialEvent st module)) st)))
    [Print "Unable to read"].
Proof.
  intros Hmin Hnf Hread. unfold drain_module.
  replace (W <? MIN_FIFO_READ cfg) with false by (symmetry; apply Z.ltb_ge; lia).
  replace (W <? 0) with false by (symmetry; apply Z.ltb_ge; lia).
  replace (EXTERNAL_FIFO_LENGTH cfg <=? W) with false by (symmetry; apply Z.leb_gt; lia).
  rewrite Hread. cbv zeta.
  replace (d + 1 + 1) with (d + 2) by lia. reflexivity.
Qed.

(** X4.  In a pass that drains, let the modules before [m] have been read
    without fault, let the depth of [m] call for a read and let that read
    fail.  Then [ReadFIFO] returns false with [had_error] and [stop_acq]
    set; nothing is written to the file and nothing broadcast; and the
    words saved for the modules, those of [m] included, are still saved
    as the modules before [m] left them. *)
Theorem ReadFIFO_read_failure cfg pif st m st1 d1 evs1 :
  acq_running st = true ->
  let nWords := snd (wait_threshold pif st POLL_TRIES 0 (repeat 0 (n_cards st))) in
  drains st nWords = true ->
  (m < n_cards st)%nat ->
  drain_modules cfg pif nWords (seq 0 m) (set_force_spill false st) 0
    = Next st1 d1 evs1 ->
  let W := nth m nWords 0 in
  MIN_FIFO_READ cfg <= W < EXTERNAL_FIFO_LENGTH cfg ->
  ReadFIFOWords pif m W = None ->
  exists st' evs,
    ReadFIFO cfg pif st = (false, st', evs ++ [Print "Unable to read"]) /\
    had_error st' = true /\ stop_acq st' = true /\
    quiet_events (evs ++ [Print "Unable to read"]) /\
    partialEvent st' = partialEvent st1.
Proof.
  intros Hacq nWords Hdrains Hm Hpre W HW Hread.
  assert (H0 : 0 <= W) by apply (wait_depths_words pif st m).
  pose proof (drain_module_read_failure cfg pif m W st1 d1
                ltac:(lia) ltac:(lia) Hread) as Hmod.
  pose proof (drain_modules_abort_at cfg pif nWords (n_cards st) m
                (set_force_spill false st) st1 d1 evs1 _ _ Hm Hpre Hmod) as Hab.
  eexists; exists evs1. split; [apply ReadFIFO_aborted; [exact Hacq|exact Hdrains|]|].
  { exact Hab. }
  split; [reflexivity|]. split; [reflexivity|]. split; [|reflexivity].
  pose proof (drain_modules_quiet cfg pif nWords (seq 0 (n_cards st))
                (set_force_spill false st) 0) as Hq.
  change (n_cards (set_force_spill false st)) with (n_cards st) in Hq.
  rewrite Hab in Hq. exact Hq.
Qed.

(** One module whose read fails. *)
Lemma ReadFIFO_read_failure_witness :
  exists st' evs,
    ReadFIFO pixie16 dead_crate (acquiring 1) = (false, st', evs) /\
    had_error st' = true /\ stop_acq st' = true.
Proof.
  destruct (ReadFIFO_read_failure pixie16 dead_crate (acquiring 1) 0%nat
              (set_force_spill false (acquiring 1)) 0 [])
    as (st' & evs & H1 & H2 & H3 & _).
  - reflexivity.
  - vm_compute. reflexivity.
  - cbn. lia.
  - reflexivity.
  - vm_compute. split; [discriminate|reflexivity].
  - reflexivity.
  - exists st'. eexists. split; [exact H1|]. split; assumption.
Defined.

(** ** No word is lost between two passes *)

(** The words of a module that is read, before and after. *)
Lemma drain_module_words cfg pif m W st d ws st' d' evs :
  MIN_FIFO_READ cfg <= W -> 0 <= W < EXTERNAL_FIFO_LENGTH cfg ->
  ReadFIFOWords pif m W = Some ws ->
  W + len (partialEvent st m) + 2 < 2 ^ 32 ->
  drain_module cfg pif m W st d = Next st' d' evs ->
  load_words (fifoData st') (d + 2) (d' - d - 2) ++ partialEvent st' m
    = partialEvent st m ++ fifo_words W ws /\
  fifoData st' d = d' - d /\ fifoData st' (d + 1) = Z.of_nat m /\
  d + 2 <= d'.
Proof.
  intros Hmin Hnf Hread Hfit Hnext.
  destruct (drain_module_outcome cfg pif m W st d ws Hmin Hnf Hread Hfit) as (o & Ho).
  rewrite Hnext in Ho.
  pose proof (len_nonneg (partialEvent st m)) as Hp0.
  set (buf := loaded st m d W ws) in *.
  set (n := W + len (partialEvent st m)) in *.
  assert (Hall : load_words buf (d + 2) n = partialEvent st m ++ fifo_words W ws).
  { subst n.
    replace (W + len (partialEvent st m)) with (len (partialEvent st m) + W) by lia.
    rewrite load_words_app by lia.
    subst buf. rewrite loaded_partial, loaded_fifo by lia. reflexivity. }
  assert (Hmw : buf (d + 1) = Z.of_nat m) by apply loaded_module_word.
  destruct o as [q|q|]; cbn [outcome_ok] in Ho.
  - destruct Ho as (_ & _ & _ & pre & Hx & _). discriminate.
  - cbv zeta in Ho.
    destruct Ho as (Hreach & Hq & _ & _ & _ & Hps & Hle & evs0 & Heq & _).
    fold buf in Hreach, Heq. fold n in Hq, Hps, Hle, Heq.
    apply reaches_ge in Hreach.
    inversion Heq; subst st' d' evs; clear Heq.
    cbn [fifoData partialEvent set_fifoData set_partialEvent].
    rewrite Nat.eqb_refl.
    replace (d + 2 + (n - (d + 2 + n - q)) - d - 2) with (q - (d + 2)) by lia.
    split; [|split; [|split]].
    + rewrite (load_words_ext _ buf).
      2:{ intros j Hj. apply store_other. lia. }
      rewrite <- Hall.
      replace (load_words buf (d + 2) n)
        with (load_words buf (d + 2) ((q - (d + 2)) + (d + 2 + n - q)))
        by (f_equal; lia).
      rewrite load_words_app by lia.
      replace (d + 2 + (q - (d + 2))) with q by lia. reflexivity.
    + rewrite store_same. lia.
    + rewrite store_other by lia. exact Hmw.
    + lia.
  - destruct Ho as (evs0 & Heq & _). fold buf in Heq. fold n in Heq.
    inversion Heq; subst st' d' evs; clear Heq.
    cbn [fifoData partialEvent set_fifoData set_partialEvent].
    rewrite Nat.eqb_refl, app_nil_r.
    replace (d + 2 + n - d - 2) with n by lia.
    split; [|split; [|split]].
    + rewrite (load_words_ext _ buf).
      2:{ intros j Hj. apply store_other. lia. }
      exact Hall.
    + rewrite store_same. lia.
    + rewrite store_other by lia. exact Hmw.
    + subst n. lia.
Qed.

(** X5.  Let a module be read and the pass go on to the next module, the
    words written for the module -- the slot of the length, the module
    word, the saved words and the words read -- all lying within the
    array [fifoData].  Then the words that precede the pass for this
    module -- those saved by the pass before -- followed by the words just
    read from the FIFO are, in this order, the data of the segment followed
    by the words saved for the next pass: no word is dropped, repeated or
    moved.  The segment starts with its length and the number of the
    module, and the next segment starts within the array. *)
Theorem drain_module_conserves_words cfg pif m W st d ws st' d' evs :
  MIN_FIFO_READ cfg <= W -> 0 <= W < EXTERNAL_FIFO_LENGTH cfg ->
  ReadFIFOWords pif m W = Some ws ->
  W + len (partialEvent st m) + 2 < 2 ^ 32 ->
  in_array cfg m W st d = true ->
  drain_module cfg pif m W st d = Next st' d' evs ->
  load_words (fifoData st') (d + 2) (d' - d - 2) ++ partialEvent st' m
    = partialEvent st m ++ fifo_words W ws /\
  fifoData st' d = d' - d /\ fifoData st' (d + 1) = Z.of_nat m /\
  d + 2 <= d' /\
  d' + len (partialEvent st' m) = extent cfg m W st d /\
  0 <= d /\ d' + len (partialEvent st' m) <= fifoData_length cfg st'.
Proof.
  intros Hmin Hnf Hread Hfit Hin Hnext.
  destruct (drain_module_words cfg pif m W st d ws st' d' evs Hmin Hnf Hread Hfit Hnext)
    as (H1 & H2 & H3 & H4).
  destruct (in_array_read cfg m W st d Hmin Hnf Hin) as (He & H0 & Hcap).
  split; [exact H1|]. split; [exact H2|]. split; [exact H3|]. split; [exact H4|].
  assert (Hlen : d' - d - 2 + len (partialEvent st' m) = len (partialEvent st m) + W).
  { assert (E : len (load_words (fifoData st') (d + 2) (d' - d - 2)
                     ++ partialEvent st' m)
                = len (partialEvent st m ++ fifo_words W ws))
      by (rewrite H1; reflexivity).
    rewrite !len_app, len_load_words, fifo_words_length in E by lia. lia. }
  pose proof (drain_module_keeps cfg pif m W st d) as Hk.
  rewrite Hnext in Hk. cbn [drained_state] in Hk.
  unfold fifoData_length. rewrite (keeps_n_cards _ _ Hk). fold (fifoData_length cfg st).
  rewrite He. repeat split; lia.
Qed.

(** The straddling read of [straddle_crate]: 200 words in the segment and
    50 saved are the 250 words read. *)
Lemma drain_module_conserves_words_witness :
  let r := drain_module pixie16 straddle_crate 0 250 (acquiring 2) 0 in
  load_words (fifoData (drained_state r)) 2 200 ++ partialEvent (drained_state r) 0%nat
  = straddle_words.
Proof.
  intros r.
  destruct (drain_module_conserves_words pixie16 straddle_crate 0%nat 250
              (acquiring 2) 0 straddle_words (drained_state r) 202 (drained_events r))
    as (H & _).
  - vm_compute. discriminate.
  - vm_compute. split; [discriminate|reflexivity].
  - reflexivity.
  - vm_compute. reflexivity.
  - vm_compute. reflexivity.
  - vm_compute. reflexivity.
  - transitivity (partialEvent (acquiring 2) 0%nat ++ fifo_words 250 straddle_words);
      [exact H | vm_compute; reflexivity].
Defined.

(** ** Calls on the output file *)








(** ** The stop sequence *)

Lemma end_run_modules_cons cfg pif m rest st :
  end_run_modules cfg pif (m :: rest) st =
  let flush :=
    if CheckRunStatus pif m false =? 1 then
      (snd (fst (ReadFIFO cfg pif (set_force_spill true st))),
       (if negb (is_quiet st) then [Print "Module still has words in the FIFO."]
        else [])
       ++ [Sleep] ++ snd (ReadFIFO cfg pif (set_force_spill true st)))
    else (st, []) in
  let s2 :=
    if CheckRunStatus pif m true =? 0 then fst flush
    else set_had_error true (fst flush) in
  (fst (end_run_modules cfg pif rest s2),
   snd flush
   ++ (if CheckRunStatus pif m true =? 0 then [Print "Run end status: OK"]
       else [Print "Run end status: ERROR"])
   ++ snd (end_run_modules cfg pif rest s2)).
Proof.
  cbn [end_run_modules].
  destruct (CheckRunStatus pif m false =? 1);
    [destruct (ReadFIFO cfg pif (set_force_spill true st)) as [[b s] e]|];
    destruct (CheckRunStatus pif m true =? 0); cbn [fst snd];
    destruct (end_run_modules cfg pif rest _); reflexivity.
Qed.

Lemma end_run_modules_idle cfg pif modules : forall st,
  acq_running st = false ->
  let r := end_run_modules cfg pif modules st in
  keeps st (fst r) /\ same_buffers st (fst r) /\ same_files st (fst r) /\
  stop_acq (fst r) = stop_acq st /\
  (forall e, In e (snd r) -> e = Sleep \/ exists line, e = Print line) /\
  (force_spill (fst r) = true <->
   force_spill st = true \/
   exists m, In m modules /\ CheckRunStatus pif m false = 1).
Proof.
  induction modules as [|m rest IH]; intros st Hacq.
  - cbn. split; [apply keeps_refl|]. unfold same_buffers, same_files.
    repeat split; auto; try tauto.
    intros [H|(m & [] & _)]. exact H.
  - rewrite end_run_modules_cons. cbv zeta.
    rewrite (ReadFIFO_idle cfg pif (set_force_spill true st)) by exact Hacq.
    cbn [fst snd].
    set (flush := if CheckRunStatus pif m false =? 1
                  then (set_force_spill true st,
                        (if negb (is_quiet st)
                         then [Print "Module still has words in the FIFO."] else [])
                        ++ [Sleep] ++ [])
                  else (st, [])).
    set (s2 := if CheckRunStatus pif m true =? 0 then fst flush
               else set_had_error true (fst flush)).
    assert (H2 : keeps st s2 /\ same_buffers st s2 /\ same_files st s2 /\
                 stop_acq s2 = stop_acq st /\ acq_running s2 = false /\
                 (force_spill s2 = true <->
                  force_spill st = true \/ CheckRunStatus pif m false = 1) /\
                 (forall e, In e (snd flush) ->
                    e = Sleep \/ exists line, e = Print line)).
    { subst s2 flush. unfold same_buffers, same_files.
      destruct (CheckRunStatus pif m false =? 1) eqn:Es;
        destruct (CheckRunStatus pif m true =? 0); cbn [fst snd];
        (split; [keeps_now|]); cbn;
        [apply Z.eqb_eq in Es|apply Z.eqb_eq in Es
        |apply Z.eqb_neq in Es|apply Z.eqb_neq in Es];
        repeat split; auto; try tauto;
        try (intros e He; rewrite ?in_app_iff in He;
             destruct (negb (is_quiet st)); cbn in He;
             intuition (subst; eauto)). }
    destruct H2 as (K2 & B2 & F2 & S2 & A2 & P2 & E2).
    specialize (IH s2 A2). cbv zeta in IH.
    destruct IH as (K & B & F & S & E & P).
    split; [eapply keeps_trans; eauto|].
    split; [unfold same_buffers in *; intuition congruence|].
    split; [unfold same_files in *; intuition congruence|].
    split; [congruence|]. split.
    + intros e He. rewrite !in_app_iff in He.
      destruct He as [He|[He|He]].
      * apply E2. exact He.
      * destruct (CheckRunStatus pif m true =? 0);
          destruct He as [<-|[]]; right; eauto.
      * apply E. exact He.
    + rewrite P, P2. split.
      * intros [[H|H]|(k & Hk & Hs)]; [left; exact H| |].
        -- right. exists m. split; [left; reflexivity|exact H].
        -- right. exists k. split; [right; exact Hk|exact Hs].
      * intros [H|(k & [<-|Hk] & Hs)]; [left; left; exact H| |].
        -- left. right. exact Hs.
        -- right. exists k. split; assumption.
Qed.

(** ** One tick of run control, step by step *)

Lemma acquire_idle cfg pif st :
  acq_running st = false -> acquire cfg pif st = (st, []).
Proof. intros H. unfold acquire. rewrite H. reflexivity. Qed.

Lemma acquire_running cfg pif st :
  acq_running st = true ->
  acquire cfg pif st =
  let st1 := snd (fst (ReadFIFO cfg pif st)) in
  let ev_read := snd (ReadFIFO cfg pif st) in
  if stop_acq st1 then
    let s0 := set_acq_running false (set_stop_acq false st1) in
    let r := end_run_modules cfg pif (seq 0 (n_cards s0)) s0 in
    (fst r, ev_read ++ [PixieEndRun] ++ snd r ++ [Print "stopped"])
  else (st1, ev_read).
Proof.
  intros H. unfold acquire. rewrite H.
  destruct (ReadFIFO cfg pif st) as [[b st1] e1]. cbn [fst snd].
  destruct (stop_acq st1); [|reflexivity].
  destruct (end_run_modules _ _ _ _). reflexivity.
Qed.

(** What [acquire] leaves of the requests, and how it leaves the flags of
    the acquisition. *)
Lemma acquire_flags cfg pif st :
  let st' := fst (acquire cfg pif st) in
  kill_all st' = kill_all st /\ start_acq st' = start_acq st /\
  do_reboot st' = do_reboot st /\ do_MCA_run st' = do_MCA_run st /\
  run_ctrl_exit st' = run_ctrl_exit st /\
  (acq_running st' = true ->
     acq_running st = true /\ stop_acq st' = false /\ stop_acq st = false) /\
  (acq_running st = true -> stop_acq st = true -> acq_running st' = false).
Proof.
  cbv zeta. destruct (acq_running st) eqn:Hacq.
  2:{ rewrite acquire_idle by exact Hacq. cbn [fst]. rewrite Hacq.
      repeat split; auto; discriminate. }
  rewrite acquire_running by exact Hacq. cbv zeta.
  pose proof (ReadFIFO_keeps cfg pif st) as HK.
  destruct (ReadFIFO cfg pif st) as [[b st1] e1]. cbn [fst snd] in *.
  destruct (stop_acq st1) eqn:Hs1.
  - set (s0 := set_acq_running false (set_stop_acq false st1)).
    pose proof (end_run_modules_idle cfg pif (seq 0 (n_cards s0)) s0 eq_refl) as HE.
    cbv zeta in HE. destruct HE as (K & _ & _ & S & _).
    cbn [fst].
    rewrite (keeps_kill_all _ _ K), (keeps_start_acq _ _ K), (keeps_do_reboot _ _ K),
      (keeps_do_MCA_run _ _ K), (keeps_run_ctrl_exit _ _ K), (keeps_acq_running _ _ K).
    subst s0. cbn.
    rewrite (keeps_kill_all _ _ HK), (keeps_start_acq _ _ HK), (keeps_do_reboot _ _ HK),
      (keeps_do_MCA_run _ _ HK), (keeps_run_ctrl_exit _ _ HK).
    repeat split; auto; discriminate.
  - cbn [fst].
    rewrite (keeps_kill_all _ _ HK), (keeps_start_acq _ _ HK), (keeps_do_reboot _ _ HK),
      (keeps_do_MCA_run _ _ HK), (keeps_run_ctrl_exit _ _ HK), (keeps_acq_running _ _ HK).
    repeat split; auto.
    + destruct (stop_acq st) eqn:Hs; [|reflexivity].
      rewrite (keeps_stop_acq _ _ HK Hs) in Hs1. discriminate.
    + intros _ Hs. rewrite (keeps_stop_acq _ _ HK Hs) in Hs1. discriminate.
Qed.

(** The state [acquire] is entered with, in a tick that found the
    acquisition running. *)
Lemma checks_running pif s0 :
  acq_running s0 = true ->
  let s3 := fst (start_check pif (fst (mca_check (fst (reboot_check s0))))) in
  acq_running s3 = true /\ start_acq s3 = false /\
  kill_all s3 = kill_all s0 /\ do_reboot s3 = do_reboot s0 /\
  do_MCA_run s3 = do_MCA_run s0 /\ run_ctrl_exit s3 = run_ctrl_exit s0 /\
  same_files s0 s3 /\ same_buffers s0 s3 /\ force_spill s3 = force_spill s0 /\
  (stop_acq s0 = true \/ do_reboot s0 = true \/ do_MCA_run s0 = true ->
   stop_acq s3 = true) /\
  file_calls (snd (reboot_check s0) ++ snd (mca_check (fst (reboot_check s0)))
              ++ snd (start_check pif (fst (mca_check (fst (reboot_check s0))))))
  = [].
Proof.
  intros Hacq. unfold reboot_check, mca_check, start_check, same_files, same_buffers.
  rewrite Hacq.
  destruct (do_reboot s0) eqn:E1; cbn [fst snd acq_running do_MCA_run set_stop_acq];
    rewrite ?Hacq;
    destruct (do_MCA_run s0) eqn:E2;
    cbn [fst snd acq_running start_acq set_stop_acq]; rewrite ?Hacq;
    destruct (start_acq s0) eqn:E3; cbn; rewrite ?Hacq, ?E1, ?E2, ?E3;
    repeat split; auto; intros [H|[H|H]]; congruence.
Qed.

(** The same for a tick that found no acquisition running. *)
Lemma checks_idle pif s0 :
  acq_running s0 = false ->
  let s3 := fst (start_check pif (fst (mca_check (fst (reboot_check s0))))) in
  start_acq s3 = false /\ do_reboot s3 = false /\ do_MCA_run s3 = false /\
  kill_all s3 = kill_all s0 /\ run_ctrl_exit s3 = run_ctrl_exit s0 /\
  same_files s0 s3 /\ same_buffers s0 s3 /\ force_spill s3 = force_spill s0 /\
  (acq_running s3 = true -> start_acq s0 = true /\ StartListModeRun pif = true) /\
  file_calls (snd (reboot_check s0) ++ snd (mca_check (fst (reboot_check s0)))
              ++ snd (start_check pif (fst (mca_check (fst (reboot_check s0))))))
  = [].
Proof.
  intros Hacq. unfold reboot_check, mca_check, start_check, same_files, same_buffers.
  rewrite Hacq.
  destruct (do_reboot s0) eqn:E1; cbn [fst snd acq_running do_MCA_run set_do_reboot];
    rewrite ?Hacq;
    destruct (do_MCA_run s0) eqn:E2;
    cbn [fst snd acq_running start_acq set_do_reboot set_do_MCA_run set_mca_args set_stop_acq];
    rewrite ?Hacq;
    destruct (start_acq s0) eqn:E3; cbn [andb negb];
    destruct (StartListModeRun pif) eqn:E4; cbn; rewrite ?Hacq, ?E1, ?E2, ?E3;
    repeat split; auto; discriminate.
Qed.

Lemma run_control_tick_unfold cfg pif st s0 :
  kill_check st = Some s0 ->
  run_control_tick cfg pif st =
  let s1 := fst (reboot_check s0) in
  let s2 := fst (mca_check s1) in
  let s3 := fst (start_check pif s2) in
  let r := acquire cfg pif s3 in
  Again (fst r)
    ((snd (reboot_check s0) ++ snd (mca_check s1) ++ snd (start_check pif s2))
     ++ snd r ++ status_line (fst r)).
Proof.
  intros H. unfold run_control_tick. rewrite H.
  destruct (reboot_check s0) as [s1 e1]. cbn [fst snd].
  destruct (mca_check s1) as [s2 e2]. cbn [fst snd].
  destruct (start_check pif s2) as [s3 e3]. cbn [fst snd].
  destruct (acquire cfg pif s3) as [s4 e4]. cbn [fst snd].
  rewrite <- !app_assoc. reflexivity.
Qed.

Lemma kill_check_some st s0 :
  kill_check st = Some s0 ->
  kill_all s0 = kill_all st /\ acq_running s0 = acq_running st /\
  run_ctrl_exit s0 = run_ctrl_exit st /\
  (kill_all st = true -> acq_running st = true /\ s0 = set_stop_acq true st) /\
  (kill_all st = false -> s0 = st).
Proof.
  unfold kill_check. destruct (kill_all st) eqn:K.
  - destruct (acq_running st) eqn:A; [|discriminate].
    intros H; inversion H; subst. cbn. rewrite K, A.
    split; [reflexivity|]. split; [reflexivity|]. split; [reflexivity|].
    split; [auto|discriminate].
  - intros H; inversion H; subst. rewrite K.
    split; [reflexivity|]. split; [reflexivity|]. split; [reflexivity|].
    split; [discriminate|auto].
Qed.

(** X6.  At the end of every tick of run control that does not leave the
    loop, the request [start_acq] has been taken; and if the acquisition
    is running then no stop is pending and none of [kill_all], [do_reboot]
    and [do_MCA_run] is set: a kill, a reboot or an MCA run asked for
    while the acquisition runs ends the run within the tick.  A tick
    changes neither [kill_all] nor [run_ctrl_exit]. *)
Theorem run_control_tick_invariants cfg pif st st' evs :
  run_control_tick cfg pif st = Again st' evs ->
  start_acq st' = false /\
  (acq_running st' = true ->
     stop_acq st' = false /\ kill_all st' = false /\
     do_reboot st' = false /\ do_MCA_run st' = false) /\
  kill_all st' = kill_all st /\ run_ctrl_exit st' = run_ctrl_exit st.
Proof.
  intros Htick.
  destruct (kill_check st) as [s0|] eqn:Hk.
  2:{ unfold run_control_tick in Htick. rewrite Hk in Htick. discriminate. }
  rewrite (run_control_tick_unfold cfg pif st s0 Hk) in Htick. cbv zeta in Htick.
  inversion Htick as [[Hst Hev]]. clear Htick Hev.
  apply kill_check_some in Hk. destruct Hk as (K0 & A0 & R0 & Kt & Kf).
  set (s3 := fst (start_check pif (fst (mca_check (fst (reboot_check s0)))))) in *.
  pose proof (acquire_flags cfg pif s3) as HA. cbv zeta in HA.
  destruct HA as (A1 & A2 & A3 & A4 & A5 & A6 & A7).
  destruct (acq_running s0) eqn:Hacq.
  - pose proof (checks_running pif s0 Hacq) as HC. cbv zeta in HC. fold s3 in HC.
    destruct HC as (C1 & C2 & C3 & C4 & C5 & C6 & _ & _ & _ & C10 & _).
    split; [congruence|]. split; [|split; congruence].
    intros Hrun. destruct (A6 Hrun) as (_ & S1 & S2). split; [exact S1|].
    assert (Hno : ~ (stop_acq s0 = true \/ do_reboot s0 = true \/ do_MCA_run s0 = true)).
    { intros H. apply C10 in H. congruence. }
    assert (Hk : kill_all st = false).
    { destruct (kill_all st) eqn:K; [|reflexivity].
      destruct (Kt eq_refl) as (_ & ->). exfalso. apply Hno. left. reflexivity. }
    split; [congruence|].
    split; [rewrite A3, C4|rewrite A4, C5].
    + destruct (do_reboot s0); [exfalso; apply Hno; auto|reflexivity].
    + destruct (do_MCA_run s0); [exfalso; apply Hno; auto|reflexivity].
  - pose proof (checks_idle pif s0 Hacq) as HC. cbv zeta in HC. fold s3 in HC.
    destruct HC as (C1 & C2 & C3 & C4 & C5 & _).
    split; [congruence|]. split; [|split; congruence].
    intros Hrun. destruct (A6 Hrun) as (_ & S1 & S2). split; [exact S1|].
    assert (Hk : kill_all st = false).
    { destruct (kill_all st) eqn:K; [|reflexivity].
      destruct (Kt eq_refl) as (R & _). congruence. }
    split; [congruence|]. split; congruence.
Qed.

(** A tick that starts the acquisition asked for by [run]. *)
Lemma run_control_tick_invariants_witness :
  start_acq (tick_state first_pass) = false /\
  kill_all (tick_state first_pass) = false.
Proof.
  destruct (run_control_tick_invariants pixie16 straddle_crate after_run
              (tick_state first_pass) (tick_events first_pass))
    as (H1 & _ & H3 & _).
  - vm_compute. reflexivity.
  - split; [exact H1|]. rewrite H3. reflexivity.
Defined.

(** ** The end of a run *)



(** X7.  When a tick of run control handles a stop, the modules are told to
    end the run and everything that follows is printing and sleeping: a
    module whose run has not ended is not read out, because [ReadFIFO] is
    called with [acq_running] already cleared.  The buffers and the file
    stay as the last pass left them, the acquisition is over with no stop
    pending, and [force_spill] is left set exactly when some module had
    not ended its run. *)
Theorem stop_sequence_reads_nothing cfg pif st :
  acq_running st = true ->
  let st1 := snd (fst (ReadFIFO cfg pif st)) in
  stop_acq st1 = true ->
  let st2 := fst (acquire cfg pif st) in
  exists ev_end,
    snd (acquire cfg pif st)
      = snd (ReadFIFO cfg pif st) ++ [PixieEndRun] ++ ev_end ++ [Print "stopped"] /\
    (forall e, In e ev_end -> e = Sleep \/ exists line, e = Print line) /\
    same_buffers st1 st2 /\ same_files st1 st2 /\
    acq_running st2 = false /\ stop_acq st2 = false /\
    (force_spill st2 = true <->
     exists m, (m < n_cards st)%nat /\ CheckRunStatus pif m false = 1).
Proof.
  intros Hacq st1 Hstop st2.
  pose proof (ReadFIFO_stop_drains cfg pif st Hacq Hstop) as Hforce.
  pose proof (ReadFIFO_keeps cfg pif st) as HK.
  subst st2. rewrite acquire_running by exact Hacq. cbv zeta.
  fold st1. fold st1 in HK, Hforce. rewrite Hstop.
  set (s0 := set_acq_running false (set_stop_acq false st1)).
  pose proof (end_run_modules_idle cfg pif (seq 0 (n_cards s0)) s0 eq_refl) as HE.
  cbv zeta in HE. destruct HE as (K & B & F & S & E & P).
  cbn [fst snd].
  exists (snd (end_run_modules cfg pif (seq 0 (n_cards s0)) s0)).
  split; [reflexivity|]. split; [exact E|].
  split; [exact B|]. split; [exact F|].
  split; [rewrite (keeps_acq_running _ _ K); reflexivity|].
  split; [rewrite S; reflexivity|].
  rewrite P. change (force_spill s0) with (force_spill st1). rewrite Hforce.
  change (n_cards s0) with (n_cards st1). rewrite (keeps_n_cards _ _ HK).
  split.
  - intros [H|(m & Hm & Hs)]; [discriminate|].
    exists m. split; [apply in_seq in Hm; lia|exact Hs].
  - intros (m & Hm & Hs). right. exists m. split; [apply in_seq; lia|exact Hs].
Qed.

(** A stop while the one module has not ended its run: nothing is read
    and [force_spill] stays behind. *)
Lemma stop_sequence_reads_nothing_witness :
  let st := set_stop_acq true (acquiring 1) in
  force_spill (fst (acquire pixie16 lingering_crate st)) = true /\
  acq_running (fst (acquire pixie16 lingering_crate st)) = false.
Proof.
  intros st.
  destruct (stop_sequence_reads_nothing pixie16 lingering_crate st)
    as (ev_end & _ & _ & _ & _ & H5 & _ & H7).
  - reflexivity.
  - vm_compute. reflexivity.
  - split; [|exact H5]. apply H7. exists 0%nat. split; [cbn; lia|reflexivity].
Defined.

Lemma tick_kill_running cfg pif st :
  kill_all st = true -> acq_running st = true ->
  exists st' evs,
    run_control_tick cfg pif st = Again st' evs /\
    kill_all st' = true /\ acq_running st' = false.
Proof.
  intros Hkill Hacq.
  assert (Hk : kill_check st = Some (set_stop_acq true st))
    by (unfold kill_check; rewrite Hkill, Hacq; reflexivity).
  rewrite (run_control_tick_unfold cfg pif st _ Hk). cbv zeta.
  set (s0 := set_stop_acq true st).
  pose proof (checks_running pif s0 Hacq) as HC. cbv zeta in HC.
  set (s3 := fst (start_check pif (fst (mca_check (fst (reboot_check s0)))))) in *.
  destruct HC as (C1 & _ & C3 & _ & _ & _ & _ & _ & _ & C10 & _).
  pose proof (acquire_flags cfg pif s3) as HA. cbv zeta in HA.
  destruct HA as (A1 & _ & _ & _ & _ & _ & A7).
  eexists; eexists. split; [reflexivity|]. split.
  - rewrite A1, C3. exact Hkill.
  - apply A7; [exact C1|]. apply C10. left. reflexivity.
Qed.

(** X8.  Once [kill_all] is set, run control leaves its loop within two
    ticks, whatever the state and whatever the hardware answers: at once
    if no acquisition runs, and otherwise after the tick that ends the
    run.  It returns with [run_ctrl_exit] set, so that the command thread,
    which waits for that flag after [kill] and [quit], goes on; and the
    command [kill] sets [kill_all] in every state. *)
Theorem kill_all_ends_run_control cfg pifs tick st fuel :
  kill_all st = true ->
  (exists st' evs,
     run_control cfg pifs (S (S fuel)) tick st = Some (st', evs) /\
     run_ctrl_exit st' = true /\ acq_running st' = false /\ kill_all st' = true) /\
  (forall arg st0,
     exists st1 evs,
       dispatch "kill" arg st0 = Leave st1 evs /\ kill_all st1 = true /\
       In WaitRunCtrlExit evs).
Proof.
  intros Hkill. split.
  - destruct (acq_running st) eqn:Hacq.
    + destruct (tick_kill_running cfg (pifs tick) st Hkill Hacq)
        as (st1 & evs1 & Ht & K1 & A1).
      assert (Hk : kill_check st1 = None)
        by (unfold kill_check; rewrite K1, A1; reflexivity).
      cbn [run_control]. rewrite Ht.
      unfold run_control_tick at 1. rewrite Hk.
      eexists; eexists. split; [reflexivity|]. cbn. auto.
    + assert (Hk : kill_check st = None)
        by (unfold kill_check; rewrite Hkill, Hacq; reflexivity).
      cbn [run_control]. unfold run_control_tick at 1. rewrite Hk.
      eexists; eexists. split; [reflexivity|]. cbn. auto.
  - intros arg st0. unfold dispatch. cbn [is_cmd String.eqb Ascii.eqb Bool.eqb orb].
    destruct (acq_running st0 || do_MCA_run st0);
      eexists; eexists; (split; [reflexivity|]); cbn; auto.
Qed.

(** [kill] during a run on [straddle_crate]. *)
Lemma kill_all_ends_run_control_witness :
  exists st' evs,
    run_control pixie16 (fun _ => straddle_crate) 2 0
      (prompt_state (command_control_step "kill" (acquiring 2))) = Some (st', evs) /\
    run_ctrl_exit st' = true.
Proof.
  destruct (kill_all_ends_run_control pixie16 (fun _ => straddle_crate) 0%nat
              (prompt_state (command_control_step "kill" (acquiring 2))) 0%nat)
    as ((st' & evs & H1 & H2 & _) & _).
  - reflexivity.
  - exists st', evs. split; assumption.
Defined.




(** ** What the commands do and do not do *)

Ltac same_now :=
  unfold same_acquisition, same_buffers; simpl; repeat split; auto.

Lemma same_acquisition_refl st : same_acquisition st st.
Proof. same_now. Qed.

Lemma same_acquisition_trans st1 st2 st3 :
  same_acquisition st1 st2 -> same_acquisition st2 st3 -> same_acquisition st1 st3.
Proof. unfold same_acquisition, same_buffers. intuition congruence. Qed.

Lemma close_output_file_acquisition c st :
  same_acquisition st (snd (fst (close_output_file c st))).
Proof.
  unfold close_output_file. simpl.
  destruct (IsOpen (output_file st)); [destruct c|]; same_now.
Qed.

Lemma open_output_file_acquisition c st :
  same_acquisition st (snd (fst (open_output_file c st))).
Proof.
  unfold open_output_file.
  destruct (IsOpen (output_file st)); simpl; [same_now|].
  destruct (OpenNewFile _ _ _) as [[] f]; same_now.
Qed.

Lemma StartAcq_acquisition st : same_acquisition st (snd (fst (StartAcq st))).
Proof.
  unfold StartAcq.
  destruct (do_MCA_run st), (acq_running st); same_now.
Qed.

Lemma StopAcq_acquisition st : same_acquisition st (snd (fst (StopAcq st))).
Proof.
  unfold StopAcq.
  destruct (acq_running st); same_now.
Qed.

Lemma StopRun_acquisition st : same_acquisition st (snd (fst (StopRun st))).
Proof.
  unfold StopRun, StopAcq.
  destruct (acq_running st) eqn:E; simpl; rewrite ?E; same_now.
Qed.

Lemma StartRun_acquisition st : same_acquisition st (snd (fst (StartRun st))).
Proof.
  unfold StartRun.
  destruct (do_MCA_run st); [apply same_acquisition_refl|].
  destruct (acq_running st); [apply same_acquisition_refl|].
  assert (Hc : exists s0 e0,
             (if IsOpen (output_file st)
              then let '(_, st', evs) := close_output_file false st in (st', evs)
              else (st, [])) = (s0, e0) /\ same_acquisition st s0).
  { destruct (IsOpen (output_file st)).
    - pose proof (close_output_file_acquisition false st) as H.
      destruct (close_output_file false st) as [[b s0] e0]. eauto.
    - eexists; eexists. split; [reflexivity|apply same_acquisition_refl]. }
  destruct Hc as (s0 & e0 & -> & H0).
  pose proof (open_output_file_acquisition false s0) as H1.
  destruct (open_output_file false s0) as [[ok s1] e1]. cbn [fst snd] in H1.
  destruct ok; cbn [negb].
  - pose proof (StartAcq_acquisition (set_record_data true s1)) as H2.
    destruct (StartAcq _) as [[b2 s2] e2]. cbn [fst snd] in *.
    eapply same_acquisition_trans; [exact H0|].
    eapply same_acquisition_trans; [exact H1|].
    eapply same_acquisition_trans; [|exact H2].
    same_now.
  - cbn [fst snd]. eapply same_acquisition_trans; eauto.
Qed.

Lemma dispatch_acquisition cmd arg st :
  same_acquisition st (prompt_state (dispatch cmd arg st)).
Proof.
  pose proof (StartRun_acquisition st) as H1.
  pose proof (StartAcq_acquisition st) as H2.
  pose proof (StopRun_acquisition st) as H3.
  pose proof (StopAcq_acquisition st) as H4.
  pose proof (close_output_file_acquisition false st) as H5.
  unfold dispatch, toggled.
  destruct (StartRun st) as [[? ?] ?], (StartAcq st) as [[? ?] ?],
           (StopRun st) as [[? ?] ?], (StopAcq st) as [[? ?] ?],
           (close_output_file false st) as [[? ?] ?].
  simpl in H1, H2, H3, H4, H5.
  mca_branch.
  repeat match goal with
         | |- context [if ?b then _ else _] => destruct b
         end; simpl; auto; same_now.
Qed.

Lemma command_control_step_acquisition cmd st :
  same_acquisition st (prompt_state (command_control_step cmd st)).
Proof.
  unfold command_control_step.
  destruct (String.eqb _ "CTRL_C"); [apply same_acquisition_refl|].
  destruct (found tab _); [apply same_acquisition_refl|].
  destruct (String.eqb _ ""); [apply same_acquisition_refl|].
  destruct (split_command _) as [c a].
  eapply same_acquisition_trans; [|apply dispatch_acquisition].
  same_now.
Qed.

(** X10.  No command starts or ends the acquisition by itself: whatever the
    line, [command_control] leaves [acq_running] and [run_ctrl_exit] as
    they are, and it touches neither the number of cards, nor the
    threshold, nor the buffer of the spill, nor the words saved for the
    modules.  It only raises requests that run control takes up. *)
Theorem commands_only_raise_requests cmd st :
  same_acquisition st (prompt_state (command_control_step cmd st)).
Proof. apply command_control_step_acquisition. Qed.

(** The chain is left by [quit], [exit] and [kill] only. *)
Lemma dispatch_leaves cmd arg st st' evs :
  dispatch cmd arg st = Leave st' evs ->
  (cmd = "quit" \/ cmd = "exit" \/ cmd = "kill")%string /\
  kill_all st' = true /\ In WaitRunCtrlExit evs /\
  (cmd <> "kill"%string ->
   acq_running st = false /\ do_MCA_run st = false /\
   st' = set_kill_all true st /\ evs = [WaitRunCtrlExit]).
Proof.
  unfold dispatch, toggled, is_cmd.
  destruct (String.eqb cmd "quit" || String.eqb cmd "exit") eqn:E1.
  { apply orb_true_iff in E1.
    assert (Hc : (cmd = "quit" \/ cmd = "exit")%string)
      by (destruct E1 as [E|E]; apply String.eqb_eq in E; auto).
    destruct (do_MCA_run st); [discriminate|].
    destruct (acq_running st); [discriminate|].
    intros H; inversion H; subst st' evs.
    split; [tauto|]. split; [reflexivity|]. split; [left; reflexivity|]. auto. }
  destruct (String.eqb cmd "kill") eqn:E2.
  { apply String.eqb_eq in E2.
    destruct (acq_running st || do_MCA_run st);
      intros H; inversion H; subst st' evs;
      (split; [tauto|]); (split; [reflexivity|]);
      (split; [cbn; tauto|]); intros Hn; contradiction. }
  destruct (StartRun st) as [[? ?] ?], (StartAcq st) as [[? ?] ?],
           (StopRun st) as [[? ?] ?], (StopAcq st) as [[? ?] ?],
           (close_output_file false st) as [[? ?] ?].
  mca_branch.
  repeat match goal with
         | |- context [if ?b then _ else _] => destruct b
         end; discriminate.
Qed.

(** A line whose verb is a command of the chain is neither CTRL_D, nor
    CTRL_C, nor empty. *)
Lemma verb_of_line line verb arg :
  split_command line = (verb, arg) ->
  verb <> "CTRL_D"%string -> verb <> "CTRL_C"%string -> verb <> ""%string ->
  String.eqb line "CTRL_D" = false /\ String.eqb line "CTRL_C" = false /\
  String.eqb line "" = false.
Proof.
  intros Hs H1 H2 H3.
  repeat split;
    match goal with
    | |- String.eqb line ?s = false =>
        destruct (String.eqb line s) eqn:E; [|reflexivity];
        apply String.eqb_eq in E; subst line; vm_compute in Hs;
        inversion Hs; subst; contradiction
    end.
Qed.

(** X11.  The loop of the command interpreter is left by the lines whose
    verb is [quit], [exit] or [kill] (CTRL_D being read as [quit]) and by
    no other line, always with [kill_all] set and after waiting for run
    control to exit.  [quit] and [exit] leave only when neither an
    acquisition nor an MCA run is going on; the state they leave differs
    from the one they found by [kill_all], which is set, and [had_error],
    which every command line clears.  The line [kill] leaves in every
    state, and with [stop_acq] set when an acquisition or an MCA run is
    going on. *)
Theorem command_loop_left_by_quit_or_kill st :
  (forall line st' evs,
     command_control_step line st = Leave st' evs ->
     let verb :=
       fst (split_command (if String.eqb line "CTRL_D" then "quit" else line)) in
     (verb = "quit" \/ verb = "exit" \/ verb = "kill")%string /\
     kill_all st' = true /\ had_error st' = false /\ In WaitRunCtrlExit evs /\
     (verb <> "kill"%string ->
      acq_running st = false /\ do_MCA_run st = false /\
      st' = set_kill_all true (set_had_error false st) /\
      evs = [WaitRunCtrlExit])) /\
  (exists st' evs,
     command_control_step "kill" st = Leave st' evs /\
     kill_all st' = true /\ In WaitRunCtrlExit evs /\
     (acq_running st || do_MCA_run st = true -> stop_acq st' = true)).
Proof.
  split.
  - intros line st' evs. unfold command_control_step.
    set (l := if String.eqb line "CTRL_D" then "quit"%string else line).
    destruct (String.eqb l "CTRL_C"); [discriminate|].
    destruct (found tab l); [discriminate|].
    destruct (String.eqb l ""); [discriminate|].
    destruct (split_command l) as [verb arg]. cbn [fst]. intros H.
    pose proof (dispatch_had_error verb arg (set_had_error false st)) as He.
    rewrite H in He. cbn [prompt_state had_error set_had_error] in He.
    apply dispatch_leaves in H. destruct H as (H1 & H2 & H3 & H4).
    split; [exact H1|]. split; [exact H2|]. split; [exact He|]. split; [exact H3|].
    exact H4.
  - unfold command_control_step. cbn [String.eqb Ascii.eqb Bool.eqb].
    change (found tab "kill") with false. cbv iota.
    change (split_command "kill") with ("kill"%string, ""%string). cbv iota beta.
    unfold dispatch. cbn [is_cmd String.eqb Ascii.eqb Bool.eqb orb].
    cbn [acq_running do_MCA_run set_had_error].
    destruct (acq_running st || do_MCA_run st) eqn:E; eexists; eexists;
      (split; [reflexivity|]); (split; [reflexivity|]); (split; [cbn; tauto|]).
    + intros _. reflexivity.
    + discriminate.
Qed.

(** [quit] with nothing running, and CTRL_D. *)
Lemma command_loop_left_by_quit_or_kill_witness :
  kill_all (prompt_state (command_control_step "quit" (fresh 1 good_disk))) = true /\
  kill_all (prompt_state (command_control_step "CTRL_D" (fresh 1 good_disk))) = true.
Proof.
  destruct (command_loop_left_by_quit_or_kill (fresh 1 good_disk)) as (H & _).
  split.
  - destruct (H "quit"%string (set_kill_all true (fresh 1 good_disk))
                [WaitRunCtrlExit] eq_refl) as (_ & Hk & _).
    exact Hk.
  - destruct (H "CTRL_D"%string (set_kill_all true (fresh 1 good_disk))
                [WaitRunCtrlExit] eq_refl) as (_ & Hk & _).
    exact Hk.
Defined.

(** While the acquisition is running the chain refuses these commands. *)
Lemma dispatch_refuses cmd arg st :
  In cmd refused_while_running -> acq_running st = true ->
  exists msg, dispatch cmd arg st = Back st [Print msg].
Proof.
  intros Hin Hacq. unfold refused_while_running in Hin. cbn [In] in Hin.
  unfold dispatch, StartRun, StartAcq.
  repeat (destruct Hin as [<-|Hin];
          [cbn [is_cmd String.eqb Ascii.eqb Bool.eqb orb andb]; rewrite ?Hacq;
           destruct (do_MCA_run st); cbn [orb]; eexists; reflexivity|]).
  destruct Hin.
Qed.

(** X12.  While the acquisition is running, a line whose verb would end
    the program, start another acquisition, reboot the crate, start an MCA
    run or write parameters of the modules is refused: one line is
    printed, no request is raised and nothing is sent to the modules.  The
    one change of the state is that of every command line: [had_error] is
    cleared. *)
Theorem running_acquisition_refuses line st :
  In (fst (split_command line)) refused_while_running ->
  found tab line = false -> acq_running st = true ->
  exists msg,
    command_control_step line st = Back (set_had_error false st) [Print msg].
Proof.
  intros Hin Htab Hacq.
  destruct (split_command line) as [verb arg] eqn:Hs. cbn [fst] in Hin.
  assert (Hv : verb <> "CTRL_D"%string /\ verb <> "CTRL_C"%string /\ verb <> ""%string).
  { unfold refused_while_running in Hin. cbn [In] in Hin.
    repeat (destruct Hin as [<-|Hin]; [repeat split; discriminate|]).
    destruct Hin. }
  destruct Hv as (V1 & V2 & V3).
  destruct (verb_of_line line verb arg Hs V1 V2 V3) as (L1 & L2 & L3).
  unfold command_control_step. rewrite L1, L2, Htab, L3, Hs.
  apply dispatch_refuses; [exact Hin|exact Hacq].
Qed.

(** [pwrite] during a run with the error flag up. *)
Lemma running_acquisition_refuses_witness :
  exists msg,
    command_control_step "pwrite 0 0 TAU 1" (set_had_error true (acquiring 1))
    = Back (acquiring 1) [Print msg].
Proof.
  apply (running_acquisition_refuses "pwrite 0 0 TAU 1"
           (set_had_error true (acquiring 1)));
    [cbn; tauto | reflexivity | reflexivity].
Defined.

(** ** The open file and the run number *)

Lemma file_in_step_same st st' :
  same_files st st' -> file_in_step st -> file_in_step st'.
Proof.
  unfold same_files, file_in_step. intros (_ & Hf & Ho & Hn) H.
  rewrite Hf, Ho, Hn. exact H.
Qed.

Lemma close_output_file_closed c st :
  IsOpen (output_file (snd (fst (close_output_file c st)))) = false.
Proof.
  unfold close_output_file. cbn [output_file set_file_open].
  destruct (IsOpen (output_file st)) eqn:E; [destruct c|]; cbn; auto.
Qed.

Lemma open_output_file_in_step c st :
  file_in_step st -> file_in_step (snd (fst (open_output_file c st))).
Proof.
  unfold open_output_file, OpenNewFile, file_in_step.
  destruct (IsOpen (output_file st)) eqn:E; cbn [negb fst snd]; [auto|].
  destruct (disk_ok (output_file st) (attempts (output_file st))); cbn; auto.
Qed.

Lemma write_data_in_step data nWords st :
  file_in_step st -> file_in_step (snd (fst (write_data data nWords st))).
Proof.
  intros H. unfold write_data.
  assert (H0 : exists s0 e0,
             (if negb (IsOpen (output_file st))
              then let '(_, st', evs) := open_output_file false st in
                   (st', Print "Recording data, but no file is open! Opening a new file."
                         :: evs)
              else (st, [])) = (s0, e0) /\ file_in_step s0).
  { destruct (negb (IsOpen (output_file st))).
    - pose proof (open_output_file_in_step false st H) as Ho.
      destruct (open_output_file false st) as [[b s] e]. eauto.
    - eauto. }
  destruct H0 as (s0 & e0 & -> & H0).
  assert (H1 : exists s1 e1,
             (if MAX_FILE_SIZE <? GetFilesize (output_file s0) + w32 (4 * nWords + 65552)
              then let '(_, st1, evs1) := close_output_file true s0 in
                   let '(_, st2, evs2) := open_output_file true st1 in
                   (st2, [Print "Current filesize."; Print "Opening new file."]
                         ++ evs1 ++ evs2)
              else (s0, [])) = (s1, e1) /\ file_in_step s1).
  { destruct (MAX_FILE_SIZE <? _).
    - pose proof (close_output_file_closed true s0) as Hc.
      destruct (close_output_file true s0) as [[b1 s1] e1]. cbn [fst snd] in Hc.
      assert (Hs1 : file_in_step s1)
        by (unfold file_in_step; rewrite Hc; discriminate).
      pose proof (open_output_file_in_step true s1 Hs1) as Ho.
      destruct (open_output_file true s1) as [[b2 s2] e2]. eauto.
    - eauto. }
  destruct H1 as (s1 & e1 & -> & H1).
  unfold Write, file_in_step in *.
  destruct (IsOpen (output_file s1)) eqn:E; cbn; auto.
  rewrite E. exact H1.
Qed.

Lemma StartRun_in_step st :
  file_in_step st -> file_in_step (snd (fst (StartRun st))).
Proof.
  intros H. unfold StartRun.
  destruct (do_MCA_run st); [exact H|].
  destruct (acq_running st); [exact H|].
  assert (H0 : exists s0 e0,
             (if IsOpen (output_file st)
              then let '(_, st', evs) := close_output_file false st in (st', evs)
              else (st, [])) = (s0, e0) /\ file_in_step s0).
  { destruct (IsOpen (output_file st)).
    - pose proof (close_output_file_closed false st) as Hc.
      destruct (close_output_file false st) as [[b s] e]. cbn [fst snd] in Hc.
      eexists; eexists. split; [reflexivity|].
      unfold file_in_step. rewrite Hc. discriminate.
    - eauto. }
  destruct H0 as (s0 & e0 & -> & H0).
  pose proof (open_output_file_in_step false s0 H0) as Ho.
  destruct (open_output_file false s0) as [[ok s1] e1]. cbn [fst snd] in Ho.
  destruct ok; cbn [negb fst snd]; [|exact Ho].
  unfold StartAcq. cbn [do_MCA_run acq_running set_record_data].
  destruct (do_MCA_run s1), (acq_running s1); exact Ho.
Qed.

Lemma dispatch_in_step cmd arg st :
  file_in_step st -> file_in_step (prompt_state (dispatch cmd arg st)).
Proof.
  intros H.
  pose proof (StartRun_in_step st H) as H1.
  pose proof (close_output_file_closed false st) as H5.
  assert (Hclosed : file_open st = false -> IsOpen (output_file st) = false).
  { intros Hf. destruct (IsOpen (output_file st)) eqn:E; [|reflexivity].
    destruct (H E) as (Hx & _). congruence. }
  unfold dispatch, toggled, StartAcq, StopRun, StopAcq.
  destruct (StartRun st) as [[? ?] ?], (close_output_file false st) as [[? ?] ?].
  cbn [fst snd] in H1, H5.
  mca_branch.
  repeat match goal with
         | |- context [if ?b then _ else _] => destruct b eqn:?
         end; cbn [prompt_state]; auto;
    unfold file_in_step in *;
    cbn [output_file file_open next_run_num set_kill_all set_stop_acq set_start_acq
         set_record_data set_shm_mode set_do_reboot set_force_spill set_debug_mode
         set_is_quiet set_next_run_num set_output_format set_do_MCA_run set_mca_args];
    auto;
    try (intros Hx; rewrite ?H5 in Hx; try discriminate;
         rewrite Hclosed in Hx by (assumption || reflexivity); discriminate).
Qed.

Lemma ReadFIFO_in_step cfg pif st :
  file_in_step st -> file_in_step (snd (fst (ReadFIFO cfg pif st))).
Proof.
  intros H. rewrite ReadFIFO_unfold. cbn [fst snd]. unfold ReadFIFO_cycles.
  destruct (negb (acq_running st)); [exact H|].
  destruct (wait_threshold pif st POLL_TRIES 0 _) as [cycles nWords].
  destruct (drains st nWords); [|exact H].
  pose proof (drain_modules_files cfg pif nWords
                (seq 0 (n_cards (set_force_spill false st)))
                (set_force_spill false st) 0) as (Hf & _).
  assert (H0 : file_in_step (set_force_spill false st)) by exact H.
  pose proof (file_in_step_same _ _ Hf H0) as H1.
  destruct (drain_modules _ _ _ _ _ _) as [st1 e1|st1 d1 e1];
    cbn [drained_state fst snd] in *; [exact H1|].
  unfold flush_spill. destruct (record_data st1); [|exact H1].
  pose proof (write_data_in_step (fifoData st1) (w32 d1) st1 H1) as H2.
  destruct (write_data _ _ _) as [[w st2] e2]. exact H2.
Qed.

(** The file that is open is the file of [next_run_num]: it is so at the
    start, where no file is open, and stays so through every command and
    every tick of run control.  So a file that [write_data] changes for
    another is replaced by a file of its own run number. *)
Lemma file_in_step_kept cfg pif st cmd :
  file_in_step st ->
  file_in_step (tick_state (run_control_tick cfg pif st)) /\
  file_in_step (prompt_state (command_control_step cmd st)) /\
  (forall n disk, file_in_step (fresh n disk)).
Proof.
  intros H. split; [|split].
  - destruct (kill_check st) as [s0|] eqn:Hk.
    2:{ unfold run_control_tick. rewrite Hk. exact H. }
    rewrite (run_control_tick_unfold cfg pif st s0 Hk). cbv zeta. cbn [tick_state].
    assert (H0 : file_in_step s0).
    { unfold kill_check in Hk. destruct (kill_all st); [destruct (acq_running st)|];
        inversion Hk; subst; exact H. }
    set (s3 := fst (start_check pif (fst (mca_check (fst (reboot_check s0)))))).
    assert (H3 : file_in_step s3).
    { destruct (acq_running s0) eqn:Hacq.
      - pose proof (checks_running pif s0 Hacq) as HC. cbv zeta in HC. fold s3 in HC.
        destruct HC as (_ & _ & _ & _ & _ & _ & F & _).
        exact (file_in_step_same _ _ F H0).
      - pose proof (checks_idle pif s0 Hacq) as HC. cbv zeta in HC. fold s3 in HC.
        destruct HC as (_ & _ & _ & _ & _ & F & _).
        exact (file_in_step_same _ _ F H0). }
    destruct (acq_running s3) eqn:Hacq3.
    + rewrite acquire_running by exact Hacq3. cbv zeta.
      pose proof (ReadFIFO_in_step cfg pif s3 H3) as H4.
      set (s4 := snd (fst (ReadFIFO cfg pif s3))) in *.
      destruct (stop_acq s4); [|exact H4].
      set (s5 := set_acq_running false (set_stop_acq false s4)).
      pose proof (end_run_modules_idle cfg pif (seq 0 (n_cards s5)) s5 eq_refl) as HE.
      cbv zeta in HE. destruct HE as (_ & _ & F & _).
      cbn [fst]. exact (file_in_step_same _ _ F H4).
    + rewrite acquire_idle by exact Hacq3. exact H3.
  - unfold command_control_step.
    destruct (String.eqb _ "CTRL_C"); [exact H|].
    destruct (found tab _); [exact H|].
    destruct (String.eqb _ ""); [exact H|].
    destruct (split_command _) as [c a].
    apply dispatch_in_step. exact H.
  - intros n disk. unfold file_in_step. cbn. discriminate.
Qed.

(** ** The saved tails, from start to end *)

(** X13.  The words saved for a module never make up a whole event: if
    every saved tail is shorter than 16383 words, the longest an event
    can be, then so it is after any tick of run control and after any
    command, whatever the hardware answers.  Nothing is saved at the
    start, so the bound holds throughout. *)
Theorem saved_tails_stay_short cfg pif st cmd :
  sane cfg -> partial_ok st ->
  partial_ok (tick_state (run_control_tick cfg pif st)) /\
  partial_ok (prompt_state (command_control_step cmd st)) /\
  (forall n disk, partial_ok (fresh n disk)).
Proof.
  intros Hsane Hok. split; [|split].
  - destruct (kill_check st) as [s0|] eqn:Hk.
    2:{ unfold run_control_tick. rewrite Hk. exact Hok. }
    rewrite (run_control_tick_unfold cfg pif st s0 Hk). cbv zeta. cbn [tick_state].
    assert (H0 : partial_ok s0).
    { unfold kill_check in Hk. destruct (kill_all st); [destruct (acq_running st)|];
        inversion Hk; subst; exact Hok. }
    set (s3 := fst (start_check pif (fst (mca_check (fst (reboot_check s0)))))).
    assert (H3 : partial_ok s3).
    { destruct (acq_running s0) eqn:Hacq.
      - pose proof (checks_running pif s0 Hacq) as HC. cbv zeta in HC. fold s3 in HC.
        destruct HC as (_ & _ & _ & _ & _ & _ & _ & (_ & B) & _).
        exact (partial_ok_same _ _ B H0).
      - pose proof (checks_idle pif s0 Hacq) as HC. cbv zeta in HC. fold s3 in HC.
        destruct HC as (_ & _ & _ & _ & _ & _ & (_ & B) & _).
        exact (partial_ok_same _ _ B H0). }
    destruct (acq_running s3) eqn:Hacq3.
    + rewrite acquire_running by exact Hacq3. cbv zeta.
      pose proof (ReadFIFO_partial_ok cfg pif s3 Hsane H3) as H4.
      set (s4 := snd (fst (ReadFIFO cfg pif s3))) in *.
      destruct (stop_acq s4); [|exact H4].
      set (s5 := set_acq_running false (set_stop_acq false s4)).
      pose proof (end_run_modules_idle cfg pif (seq 0 (n_cards s5)) s5 eq_refl) as HE.
      cbv zeta in HE. destruct HE as (_ & (_ & B) & _).
      cbn [fst]. exact (partial_ok_same _ _ B H4).
    + rewrite acquire_idle by exact Hacq3. exact H3.
  - pose proof (command_control_step_acquisition cmd st) as (_ & _ & _ & _ & _ & B).
    exact (partial_ok_same _ _ B Hok).
  - intros n disk. apply fresh_partial_ok.
Qed.

(** A tick and a command on the state the program starts in. *)
Lemma saved_tails_stay_short_witness :
  partial_ok (tick_state (run_control_tick pixie16 empty_crate (fresh 1 good_disk))) /\
  partial_ok (prompt_state (command_control_step "status" (fresh 1 good_disk))).
Proof.
  pose proof (saved_tails_stay_short pixie16 empty_crate (fresh 1 good_disk) "status"
                pixie16_sane (fresh_partial_ok 1 good_disk)) as (H1 & H2 & _).
  split; [exact H1|exact H2].
Defined.

(** ** Headers *)

Lemma parse_events_channel buf slot module stop : forall fuel p es,
  existsb (is_print "Channel read not valid!")
    (snd (parse_events fuel buf slot module stop p es)) = false.
Proof.
  induction fuel as [|fuel IH]; intros p es; [reflexivity|].
  rewrite parse_events_S.
  destruct (p <? stop); [|reflexivity].
  destruct (bad_header slot (buf p)).
  { cbn [snd existsb is_print].
    destruct (negb (Header.slotRead (buf p) =? slot)); [reflexivity|].
    pose proof (chanRead_range (buf p)) as Hc.
    replace (Header.chanRead (buf p) <? 0) with false by (symmetry; apply Z.ltb_ge; lia).
    replace (15 <? Header.chanRead (buf p)) with false
      by (symmetry; apply Z.ltb_ge; lia).
    reflexivity. }
  specialize (IH (p + Header.eventSize (buf p)) (Header.eventSize (buf p))).
  destruct (parse_events fuel buf slot module stop _ _) as [[p' e'] evs].
  cbn [snd] in *. rewrite existsb_app, IH.
  destruct (negb (Header.virtualChannel (buf p))); reflexivity.
Qed.

(** X14.  The channel of an event is read from four bits, so the test
    [chanRead < 0 || chanRead > 15] of the parse loop never fails: no
    walk over the events of a segment, whatever the words, reports an
    invalid channel. *)
Theorem channel_check_never_fails fuel buf slot module stop p es :
  existsb (is_print "Channel read not valid!")
    (snd (parse_events fuel buf slot module stop p es)) = false.
Proof. apply parse_events_channel. Qed.

Lemma testbit_mask_size i :
  0 <= i -> Z.testbit 0x7FFE2000 (i + 17) = (i <? 14).
Proof.
  intros Hi. destruct (i <? 14) eqn:E.
  - apply Z.ltb_lt in E.
    assert (H : i = 0 \/ i = 1 \/ i = 2 \/ i = 3 \/ i = 4 \/ i = 5 \/ i = 6 \/
                i = 7 \/ i = 8 \/ i = 9 \/ i = 10 \/ i = 11 \/ i = 12 \/ i = 13) by lia.
    repeat (destruct H as [->|H]; [reflexivity|]). subst i. reflexivity.
  - apply Z.ltb_ge in E. apply Z.bits_above_log2; [lia|].
    change (Z.log2 0x7FFE2000) with 30. lia.
Qed.

(** X15.  The size of an event is the fourteen bits 17 to 30 of its first
    word: bit 13, which the mask [0x7FFE2000] also lets through, is
    shifted out and never counts.  The slot is the bits 4 to 7 and the
    channel the bits 0 to 3.  So a size is at most 16383, and a slot and
    a channel at most 15, whatever the word. *)
Theorem header_fields w :
  Header.eventSize w = (w / 2 ^ 17) mod 2 ^ 14 /\
  Header.slotRead w = (w / 2 ^ 4) mod 2 ^ 4 /\
  Header.chanRead w = w mod 2 ^ 4 /\
  0 <= Header.eventSize w <= 16383 /\
  0 <= Header.slotRead w <= 15 /\ 0 <= Header.chanRead w <= 15.
Proof.
  assert (Hsize : Header.eventSize w = (w / 2 ^ 17) mod 2 ^ 14).
  { unfold Header.eventSize. apply Z.bits_inj'. intros i Hi.
    rewrite Z.shiftr_spec, Z.land_spec by exact Hi.
    rewrite testbit_mask_size by exact Hi.
    destruct (i <? 14) eqn:E.
    - apply Z.ltb_lt in E.
      rewrite Z.mod_pow2_bits_low by lia.
      rewrite Z.div_pow2_bits by lia. rewrite andb_true_r. reflexivity.
    - apply Z.ltb_ge in E.
      rewrite Z.mod_pow2_bits_high by lia. apply andb_false_r. }
  assert (Hslot : Header.slotRead w = (w / 2 ^ 4) mod 2 ^ 4).
  { unfold Header.slotRead. apply Z.bits_inj'. intros i Hi.
    rewrite Z.shiftr_spec, Z.land_spec by exact Hi.
    destruct (i <? 4) eqn:E.
    - apply Z.ltb_lt in E.
      rewrite Z.mod_pow2_bits_low by lia.
      rewrite Z.div_pow2_bits by lia.
      assert (H : i = 0 \/ i = 1 \/ i = 2 \/ i = 3) by lia.
      destruct H as [-> | [-> | [-> | ->]]]; cbn [Z.add]; apply andb_true_r.
    - apply Z.ltb_ge in E.
      rewrite Z.mod_pow2_bits_high by lia.
      rewrite (Z.bits_above_log2 0xF0 (i + 4)) by (change (Z.log2 0xF0) with 7; lia).
      apply andb_false_r. }
  assert (Hchan : Header.chanRead w = w mod 2 ^ 4).
  { unfold Header.chanRead. change 0xF with (Z.ones 4). apply Z.land_ones. lia. }
  split; [exact Hsize|]. split; [exact Hslot|]. split; [exact Hchan|].
  rewrite Hsize, Hslot, Hchan.
  pose proof (Z.mod_pos_bound (w / 2 ^ 17) (2 ^ 14) ltac:(lia)).
  pose proof (Z.mod_pos_bound (w / 2 ^ 4) (2 ^ 4) ltac:(lia)).
  pose proof (Z.mod_pos_bound w (2 ^ 4) ltac:(lia)).
  lia.
Qed.

(** ** Writing below the ceiling *)

(** X16.  Let the file be open and let its size plus [4 * nWords + 65552] not
    exceed [MAX_FILE_SIZE], equality included.  Then [write_data] calls
    the file once, to write the [nWords] words of the spill: the file is
    not changed for another, it keeps its run number and its suffix, and
    the spill is appended to what it holds. *)
Theorem write_data_below_ceiling data nWords st :
  IsOpen (output_file st) = true ->
  0 <= nWords -> 4 * nWords + 65552 < 2 ^ 32 ->
  GetFilesize (output_file st) + 4 * nWords + 65552 <= MAX_FILE_SIZE ->
  let f := output_file st in
  let ws := load_words data 0 nWords in
  exists f' evs,
    write_data data nWords st = (4 * nWords, set_output_file f' st, evs) /\
    file_calls evs = [FileWrite ws] /\
    contents f' = contents f ++ ws /\
    GetFilesize f' = GetFilesize f + 4 * nWords /\
    GetRunNumber f' = GetRunNumber f /\ GetSuffix f' = GetSuffix f /\
    closed_files f' = closed_files f /\ IsOpen f' = true.
Proof.
  intros Hopen H0 H32 Hfit f ws.
  assert (Hlen : len ws = nWords) by (subst ws; apply len_load_words; exact H0).
  unfold write_data. rewrite Hopen. cbn [negb].
  rewrite (w32_small (4 * nWords + 65552)) by lia.
  replace (MAX_FILE_SIZE <? GetFilesize (output_file st) + (4 * nWords + 65552))
    with false by (symmetry; apply Z.ltb_ge; lia).
  unfold Write. rewrite Hopen. fold ws. rewrite Hlen.
  eexists; eexists. split; [reflexivity|].
  split; [destruct (is_quiet st); reflexivity|].
  cbn. auto 10.
Qed.

(** A spill that fills the file to the last byte allowed. *)
Lemma write_data_below_ceiling_witness :
  exists f' evs,
    write_data counting 2048 room_for_one
      = (4 * 2048, set_output_file f' room_for_one, evs) /\
    file_calls evs = [FileWrite (load_words counting 0 2048)] /\
    GetSuffix f' = 0.
Proof.
  destruct (write_data_below_ceiling counting 2048 room_for_one)
    as (f' & evs & H1 & H2 & _ & _ & _ & H6 & _);
    [reflexivity | lia | lia | vm_compute; discriminate |].
  exists f', evs. split; [exact H1|]. split; [exact H2|exact H6].
Defined.

(** X17.  When data is to be recorded and no file is open, [write_data]
    opens one first, for the next run number and not as a continuation,
    and the spill goes to that file; the flag [file_open] is set and
    [record_data] stays as it is. *)
Theorem write_data_opens_a_file data nWords st size :
  IsOpen (output_file st) = false ->
  disk_ok (output_file st) (attempts (output_file st)) = Some size ->
  0 <= nWords -> 4 * nWords + 65552 < 2 ^ 32 ->
  size + 4 * nWords + 65552 <= MAX_FILE_SIZE ->
  let ws := load_words data 0 nWords in
  exists st' evs,
    write_data data nWords st = (4 * nWords, st', evs) /\
    file_calls evs = [FileOpen (next_run_num st) false true; FileWrite ws] /\
    file_open st' = true /\ record_data st' = record_data st /\
    GetRunNumber (output_file st') = next_run_num st /\
    GetSuffix (output_file st') = 0 /\ contents (output_file st') = ws.
Proof.
  intros Hopen Hdisk H0 H32 Hfit ws.
  assert (Hlen : len ws = nWords) by (subst ws; apply len_load_words; exact H0).
  unfold write_data. rewrite Hopen. cbn [negb].
  unfold open_output_file, OpenNewFile. rewrite Hopen, Hdisk. cbn [negb].
  cbn [output_file set_output_file set_file_open GetFilesize].
  rewrite (w32_small (4 * nWords + 65552)) by lia.
  replace (MAX_FILE_SIZE <? size + (4 * nWords + 65552))
    with false by (symmetry; apply Z.ltb_ge; lia).
  unfold Write. cbn [IsOpen]. fold ws. rewrite Hlen.
  eexists; eexists. split; [reflexivity|].
  split; [cbn [is_quiet set_output_file set_file_open];
          destruct (is_quiet st); reflexivity|].
  cbn. auto 10.
Qed.

(** Recording is on and the first spill finds no file. *)
Lemma write_data_opens_a_file_witness :
  exists st' evs,
    write_data counting 2048 (set_record_data true (acquiring 1))
      = (4 * 2048, st', evs) /\
    file_calls evs = [FileOpen 1 false true; FileWrite (load_words counting 0 2048)] /\
    file_open st' = true.
Proof.
  destruct (write_data_opens_a_file counting 2048
              (set_record_data true (acquiring 1)) 0)
    as (st' & evs & H1 & H2 & H3 & _);
    [reflexivity | reflexivity | lia | lia | vm_compute; discriminate |].
  exists st', evs. split; [exact H1|]. split; [exact H2|exact H3].
Defined.

(** ** Splitting a string *)

Lemma split_loop_args d : forall rest temp args count count',
  fst (split_loop d rest temp args count)
  = args ++ fst (split_loop d rest temp [] count').
Proof.
  induction rest as [|c rest IH]; intros temp args count count'.
  - cbn. rewrite app_nil_r. reflexivity.
  - cbn [split_loop].
    destruct (Ascii.eqb c d || match rest with EmptyString => true | _ => false end).
    + rewrite (IH _ (args ++ _) _ 0), (IH _ ([] ++ _) _ 0).
      rewrite <- app_assoc. reflexivity.
    + apply IH.
Qed.

Lemma split_loop_count d : forall rest temp args count,
  0 <= count -> count + Z.of_nat (String.length rest) < 2 ^ 32 ->
  snd (split_loop d rest temp args count)
  = count + Z.of_nat (List.length (fst (split_loop d rest temp [] 0))).
Proof.
  induction rest as [|c rest IH]; intros temp args count H0 Hb.
  - cbn. lia.
  - cbn [split_loop]. cbn [String.length] in Hb.
    destruct (Ascii.eqb c d || match rest with EmptyString => true | _ => false end).
    + rewrite IH by (rewrite w32_small; lia).
      rewrite (split_loop_args d rest _ ([] ++ _) _ 0).
      rewrite w32_small by lia. rewrite length_app. cbn [List.length app]. lia.
    + rewrite IH by lia. reflexivity.
Qed.

Lemma string_app_assoc (a b c : string) : ((a ++ b) ++ c = a ++ (b ++ c))%string.
Proof. induction a as [|x a IH]; cbn; [reflexivity|]. rewrite IH. reflexivity. Qed.

Lemma string_app_nil_r (a : string) : (a ++ "" = a)%string.
Proof. induction a as [|x a IH]; cbn; [reflexivity|]. rewrite IH. reflexivity. Qed.

Lemma split_loop_nonempty d : forall rest temp,
  rest <> EmptyString -> fst (split_loop d rest temp [] 0) <> [].
Proof.
  induction rest as [|c rest IH]; intros temp Hne; [contradiction|].
  cbn [split_loop]. destruct rest as [|c' rest'].
  - rewrite orb_true_r. cbn. discriminate.
  - rewrite orb_false_r. destruct (Ascii.eqb c d).
    + rewrite (split_loop_args d _ _ ([] ++ _) _ 0). cbn. discriminate.
    + apply IH. discriminate.
Qed.

Lemma split_loop_concat d : forall rest temp,
  rest <> EmptyString ->
  String.concat (String d EmptyString) (fst (split_loop d rest temp [] 0))
  = (temp ++ rest)%string.
Proof.
  induction rest as [|c rest IH]; intros temp Hne; [contradiction|].
  cbn [split_loop]. destruct rest as [|c' rest'].
  - rewrite orb_true_r. cbn. reflexivity.
  - rewrite orb_false_r. destruct (Ascii.eqb c d) eqn:E.
    + apply Ascii.eqb_eq in E. subst c.
      rewrite (split_loop_args d _ _ ([] ++ _) _ 0). cbn [app].
      pose proof (split_loop_nonempty d (String c' rest') EmptyString
                    ltac:(discriminate)) as Hn.
      specialize (IH EmptyString ltac:(discriminate)).
      destruct (fst (split_loop d (String c' rest') EmptyString [] 0)) as [|p ps];
        [contradiction|].
      cbn [String.concat]. cbn [String.concat] in IH. rewrite IH.
      reflexivity.
    + rewrite IH by discriminate.
      rewrite string_app_assoc. reflexivity.
Qed.

(** X18.  [split_str] returns the number of arguments it has put into
    [args].  An empty string gives no argument.  A string that is not
    empty gives at least one, and the arguments joined by the delimiter
    are the string again: nothing is lost, not even an empty argument
    between two delimiters. *)
Theorem split_str_round_trip str_ delimiter_ :
  Z.of_nat (String.length str_) < 2 ^ 32 ->
  let args := fst (split_str str_ delimiter_) in
  snd (split_str str_ delimiter_) = Z.of_nat (List.length args) /\
  (str_ = EmptyString -> args = []) /\
  (str_ <> EmptyString ->
   args <> [] /\ String.concat (String delimiter_ EmptyString) args = str_).
Proof.
  intros Hlen args. subst args. unfold split_str.
  split; [rewrite split_loop_count by lia; lia|].
  split; [intros ->; reflexivity|].
  intros Hne. split; [apply split_loop_nonempty; exact Hne|].
  rewrite split_loop_concat by exact Hne. reflexivity.
Qed.

(** [1 2  TAU]: four arguments, one of them empty. *)
Lemma split_str_round_trip_witness :
  split_str "1 2  TAU" " " = (["1"; "2"; ""; "TAU"]%string, 4) /\
  String.concat " " (fst (split_str "1 2  TAU" " ")) = "1 2  TAU"%string.
Proof.
  split; [reflexivity|].
  apply (split_str_round_trip "1 2  TAU" " "); [vm_compute; reflexivity|discriminate].
Defined.

Lemma contains_app c (a b : string) :
  contains c (a ++ b) = contains c a || contains c b.
Proof.
  induction a as [|x a IH]; cbn; [reflexivity|]. rewrite IH. apply orb_assoc.
Qed.

Lemma length_snoc (a : string) c :
  String.length (a ++ String c EmptyString) = S (String.length a).
Proof. induction a as [|x a IH]; cbn; [reflexivity|]. rewrite IH. reflexivity. Qed.

Lemma substring_snoc (a : string) c :
  substring 0 (String.length a) (a ++ String c EmptyString) = a.
Proof. induction a as [|x a IH]; cbn; [reflexivity|]. rewrite IH. reflexivity. Qed.

Lemma but_last_snoc (a : string) c : but_last (a ++ String c EmptyString) = a.
Proof.
  unfold but_last. rewrite length_snoc.
  replace (S (String.length a) - 1)%nat with (String.length a) by lia.
  apply substring_snoc.
Qed.

Lemma split_loop_pieces d : forall rest temp,
  contains d temp = false ->
  let args := fst (split_loop d rest temp [] 0) in
  (forall a, In a (removelast args) -> contains d a = false) /\
  contains d (but_last (last args EmptyString)) = false.
Proof.
  induction rest as [|c rest IH]; intros temp Ht.
  - cbn. split; [intros a []|reflexivity].
  - cbn [split_loop]. destruct rest as [|c' rest'].
    + rewrite orb_true_r. cbn [split_loop app fst removelast last].
      split; [intros a []|]. rewrite but_last_snoc. exact Ht.
    + rewrite orb_false_r. destruct (Ascii.eqb c d) eqn:E.
      * rewrite (split_loop_args d _ _ ([] ++ _) _ 0). cbn [app].
        pose proof (split_loop_nonempty d (String c' rest') EmptyString
                      ltac:(discriminate)) as Hn.
        specialize (IH EmptyString eq_refl). cbv zeta in IH.
        destruct (fst (split_loop d (String c' rest') EmptyString [] 0)) as [|p ps];
          [contradiction|].
        destruct IH as (IH1 & IH2). split.
        -- intros a Ha. change (removelast (temp :: p :: ps))
             with (temp :: removelast (p :: ps)) in Ha.
           destruct Ha as [<-|Ha]; [exact Ht|apply IH1; exact Ha].
        -- exact IH2.
      * apply IH. rewrite contains_app, Ht. cbn. rewrite E. reflexivity.
Qed.

(** X19.  No argument [split_str] returns holds the delimiter, but for the
    last one in its last place: the last character of the string goes
    into the last argument whatever it is, so that a string ending with
    the delimiter gives a last argument ending with it. *)
Theorem split_str_last_argument str_ delimiter_ :
  let args := fst (split_str str_ delimiter_) in
  (forall a, In a (removelast args) -> contains delimiter_ a = false) /\
  contains delimiter_ (but_last (last args EmptyString)) = false /\
  (forall front,
     str_ = (front ++ String delimiter_ EmptyString)%string ->
     exists a, last args EmptyString = (a ++ String delimiter_ EmptyString)%string).
Proof.
  cbv zeta. unfold split_str.
  pose proof (split_loop_pieces delimiter_ str_ EmptyString eq_refl) as (H1 & H2).
  split; [exact H1|]. split; [exact H2|].
  intros front ->. clear H1 H2.
  assert (G : forall front temp,
            exists a,
              last (fst (split_loop delimiter_
                           (front ++ String delimiter_ EmptyString) temp [] 0))
                EmptyString
              = (a ++ String delimiter_ EmptyString)%string).
  { clear front. induction front as [|c front IH]; intros temp.
    - cbn. rewrite Ascii.eqb_refl. cbn. eauto.
    - cbn [append split_loop].
      destruct (front ++ String delimiter_ EmptyString)%string as [|c' rest'] eqn:Er.
      { destruct front; discriminate. }
      rewrite orb_false_r. destruct (Ascii.eqb c delimiter_).
      + rewrite (split_loop_args delimiter_ _ _ ([] ++ _) _ 0). cbn [app].
        pose proof (split_loop_nonempty delimiter_ (String c' rest') EmptyString
                      ltac:(discriminate)) as Hn.
        destruct (IH EmptyString) as (a & Ha).
        destruct (fst (split_loop delimiter_ (String c' rest') EmptyString [] 0))
          as [|p ps]; [contradiction|].
        exists a. exact Ha.
      + apply IH. }
  apply G.
Qed.

(** ** Padding a string *)

Lemma length_app_string (a b : string) :
  String.length (a ++ b) = (String.length a + String.length b)%nat.
Proof. induction a as [|x a IH]; cbn; [reflexivity|]. rewrite IH. reflexivity. Qed.

Lemma dots_length n : String.length (dots n) = n.
Proof. induction n as [|n IH]; cbn; [reflexivity|]. f_equal. exact IH. Qed.

Lemma pad_loop_pads length_ : forall n fuel i output,
  length_ < 2 ^ 32 - 1 -> 0 <= i -> Z.of_nat n = length_ + 1 - i -> (n < fuel)%nat ->
  pad_loop fuel i length_ output = Some (output ++ dots n)%string.
Proof.
  induction n as [|n IH]; intros fuel i output Hl Hi Hn Hf;
    (destruct fuel as [|fuel]; [lia|]); cbn [pad_loop].
  - replace (i <=? length_) with false by (symmetry; apply Z.leb_gt; lia).
    cbn. rewrite string_app_nil_r. reflexivity.
  - replace (i <=? length_) with true by (symmetry; apply Z.leb_le; lia).
    rewrite w32_small by lia.
    rewrite (IH fuel (i + 1)) by lia.
    rewrite string_app_assoc. reflexivity.
Qed.

Lemma pad_loop_forever : forall fuel i output,
  0 <= i < 2 ^ 32 -> pad_loop fuel i (2 ^ 32 - 1) output = None.
Proof.
  induction fuel as [|fuel IH]; intros i output Hi; [reflexivity|].
  cbn [pad_loop].
  replace (i <=? 2 ^ 32 - 1) with true by (symmetry; apply Z.leb_le; lia).
  apply IH. apply w32_is_word.
Qed.

(** X20.  [pad_string] returns its input followed by dots up to a length
    of [length_ + 1] characters, one more than the length asked for (the
    loop runs while [i <= length_]); an input that is longer comes back
    as it is.  For [length_] = 2^32 - 1 the test of the loop holds for
    every value of its counter and the function does not return. *)
Theorem pad_string_pads_one_past input_ length_ :
  Z.of_nat (String.length input_) < 2 ^ 32 -> 0 <= length_ < 2 ^ 32 ->
  let size := Z.of_nat (String.length input_) in
  (length_ < 2 ^ 32 - 1 ->
   let n := Z.to_nat (length_ + 1 - size) in
   forall fuel, (n < fuel)%nat ->
     pad_string fuel input_ length_ = Some (input_ ++ dots n)%string /\
     (size <= length_ ->
      Z.of_nat (String.length (input_ ++ dots n)) = length_ + 1) /\
     (length_ < size -> (input_ ++ dots n)%string = input_)) /\
  (length_ = 2 ^ 32 - 1 -> forall fuel, pad_string fuel input_ length_ = None).
Proof.
  intros Hsize Hlen size. split.
  - intros Hl n fuel Hf. unfold pad_string.
    rewrite w32_small by lia. fold size.
    destruct (Z_le_gt_dec size length_) as [Hle|Hgt].
    + rewrite (pad_loop_pads length_ n) by lia.
      split; [reflexivity|]. split; [|lia].
      intros _. rewrite length_app_string, dots_length. lia.
    + assert (Hn : n = 0%nat) by lia. rewrite Hn in *.
      destruct fuel as [|fuel]; [lia|]. cbn [pad_loop].
      replace (size <=? length_) with false by (symmetry; apply Z.leb_gt; lia).
      cbn [dots repeat string_of_list_ascii]. rewrite string_app_nil_r.
      split; [reflexivity|]. split; [lia|reflexivity].
  - intros -> fuel. unfold pad_string. apply pad_loop_forever. apply w32_is_word.
Qed.

(** [TAU] padded to the length 6 has 7 characters. *)
Lemma pad_string_pads_one_past_witness :
  pad_string 10 "TAU" 6 = Some "TAU...."%string.
Proof.
  apply (pad_string_pads_one_past "TAU" 6); [vm_compute; reflexivity|lia|lia|cbn; lia].
Defined.

(** ** Tab completion *)

Lemma prefix_app (s m : string) : prefix s (s ++ m) = true.
Proof.
  induction s as [|c s IH]; cbn.
  - destruct m; reflexivity.
  - destruct (Ascii.ascii_dec c c); [exact IH|contradiction].
Qed.

Lemma substring_all (m : string) : substring 0 (String.length m) m = m.
Proof. induction m as [|c m IH]; cbn; [reflexivity|]. rewrite IH. reflexivity. Qed.

Lemma substr_from_app (s m : string) : substr_from (String.length s) (s ++ m) = m.
Proof.
  unfold substr_from. rewrite length_app_string.
  replace (String.length s + String.length m - String.length s)%nat
    with (String.length m) by lia.
  induction s as [|c s IH]; cbn; [apply substring_all|exact IH].
Qed.

Lemma prefix_split (s : string) : forall it,
  prefix s it = true -> it = (s ++ substr_from (String.length s) it)%string.
Proof.
  induction s as [|c s IH]; intros it H.
  - cbn. unfold substr_from. rewrite Nat.sub_0_r, substring_all. reflexivity.
  - destruct it as [|b it]; cbn in H; [discriminate|].
    destruct (Ascii.ascii_dec c b) as [->|]; [|discriminate].
    cbn. f_equal. unfold substr_from in *. cbn. apply IH. exact H.
Qed.

Lemma completions_spec words s m :
  In m (completions words s) <-> In (s ++ m)%string words.
Proof.
  unfold completions. rewrite in_flat_map. split.
  - intros (it & Hit & Hm).
    destruct (prefix s it) eqn:E; [|destruct Hm].
    destruct Hm as [<-|[]]. rewrite <- (prefix_split s it E). exact Hit.
  - intros H. exists (s ++ m)%string. split; [exact H|].
    rewrite prefix_app, substr_from_app. left. reflexivity.
Qed.

Lemma substring_at c w : forall front,
  substring (String.length front) 1 (front ++ String c w) = String c EmptyString.
Proof.
  induction front as [|a front IH]; cbn; [|exact IH].
  destruct w; reflexivity.
Qed.

(** A line that ends with a tab holds a tab. *)
Lemma found_tab_snoc cmd : found tab (cmd ++ tab) = true.
Proof.
  unfold found. destruct (index 0 tab (cmd ++ tab)) eqn:E; [reflexivity|].
  exfalso.
  apply (index_correct3 0 (String.length cmd) tab _ E);
    [discriminate | lia | apply substring_at].
Qed.

(** X21.  For a line without a space, [TabComplete] proposes exactly the
    endings that turn the line into one of its commands: [m] is proposed
    if and only if the line followed by [m] is in the list.  A line that
    is a command already gets the empty ending.  When the terminal
    returns such a line followed by a tab, [command_control] hands the
    proposals for the line without the tab to the terminal and does
    nothing else: the state is as before, [had_error] included. *)
Theorem TabComplete_commands cmd :
  index 0 " " cmd = None ->
  (forall m, In m (TabComplete cmd) <-> In (cmd ++ m)%string commands) /\
  (In cmd commands -> In EmptyString (TabComplete cmd)) /\
  (forall st,
     command_control_step (cmd ++ tab) st
     = Back st [TermTabComplete (TabComplete cmd)]).
Proof.
  intros Hsp. split; [|split].
  - unfold TabComplete. rewrite Hsp. intros m. apply completions_spec.
  - unfold TabComplete. rewrite Hsp.
    intros Hin. apply completions_spec. rewrite string_app_nil_r. exact Hin.
  - intros st. unfold command_control_step.
    pose proof (found_tab_snoc cmd) as Hf.
    destruct (String.eqb (cmd ++ tab) "CTRL_D") eqn:E1.
    { apply String.eqb_eq in E1. rewrite E1 in Hf. discriminate Hf. }
    destruct (String.eqb (cmd ++ tab) "CTRL_C") eqn:E2.
    { apply String.eqb_eq in E2. rewrite E2 in Hf. discriminate Hf. }
    rewrite Hf. unfold tab_request. fold (but_last (cmd ++ tab)). unfold tab.
    rewrite but_last_snoc. reflexivity.
Qed.

(** [st] is completed to [start], [startacq], [status], [stop], [stopacq],
    and that is what the terminal gets for [st] and a tab. *)
Lemma TabComplete_commands_witness :
  In "atus"%string (TabComplete "st") /\
  command_control_step ("st" ++ tab) (set_had_error true (acquiring 1))
  = Back (set_had_error true (acquiring 1))
      [TermTabComplete ["art"; "artacq"; "op"; "opacq"; "atus"]%string].
Proof.
  destruct (TabComplete_commands "st" eq_refl) as (H1 & _ & H3).
  split; [apply H1; cbn; tauto|].
  rewrite H3. reflexivity.
Defined.

Lemma find_last_of_none c : forall w,
  contains c w = false -> find_last_of c w = None.
Proof.
  induction w as [|a w IH]; intros H; [reflexivity|].
  cbn in *. apply orb_false_iff in H. destruct H as (Ha & Hw).
  rewrite (IH Hw), Ha. reflexivity.
Qed.

Lemma find_last_of_app c w : forall front,
  contains c w = false ->
  find_last_of c (front ++ String c w) = Some (String.length front).
Proof.
  intros front Hw. induction front as [|a front IH]; cbn.
  - rewrite (find_last_of_none c w Hw), Ascii.eqb_refl. reflexivity.
  - cbn in IH. rewrite IH. reflexivity.
Qed.

Lemma index_space front w : index 0 " " (front ++ String " " w) <> None.
Proof.
  intros H.
  apply (index_correct3 0 (String.length front) " " _ H);
    [discriminate | lia | apply substring_at].
Qed.

(** X22.  For a line with a space, what [TabComplete] completes is the text
    after the last space.  The proposals are the endings that turn that
    text into the name of a channel parameter, when the line starts with
    [pwrite] or [pread], and into the name of a module parameter, when
    it starts with [pmwrite] or [pmread]; a line that starts with none of
    the four gets no proposal. *)
Theorem TabComplete_arguments front w :
  contains " " w = false ->
  let cmd := (front ++ String " " w)%string in
  (forall m,
     In m (TabComplete cmd) <->
     ((prefix "pwrite" cmd || prefix "pread" cmd = true
       /\ In (w ++ m)%string chan_params) \/
      (prefix "pmwrite" cmd || prefix "pmread" cmd = true
       /\ In (w ++ m)%string mod_params))) /\
  (prefix "pwrite" cmd || prefix "pread" cmd
   || prefix "pmwrite" cmd || prefix "pmread" cmd = false ->
   TabComplete cmd = []).
Proof.
  intros Hw cmd.
  assert (Hlast : substr_from (S (String.length front)) cmd = w).
  { subst cmd.
    replace (front ++ String " " w)%string
      with ((front ++ String " " EmptyString) ++ w)%string
      by (rewrite string_app_assoc; reflexivity).
    rewrite <- (length_snoc front " "). apply substr_from_app. }
  unfold TabComplete.
  destruct (index 0 " " cmd) eqn:Ei; [|exfalso; exact (index_space front w Ei)].
  subst cmd. rewrite (find_last_of_app " " w front Hw).
  cbv zeta. rewrite Hlast. split.
  - intros m. rewrite in_app_iff.
    destruct (prefix "pwrite" _ || prefix "pread" _);
      destruct (prefix "pmwrite" _ || prefix "pmread" _);
      rewrite ?completions_spec; cbn [In]; intuition discriminate.
  - intros H. apply orb_false_iff in H. destruct H as (H & H4).
    apply orb_false_iff in H. destruct H as (H & H3).
    rewrite H, H3, H4. cbn. reflexivity.
Qed.

(** [pwrite 0 0 TRIGGER_R] is completed to [TRIGGER_RISETIME]. *)
Lemma TabComplete_arguments_witness :
  In "ISETIME"%string (TabComplete "pwrite 0 0 TRIGGER_R").
Proof.
  apply (TabComplete_arguments "pwrite 0 0" "TRIGGER_R" eq_refl).
  left. split; [reflexivity|]. cbn. tauto.
Defined.

(** X23.  Of the words tab completion proposes, the interpreter does not
    know two, [start] and [runtitle]: it answers them, and no other word
    of the list, with "Unknown command", in every state and whatever the
    argument.  The command [run], which starts a run, is not in the
    list. *)
Theorem completion_proposes_unknown_commands arg st :
  forallb
    (fun c =>
       Bool.eqb (is_unknown (dispatch c arg st))
         (String.eqb c "start" || String.eqb c "runtitle"))
    commands = true /\
  existsb (String.eqb "run") commands = false /\
  dispatch "run" arg st = Back (snd (fst (StartRun st))) (snd (StartRun st)).
Proof.
  split; [|split; [reflexivity|]].
  - apply forallb_forall. intros c Hin. unfold commands in Hin. cbn [In] in Hin.
    repeat (destruct Hin as [<-|Hin];
            [unfold dispatch, toggled, StartAcq, StopRun, StopAcq, close_output_file;
             cbn [is_cmd String.eqb Ascii.eqb Bool.eqb orb andb negb];
             repeat match goal with
                    | |- context [if ?b then _ else _] => destruct b; cbn
                    end;
             first [reflexivity
                   |destruct (split_str arg default_delimiter) as [arguments p_args];
                    destruct (mca_arguments_events p_args arguments (mca_args st))
                      as [E|E];
                    destruct (mca_arguments p_args arguments (mca_args st)) as [a e];
                    cbn [snd] in E; subst e; reflexivity]|]).
    destruct Hin.
  - unfold dispatch. cbn [is_cmd String.eqb Ascii.eqb Bool.eqb orb].
    destruct (StartRun st) as [[b s] e]. reflexivity.
Qed.

(** ** Start-up *)

Lemma synch_loop_spec pif : forall mods hadError,
  (fst (synch_loop pif mods hadError) = false <->
   hadError = false /\
   forall m, In m mods -> WriteSglModPar pif "IN_SYNCH" 0 m = true) /\
  snd (synch_loop pif mods hadError) = map (WroteModPar "IN_SYNCH" 0) mods.
Proof.
  induction mods as [|m mods IH]; intros hadError.
  - cbn. split; [|reflexivity]. split; [intros ->; split; [reflexivity|intros m []]|].
    intros (H & _). exact H.
  - cbn [synch_loop].
    specialize (IH (if negb (WriteSglModPar pif "IN_SYNCH" 0 m)
                    then true else hadError)).
    destruct (synch_loop pif mods _) as [h evs]. cbn [fst snd] in *.
    destruct IH as (IH1 & IH2). split; [|rewrite IH2; reflexivity].
    rewrite IH1. split.
    + intros (Hh & Hall).
      destruct (WriteSglModPar pif "IN_SYNCH" 0 m) eqn:E; cbn in Hh; [|discriminate].
      split; [exact Hh|]. intros k [<-|Hk]; [exact E|apply Hall; exact Hk].
    + intros (Hh & Hall). rewrite (Hall m (or_introl eq_refl)). cbn.
      split; [exact Hh|]. intros k Hk. apply Hall. right. exact Hk.
Qed.

Lemma synch_mods_unfold pif first :
  synch_mods pif first =
  let bad_wait := first && negb (WriteSglModPar pif "SYNCH_WAIT" 1 0) in
  let hadError := fst (synch_loop pif (seq 0 (GetNumberCards pif)) bad_wait) in
  (negb hadError, false,
   [Said "Synchronizing"]
   ++ (if first then [WroteModPar "SYNCH_WAIT" 1 0] else [])
   ++ map (WroteModPar "IN_SYNCH" 0) (seq 0 (GetNumberCards pif))
   ++ [Said (if negb hadError then "OkayStr" else "ErrorStr")]).
Proof.
  unfold synch_mods. destruct first; cbn [andb];
    match goal with
    | |- context [synch_loop ?p ?l ?h] =>
        pose proof (synch_loop_spec p l h) as (_ & Hs);
        destruct (synch_loop p l h) as [h' evs]
    end; cbn [fst snd] in *; rewrite Hs; reflexivity.
Qed.

(** X24.  [synch_mods] writes [IN_SYNCH] to every module of the crate,
    going on after a write that fails, and returns true exactly when
    every write it made succeeded.  [SYNCH_WAIT] is written to module 0 on
    the first call only, whether that write succeeds or not: when it is
    the one write that fails, the call returns false and the next call,
    which does not repeat it, returns true. *)
Theorem synch_mods_writes_every_module pif first :
  let r := synch_mods pif first in
  let every_module :=
    forall m, (m < GetNumberCards pif)%nat ->
      WriteSglModPar pif "IN_SYNCH" 0 m = true in
  (fst (fst r) = true <->
   (first = true -> WriteSglModPar pif "SYNCH_WAIT" 1 0 = true) /\ every_module) /\
  snd (fst r) = false /\
  (forall m, (m < GetNumberCards pif)%nat ->
     In (WroteModPar "IN_SYNCH" 0 m) (snd r)) /\
  (In (WroteModPar "SYNCH_WAIT" 1 0) (snd r) <-> first = true) /\
  (first = true -> WriteSglModPar pif "SYNCH_WAIT" 1 0 = false -> every_module ->
   fst (fst r) = false /\ fst (fst (synch_mods pif (snd (fst r)))) = true).
Proof.
  cbv zeta. rewrite synch_mods_unfold. cbv zeta. cbn [fst snd].
  pose proof (synch_loop_spec pif (seq 0 (GetNumberCards pif))
                (first && negb (WriteSglModPar pif "SYNCH_WAIT" 1 0))) as (Hl & _).
  assert (Hseq : (forall m, In m (seq 0 (GetNumberCards pif)) ->
                    WriteSglModPar pif "IN_SYNCH" 0 m = true) <->
                 (forall m, (m < GetNumberCards pif)%nat ->
                    WriteSglModPar pif "IN_SYNCH" 0 m = true)).
  { split; intros H m Hm; apply H; [apply in_seq; lia|apply in_seq in Hm; lia]. }
  split; [|split; [reflexivity|split; [|split]]].
  - rewrite negb_true_iff, Hl, Hseq.
    destruct first, (WriteSglModPar pif "SYNCH_WAIT" 1 0); cbn;
      intuition discriminate.
  - intros m Hm. apply in_or_app. right. apply in_or_app. right.
    apply in_or_app. left. apply in_map. apply in_seq. lia.
  - rewrite !in_app_iff, in_map_iff. destruct first; cbn [In]; split.
    + reflexivity.
    + intros _. right. left. left. reflexivity.
    + intros [[H|[]]|[[]|[(x & Hx & _)|[H|[]]]]]; discriminate.
    + discriminate.
  - intros -> Hw Hall. rewrite Hw. cbn [andb negb].
    split.
    + apply negb_false_iff.
      destruct (fst (synch_loop pif (seq 0 (GetNumberCards pif)) true)) eqn:E;
        [reflexivity|].
      pose proof (synch_loop_spec pif (seq 0 (GetNumberCards pif)) true) as (H & _).
      apply H in E. destruct E. discriminate.
    + rewrite synch_mods_unfold. cbv zeta. cbn [fst andb].
      apply negb_true_iff.
      pose proof (synch_loop_spec pif (seq 0 (GetNumberCards pif)) false) as (H & _).
      apply H. split; [reflexivity|]. apply Hseq. exact Hall.
Qed.

Lemma initialize_unfold pif s :
  init s = false -> Init pif = true -> Boot pif (boot_fast s) = true ->
  fst (fst (initialize pif s)) = fst (fst (synch_mods pif (firstTime s))) /\
  firstTime (snd (fst (initialize pif s))) = false /\
  boot_fast (snd (fst (initialize pif s))) = boot_fast s /\
  init (snd (fst (initialize pif s))) = fst (fst (synch_mods pif (firstTime s))) /\
  (fst (fst (synch_mods pif (firstTime s))) = true ->
   n_cards (poll (snd (fst (initialize pif s)))) = GetNumberCards pif /\
   last (snd (initialize pif s)) GotSlots = ClientInit) /\
  (fst (fst (synch_mods pif (firstTime s))) = false ->
   poll (snd (fst (initialize pif s))) = poll s /\
   ~ In ClientInit (snd (initialize pif s))).
Proof.
  intros Hi HI HB. unfold initialize. rewrite Hi, HI, HB. cbn [negb].
  rewrite synch_mods_unfold. cbv zeta.
  destruct (negb (fst (synch_loop pif _ _))) eqn:E; cbn [negb fst snd init firstTime
    boot_fast poll n_cards].
  - split; [reflexivity|]. split; [reflexivity|]. split; [reflexivity|].
    split; [reflexivity|]. split; [|discriminate]. intros _.
    split; [reflexivity|].
    match goal with |- last (?l ++ [?a; ?b]) _ = _ =>
      change (l ++ [a; b]) with (l ++ [a] ++ [b]); rewrite !app_assoc
    end.
    apply last_last.
  - split; [reflexivity|]. split; [reflexivity|]. split; [reflexivity|].
    split; [reflexivity|]. split; [discriminate|]. intros _.
    split; [reflexivity|].
    rewrite !in_app_iff, in_map_iff.
    destruct (debug_mode (poll s)), (firstTime s); cbn [In];
      intros H; decompose [or ex and] H; try discriminate; try contradiction.
Qed.

(** X25.  [initialize] succeeds exactly when the program is not initialised
    yet and the interface, the boot and the synchronisation of the modules
    all succeed.  It then sets [init], takes the number of cards of the
    crate and opens the connection to the subscriber as its last step; a
    second [initialize] returns false and does nothing.  When it fails,
    [init] and the state of the acquisition are as before and the
    connection is not opened. *)
Theorem initialize_once pif s :
  let r := initialize pif s in
  let s' := snd (fst r) in
  (fst (fst r) = true <->
   init s = false /\ Init pif = true /\ Boot pif (boot_fast s) = true /\
   fst (fst (synch_mods pif (firstTime s))) = true) /\
  (fst (fst r) = true ->
   init s' = true /\ n_cards (poll s') = GetNumberCards pif /\
   last (snd r) GotSlots = ClientInit /\
   initialize pif s' = (false, s', [])) /\
  (fst (fst r) = false ->
   init s' = init s /\ poll s' = poll s /\ ~ In ClientInit (snd r)).
Proof.
  cbv zeta.
  destruct (init s) eqn:Hi.
  { unfold initialize. rewrite Hi. cbn [fst snd].
    split; [split; [discriminate|intros (H & _); discriminate]|].
    split; [discriminate|]. intros _. rewrite Hi. auto. }
  destruct (Init pif) eqn:HI.
  2:{ unfold initialize. rewrite Hi, HI. cbn [negb fst snd].
      split; [split; [discriminate|intros (_ & H & _); discriminate]|].
      split; [discriminate|]. intros _. rewrite Hi.
      split; [reflexivity|]. split; [reflexivity|].
      rewrite in_app_iff. destruct (debug_mode (poll s)); cbn [In];
        intros H; decompose [or] H; try discriminate; try contradiction. }
  destruct (Boot pif (boot_fast s)) eqn:HB.
  2:{ unfold initialize. rewrite Hi, HI, HB. cbn [negb fst snd].
      split; [split; [discriminate|intros (_ & _ & H & _); discriminate]|].
      split; [discriminate|]. intros _. rewrite Hi.
      split; [reflexivity|]. split; [reflexivity|].
      rewrite in_app_iff. destruct (debug_mode (poll s)); cbn [In];
        intros H; decompose [or] H; try discriminate; try contradiction. }
  destruct (initialize_unfold pif s Hi HI HB) as (H1 & H2 & H3 & H4 & H5 & H6).
  rewrite H1. split; [tauto|]. split.
  - intros Hok. destruct (H5 Hok) as (H7 & H8).
    split; [rewrite H4; exact Hok|]. split; [exact H7|]. split; [exact H8|].
    unfold initialize at 1. rewrite H4, Hok. reflexivity.
  - intros Hko. destruct (H6 Hko) as (H7 & H8).
    split; [rewrite H4; exact Hko|]. split; [exact H7|exact H8].
Qed.

(** X26.  [close] does something only when the program is initialised: it
    then tells the subscriber to end, closes the output file if one is
    open, and clears [init], so that a second [close] returns false and
    does nothing.  Without [init] it returns false and touches nothing,
    not even an open file. *)
Theorem close_once s :
  let r := close s in
  let s' := snd (fst r) in
  fst (fst r) = init s /\ init s' = false /\
  (init s = false -> r = (false, s, [])) /\
  (init s = true ->
   nth 0 (snd r) DeletedPif = Core (SendText "$KILL_SOCKET" 13) /\
   (In (Core FileClose) (snd r) <-> IsOpen (output_file (poll s)) = true) /\
   IsOpen (output_file (poll s')) = false /\
   close s' = (false, s', [])).
Proof.
  cbv zeta. destruct (init s) eqn:Hi.
  2:{ assert (Hc : close s = (false, s, []))
        by (unfold close; rewrite Hi; reflexivity).
      rewrite Hc. cbn [fst snd]. rewrite Hi.
      split; [reflexivity|]. split; [reflexivity|].
      split; [reflexivity|discriminate]. }
  assert (Hc : exists p evs,
             close s =
               (true,
                {| poll := p; init := false; boot_fast := boot_fast s;
                   firstTime := firstTime s |},
                [Core (SendText "$KILL_SOCKET" 13); ClientClose] ++ map Core evs
                ++ [DeletedPif]) /\
             IsOpen (output_file p) = false /\
             (In FileClose evs <-> IsOpen (output_file (poll s)) = true)).
  { unfold close. rewrite Hi. cbn [negb].
    unfold close_output_file. cbn [output_file set_file_open].
    destruct (IsOpen (output_file (poll s))) eqn:Ho; cbn [negb].
    - eexists; eexists. split; [reflexivity|]. split; [reflexivity|].
      cbn. intuition discriminate.
    - eexists; eexists. split; [reflexivity|]. split; [exact Ho|].
      cbn. intuition discriminate. }
  destruct Hc as (p & evs & Hc & Hp & Hf). rewrite Hc. cbn [fst snd init poll].
  split; [reflexivity|]. split; [reflexivity|]. split; [discriminate|].
  intros _. split; [reflexivity|]. split; [|split; [exact Hp|reflexivity]].
  rewrite <- Hf. cbn [app In]. rewrite in_app_iff, in_map_iff. split.
  - intros [H|[H|[(e & He & Hin)|[H|[]]]]]; try discriminate.
    inversion He; subst. exact Hin.
  - intros H. right. right. left. exists FileClose. split; [reflexivity|exact H].
Qed.

(** ** The arguments of [mca] *)

(** Nothing but the [mca] command and the MCA run touches [mca_args]. *)
Lemma close_output_file_mca c st :
  mca_args (snd (fst (close_output_file c st))) = mca_args st.
Proof.
  unfold close_output_file. cbn [output_file set_file_open].
  destruct (IsOpen (output_file st)); [destruct c|]; reflexivity.
Qed.

Lemma open_output_file_mca c st :
  mca_args (snd (fst (open_output_file c st))) = mca_args st.
Proof.
  unfold open_output_file, OpenNewFile.
  destruct (IsOpen (output_file st)); cbn [negb]; [reflexivity|].
  destruct (disk_ok _ _); reflexivity.
Qed.

Lemma write_data_mca data nWords st :
  mca_args (snd (fst (write_data data nWords st))) = mca_args st.
Proof.
  unfold write_data.
  pose proof (open_output_file_mca false st) as H0.
  destruct (negb (IsOpen (output_file st)));
    [destruct (open_output_file false st) as [[b0 s0] e0]; cbn [fst snd] in H0
    |set (s0 := st); assert (H0' : mca_args s0 = mca_args st) by reflexivity;
     clear H0; rename H0' into H0];
    (destruct (MAX_FILE_SIZE <? _);
     [pose proof (close_output_file_mca true s0) as H1;
      destruct (close_output_file true s0) as [[b1 s1] e1];
      pose proof (open_output_file_mca true s1) as H2;
      destruct (open_output_file true s1) as [[b2 s2] e2]; cbn [fst snd] in H1, H2|]);
    destruct (Write _ _) as [w f]; cbn [fst snd mca_args set_output_file];
    congruence.
Qed.

Lemma drain_module_mca cfg pif module W st d :
  mca_args (drained_state (drain_module cfg pif module W st d)) = mca_args st.
Proof.
  unfold drain_module.
  destruct (W <? MIN_FIFO_READ cfg); [reflexivity|].
  destruct (W <? 0); [reflexivity|].
  destruct (EXTERNAL_FIFO_LENGTH cfg <=? W); [reflexivity|].
  destruct (ReadFIFOWords pif module W); [|reflexivity].
  destruct (parse_events _ _ _ _ _ _ _) as [[p e] evs].
  destruct (_ <? p); [|destruct (p <? _)]; reflexivity.
Qed.

Lemma drain_modules_mca cfg pif nWords modules : forall st d,
  mca_args (drained_state (drain_modules cfg pif nWords modules st d)) = mca_args st.
Proof.
  induction modules as [|m rest IH]; intros st d; cbn [drain_modules drained_state];
    [reflexivity|].
  pose proof (drain_module_mca cfg pif m (nth m nWords 0) st d) as H1.
  destruct (drain_module cfg pif m (nth m nWords 0) st d) as [s1 e1|s1 d1 e1];
    cbn [drained_state] in *; [exact H1|].
  specialize (IH s1 d1).
  destruct (drain_modules cfg pif nWords rest s1 d1); cbn [drained_state] in *;
    congruence.
Qed.

Lemma ReadFIFO_mca cfg pif st :
  mca_args (snd (fst (ReadFIFO cfg pif st))) = mca_args st.
Proof.
  rewrite ReadFIFO_unfold. cbn [fst snd]. unfold ReadFIFO_cycles.
  destruct (negb (acq_running st)); [reflexivity|].
  destruct (wait_threshold pif st POLL_TRIES 0 _) as [cycles nWords].
  destruct (drains st nWords); [|reflexivity].
  pose proof (drain_modules_mca cfg pif nWords
                (seq 0 (n_cards (set_force_spill false st)))
                (set_force_spill false st) 0) as H.
  cbn [mca_args set_force_spill] in H.
  destruct (drain_modules _ _ _ _ _ _) as [st1 e1|st1 d1 e1];
    cbn [drained_state fst snd] in *; [exact H|].
  unfold flush_spill. destruct (record_data st1); [|exact H].
  pose proof (write_data_mca (fifoData st1) (w32 d1) st1) as H2.
  destruct (write_data _ _ _) as [[w st2] e2]. cbn [fst snd] in *. congruence.
Qed.

Lemma end_run_modules_mca cfg pif modules : forall st,
  mca_args (fst (end_run_modules cfg pif modules st)) = mca_args st.
Proof.
  induction modules as [|m rest IH]; intros st; [reflexivity|].
  rewrite end_run_modules_cons. cbv zeta. cbn [fst]. rewrite IH.
  pose proof (ReadFIFO_mca cfg pif (set_force_spill true st)) as H.
  destruct (CheckRunStatus pif m false =? 1), (CheckRunStatus pif m true =? 0);
    cbn [fst mca_args set_had_error]; try reflexivity; exact H.
Qed.

Lemma StartRun_mca st :
  mca_args (snd (fst (StartRun st))) = mca_args st /\
  do_MCA_run (snd (fst (StartRun st))) = do_MCA_run st.
Proof.
  unfold StartRun.
  destruct (do_MCA_run st) eqn:D; [auto|].
  destruct (acq_running st); [auto|].
  assert (H0 : exists s0 e0,
             (if IsOpen (output_file st)
              then let '(_, st', evs) := close_output_file false st in (st', evs)
              else (st, [])) = (s0, e0)
             /\ mca_args s0 = mca_args st /\ do_MCA_run s0 = do_MCA_run st).
  { destruct (IsOpen (output_file st)); [|eauto].
    pose proof (close_output_file_mca false st) as Hc.
    pose proof (keeps_do_MCA_run _ _ (close_output_file_keeps false st)) as Hd.
    destruct (close_output_file false st) as [[b s] e]. eauto. }
  destruct H0 as (s0 & e0 & -> & H0 & D0).
  pose proof (open_output_file_mca false s0) as Ho.
  pose proof (keeps_do_MCA_run _ _ (open_output_file_keeps false s0)) as Hd.
  destruct (open_output_file false s0) as [[ok s1] e1]. cbn [fst snd] in Ho, Hd.
  destruct ok; cbn [negb fst snd]; [|split; congruence].
  unfold StartAcq. cbn [do_MCA_run acq_running set_record_data].
  destruct (do_MCA_run s1) eqn:D1, (acq_running s1); cbn [fst snd do_MCA_run mca_args set_start_acq set_record_data]; split; congruence.
Qed.

(** [mca_args] is zeroed whenever no MCA run has been asked for: it is so
    at the start and stays so through every command and every tick of run
    control. *)
Lemma mca_args_zeroed_kept cfg pif st cmd :
  mca_args_zeroed st ->
  mca_args_zeroed (tick_state (run_control_tick cfg pif st)) /\
  mca_args_zeroed (prompt_state (command_control_step cmd st)) /\
  (forall n disk, mca_args_zeroed (fresh n disk)).
Proof.
  intros H. split; [|split].
  - unfold mca_args_zeroed in *. unfold run_control_tick.
    destruct (kill_check st) as [s0|] eqn:Hk; [|exact H].
    assert (H0 : do_MCA_run s0 = do_MCA_run st /\ mca_args s0 = mca_args st).
    { unfold kill_check in Hk. destruct (kill_all st); [destruct (acq_running st)|];
        inversion Hk; subst; auto. }
    destruct H0 as (D0 & M0).
    assert (H1 : do_MCA_run (fst (reboot_check s0)) = do_MCA_run st /\
                 mca_args (fst (reboot_check s0)) = mca_args st).
    { unfold reboot_check. destruct (do_reboot s0); [destruct (acq_running s0)|];
        cbn; auto. }
    destruct (reboot_check s0) as [s1 e1]. cbn [fst] in H1. destruct H1 as (D1 & M1).
    assert (H2 : do_MCA_run (fst (mca_check s1)) = false ->
                 mca_args (fst (mca_check s1)) = Zero).
    { unfold mca_check. destruct (do_MCA_run s1) eqn:E; [destruct (acq_running s1)|];
        cbn; rewrite ?E; try discriminate; auto.
      intros _. rewrite M1. apply H. congruence. }
    destruct (mca_check s1) as [s2 e2]. cbn [fst] in H2.
    assert (H3 : do_MCA_run (fst (start_check pif s2)) = do_MCA_run s2 /\
                 mca_args (fst (start_check pif s2)) = mca_args s2).
    { unfold start_check.
      repeat match goal with
             | |- context [if ?b then _ else _] => destruct b
             end; cbn; auto. }
    destruct (start_check pif s2) as [s3 e3]. cbn [fst] in H3. destruct H3 as (D3 & M3).
    pose proof (acquire_flags cfg pif s3) as HA. cbv zeta in HA.
    destruct HA as (_ & _ & _ & D4 & _).
    assert (M4 : mca_args (fst (acquire cfg pif s3)) = mca_args s3).
    { unfold acquire. destruct (acq_running s3); [|reflexivity].
      pose proof (ReadFIFO_mca cfg pif s3) as HR.
      destruct (ReadFIFO cfg pif s3) as [[b s4] e4]. cbn [fst snd] in HR.
      destruct (stop_acq s4); [|exact HR].
      pose proof (end_run_modules_mca cfg pif
                    (seq 0 (n_cards (set_acq_running false (set_stop_acq false s4))))
                    (set_acq_running false (set_stop_acq false s4))) as HE.
      destruct (end_run_modules _ _ _ _) as [s5 e5]. cbn [fst] in *.
      rewrite HE. exact HR. }
    destruct (acquire cfg pif s3) as [s4 e4]. cbn [fst tick_state] in *.
    intros Hd. rewrite M4, M3. apply H2. rewrite <- D3, <- D4. exact Hd.
  - unfold command_control_step.
    destruct (String.eqb _ "CTRL_C"); [exact H|].
    destruct (found tab _); [exact H|].
    destruct (String.eqb _ ""); [exact H|].
    destruct (split_command _) as [c a].
    assert (H0 : mca_args_zeroed (set_had_error false st)) by exact H.
    revert H0. generalize (set_had_error false st). clear H st. intros st H.
    pose proof (StartRun_mca st) as (H1 & K1).
    pose proof (close_output_file_mca false st) as H5.
    pose proof (keeps_do_MCA_run _ _ (close_output_file_keeps false st)) as K5.
    unfold mca_args_zeroed in *.
    unfold dispatch, toggled, StartAcq, StopRun, StopAcq.
    destruct (StartRun st) as [[? ?] ?], (close_output_file false st) as [[? ?] ?].
    cbn [fst snd] in H1, H5, K1, K5.
    mca_branch.
    repeat match goal with
           | |- context [if ?b then _ else _] => destruct b eqn:?
           end; cbn [prompt_state]; auto;
      cbn [do_MCA_run mca_args set_kill_all set_stop_acq set_start_acq
           set_record_data set_shm_mode set_do_reboot set_force_spill set_debug_mode
           set_is_quiet set_next_run_num set_output_format set_do_MCA_run set_mca_args];
      auto; try discriminate;
      intros Hx; rewrite ?H1, ?H5; apply H; congruence.
  - intros n disk. unfold mca_args_zeroed. reflexivity.
Qed.

(** [atoi] returns an [int]. *)
Lemma atoi_int s : - 2 ^ 31 <= atoi s < 2 ^ 31.
Proof.
  unfold atoi, to_int.
  pose proof (Z.mod_pos_bound (strtol s + 2 ^ 31) (2 ^ 32) ltac:(lia)). lia.
Qed.

(** What the [mca] branch makes of zeroed arguments, word by word. *)
Lemma mca_arguments_of_zero p_args arguments :
  let a := fst (mca_arguments p_args arguments Zero) in
  let word k := nth k arguments ""%string in
  let timed :=
    (1 <=? p_args) && negb (String.eqb (word 0%nat) "root")
    && negb (String.eqb (word 0%nat) "damm") && negb (atoi (word 0%nat) =? 0) in
  useRoot a = (1 <=? p_args) && String.eqb (word 0%nat) "root" /\
  totalTime a =
    (if timed then atoi (word 0%nat)
     else if (2 <=? p_args) && negb (atoi (word 1%nat) =? 0) then atoi (word 1%nat)
     else 10) /\
  basename a =
    (if 3 <=? p_args then word 2%nat
     else if timed && (2 <=? p_args) then word 1%nat else "MCA"%string).
Proof.
  cbv zeta. unfold mca_arguments, Zero. cbn [totalTime useRoot basename].
  set (a0 := nth 0 arguments ""%string).
  set (a1 := nth 1 arguments ""%string).
  set (a2 := nth 2 arguments ""%string).
  destruct (1 <=? p_args) eqn:E1; destruct (2 <=? p_args) eqn:E2;
    destruct (3 <=? p_args) eqn:E3;
    destruct (String.eqb a0 "root") eqn:Er; destruct (String.eqb a0 "damm") eqn:Ed;
    cbn [negb andb totalTime useRoot basename fst Z.eqb];
    repeat match goal with
           | |- context [atoi ?x =? 0] =>
               let T := fresh "T" in
               destruct (atoi x =? 0) eqn:T;
               cbn [negb andb totalTime useRoot basename fst Z.eqb]
           end;
    rewrite ?Z.leb_le, ?Z.leb_gt in E1, E2, E3;
    repeat match goal with
           | H : (_ =? 0) = true |- _ => apply Z.eqb_eq in H
           | H : (_ =? 0) = false |- _ => apply Z.eqb_neq in H
           | H : String.eqb _ _ = true |- _ => apply String.eqb_eq in H
           end;
    try lia; repeat split; try reflexivity; try congruence.
Qed.

(** X27.  Let a line whose verb is [mca] (or [MCA]) be entered while no
    acquisition and no MCA run is going on, [mca_args] being zeroed as the
    constructor and every MCA run leave it.  The command raises
    [do_MCA_run] and fills [mca_args] from the words of its argument.  The
    time is an [int] and never 0: it is the first word when that word is
    neither [root] nor [damm] and does not read as 0, else the second word
    when there is one and it does not read as 0, else 10 seconds ([atoi]
    keeps the low 32 bits of a numeral, so that 4294967296 reads as 0).
    [useRoot] is set exactly when the first word is [root].  The name is
    the third word when there is one; a second word is taken as the name
    only behind a first word that is a time: behind [root] or [damm] a
    name given in second place is not used.  The MCA run that run control
    then makes is made with these arguments and zeroes them again. *)
Theorem mca_arguments_from_zero line verb arg st :
  split_command line = (verb, arg) ->
  verb = "mca"%string \/ verb = "MCA"%string ->
  found tab line = false ->
  do_MCA_run st = false -> acq_running st = false -> mca_args st = Zero ->
  let arguments := fst (split_str arg default_delimiter) in
  let p_args := snd (split_str arg default_delimiter) in
  let word k := nth k arguments ""%string in
  let timed :=
    (1 <=? p_args) && negb (String.eqb (word 0%nat) "root")
    && negb (String.eqb (word 0%nat) "damm") && negb (atoi (word 0%nat) =? 0) in
  let st' := prompt_state (command_control_step line st) in
  let a := mca_args st' in
  do_MCA_run st' = true /\
  totalTime a <> 0 /\ - 2 ^ 31 <= totalTime a < 2 ^ 31 /\
  useRoot a = (1 <=? p_args) && String.eqb (word 0%nat) "root" /\
  totalTime a =
    (if timed then atoi (word 0%nat)
     else if (2 <=? p_args) && negb (atoi (word 1%nat) =? 0) then atoi (word 1%nat)
     else 10) /\
  basename a =
    (if 3 <=? p_args then word 2%nat
     else if timed && (2 <=? p_args) then word 1%nat else "MCA"%string) /\
  exists msg st'',
    mca_check st' = (st'', [Print msg; PixieRemovePresetRunLength; McaRun a]) /\
    mca_args st'' = Zero /\ do_MCA_run st'' = false.
Proof.
  intros Hs Hverb Htab Hmca Hacq Hzero.
  assert (Hv : verb <> "CTRL_D"%string /\ verb <> "CTRL_C"%string /\ verb <> ""%string)
    by (destruct Hverb as [-> | ->]; repeat split; discriminate).
  destruct Hv as (V1 & V2 & V3).
  destruct (verb_of_line line verb arg Hs V1 V2 V3) as (L1 & L2 & L3).
  cbv zeta. unfold command_control_step. rewrite L1, L2, Htab, L3, Hs.
  assert (Hd : dispatch verb arg (set_had_error false st) =
               let '(arguments, p_args) := split_str arg default_delimiter in
               let '(a, evs) := mca_arguments p_args arguments Zero in
               Back (set_do_MCA_run true (set_mca_args a (set_had_error false st))) evs).
  { unfold dispatch.
    destruct Hverb as [-> | ->];
      cbn [is_cmd String.eqb Ascii.eqb Bool.eqb orb andb
           do_MCA_run acq_running mca_args set_had_error];
      rewrite Hmca, Hacq, Hzero; reflexivity. }
  rewrite Hd. clear Hd.
  destruct (split_str arg default_delimiter) as [arguments p_args]. cbn [fst snd].
  pose proof (mca_arguments_of_zero p_args arguments) as H. cbv zeta in H.
  destruct (mca_arguments p_args arguments Zero) as [a evs].
  cbn [fst prompt_state do_MCA_run mca_args set_do_MCA_run set_mca_args] in *.
  destruct H as (H1 & H2 & H3).
  split; [reflexivity|].
  assert (Hint : - 2 ^ 31 <= totalTime a < 2 ^ 31).
  { rewrite H2.
    repeat match goal with
           | |- context [if ?b then _ else _] => destruct b
           end; try apply atoi_int; lia. }
  assert (Hnz : totalTime a <> 0).
  { rewrite H2.
    destruct (1 <=? p_args); destruct (String.eqb _ "root");
      destruct (String.eqb _ "damm"); destruct (2 <=? p_args);
      cbn [negb andb];
      repeat match goal with
             | |- context [atoi ?x =? 0] =>
                 let T := fresh "T" in
                 destruct (atoi x =? 0) eqn:T; cbn [negb andb]
             end;
      repeat match goal with
             | H : (_ =? 0) = false |- _ => apply Z.eqb_neq in H
             end; try assumption; discriminate. }
  split; [exact Hnz|]. split; [exact Hint|].
  split; [exact H1|]. split; [exact H2|]. split; [exact H3|].
  unfold mca_check.
  cbn [do_MCA_run acq_running mca_args set_do_MCA_run set_mca_args set_had_error].
  rewrite Hacq. eexists; eexists. split; [reflexivity|]. split; reflexivity.
Qed.

(** [mca 4294967296 5]: the first word reads as 0, so that the second word
    is the time, 5 seconds, and the name stays [MCA]; and [mca root run1]:
    the name given in second place is read as a time and lost. *)
Lemma mca_arguments_from_zero_witness :
  mca_args (prompt_state (command_control_step "mca 4294967296 5" (fresh 1 good_disk)))
  = {| useRoot := false; totalTime := 5; basename := "MCA" |} /\
  mca_args (prompt_state (command_control_step "mca root run1" (fresh 1 good_disk)))
  = {| useRoot := true; totalTime := 10; basename := "MCA" |}.
Proof.
  split.
  - destruct (mca_arguments_from_zero "mca 4294967296 5" "mca" "4294967296 5"
                (fresh 1 good_disk) eq_refl (or_introl eq_refl) eq_refl eq_refl
                eq_refl eq_refl) as (_ & _ & _ & H1 & H2 & H3 & _).
    destruct (mca_args _) as [r t0 b]. cbn [useRoot totalTime basename] in *.
    rewrite H1, H2, H3. reflexivity.
  - destruct (mca_arguments_from_zero "mca root run1" "mca" "root run1"
                (fresh 1 good_disk) eq_refl (or_introl eq_refl) eq_refl eq_refl
                eq_refl eq_refl) as (_ & _ & _ & H1 & H2 & H3 & _).
    destruct (mca_args _) as [r t0 b]. cbn [useRoot totalTime basename] in *.
    rewrite H1, H2, H3. reflexivity.
Defined.

(** ** What the statistics are told *)

Lemma parse_events_counts buf slot module stop p0 q :
  reaches buf slot stop p0 q -> q < stop ->
  bad_header slot (buf q) = false -> Header.virtualChannel (buf q) = false ->
  forall fuel es0, stop - p0 <= Z.of_nat fuel ->
    In (StatsAddEvent module (Header.chanRead (buf q)) (4 * Header.eventSize (buf q)))
       (snd (parse_events fuel buf slot module stop p0 es0)).
Proof.
  intros Hreach Hq Hgood Hvirt.
  induction Hreach as [p|p q Hp Hgp Hreach IH]; intros fuel es0 Hfuel.
  - destruct fuel as [|fuel]; [lia|]. rewrite parse_events_S.
    replace (p <? stop) with true by (symmetry; apply Z.ltb_lt; lia).
    rewrite Hgood, Hvirt.
    destruct (parse_events fuel buf slot module stop _ _) as [[p' e'] evs].
    cbn. left. reflexivity.
  - destruct fuel as [|fuel]; [lia|]. rewrite parse_events_S.
    replace (p <? stop) with true by (symmetry; apply Z.ltb_lt; lia).
    rewrite Hgp.
    pose proof (bad_header_false _ _ Hgp) as (_ & Hes).
    specialize (IH Hq Hgood Hvirt fuel (Header.eventSize (buf p)) ltac:(lia)).
    destruct (parse_events fuel buf slot module stop _ _) as [[p' e'] evs].
    cbn [snd] in *. apply in_or_app. right. exact IH.
Qed.

Lemma drain_module_parse_events cfg pif module W st d ws :
  MIN_FIFO_READ cfg <= W -> 0 <= W < EXTERNAL_FIFO_LENGTH cfg ->
  ReadFIFOWords pif module W = Some ws ->
  W + len (partialEvent st module) + 2 < 2 ^ 32 ->
  forall e,
    In e (snd (parse_events (Z.to_nat (W + len (partialEvent st module)))
                 (loaded st module d W ws) (w32 (GetSlotNumber pif module)) module
                 (d + 2 + (W + len (partialEvent st module))) (d + 2) 0)) ->
    In e (drained_events (drain_module cfg pif module W st d)).
Proof.
  intros Hmin Hnf Hread Hfit e He.
  rewrite (drain_module_read cfg pif module W st d ws Hmin Hnf Hread Hfit). cbv zeta.
  destruct (parse_events _ _ _ _ _ _ _) as [[p es] evp]. cbn [snd] in He.
  destruct (_ <? p); [|destruct (p <? _)]; cbn [drained_events];
    rewrite !in_app_iff; tauto.
Qed.

(** X28.  An event that straddles two passes is reported to the statistics
    twice.  Let a read of module [m] end with words saved for the next
    pass, their first word being the header of the event that was cut,
    and let that event not be of a virtual channel.  Then the pass
    reports the event, with its full size, and so does the next pass that
    reads the module, where the walk starts again at the saved header. *)
Theorem straddling_event_is_counted_twice
  cfg pif m W st d ws st' d' evs pif2 W2 st2 d2 ws2 :
  MIN_FIFO_READ cfg <= W -> 0 <= W < EXTERNAL_FIFO_LENGTH cfg ->
  ReadFIFOWords pif m W = Some ws ->
  W + len (partialEvent st m) + 2 < 2 ^ 32 ->
  drain_module cfg pif m W st d = Next st' d' evs ->
  partialEvent st' m <> [] ->
  let h := nth 0 (partialEvent st' m) 0 in
  Header.virtualChannel h = false ->
  MIN_FIFO_READ cfg <= W2 -> 0 <= W2 < EXTERNAL_FIFO_LENGTH cfg ->
  ReadFIFOWords pif2 m W2 = Some ws2 ->
  W2 + len (partialEvent st2 m) + 2 < 2 ^ 32 ->
  partialEvent st2 m = partialEvent st' m ->
  GetSlotNumber pif2 m = GetSlotNumber pif m ->
  let e := StatsAddEvent m (Header.chanRead h) (4 * Header.eventSize h) in
  In e evs /\ In e (drained_events (drain_module cfg pif2 m W2 st2 d2)).
Proof.
  intros Hmin Hnf Hread Hfit Hnext Hsaved h Hvirt Hmin2 Hnf2 Hread2 Hfit2 Hsame Hslot e.
  pose proof (len_nonneg (partialEvent st m)) as Hp0.
  subst e. remember h as hh eqn:Hhh in *. subst h.
  (* the first pass *)
  assert (H1 : In (StatsAddEvent m (Header.chanRead hh) (4 * Header.eventSize hh)) evs /\
               bad_header (w32 (GetSlotNumber pif m)) hh = false).
  { pose proof (drain_module_parse_events cfg pif m W st d ws Hmin Hnf Hread Hfit)
      as Hin.
    destruct (drain_module_outcome cfg pif m W st d ws Hmin Hnf Hread Hfit) as (o & Ho).
    rewrite Hnext in Ho, Hin. cbn [drained_events] in Hin.
    destruct o as [q|q|]; cbn [outcome_ok] in Ho.
    - destruct Ho as (_ & _ & _ & pre & Hx & _). discriminate.
    - cbv zeta in Ho.
      destruct Ho as (Hreach & Hq & Hgood & _ & _ & Hps & _ & evs0 & Heq & _).
      inversion Heq as [[Hst Hd Hev]]. clear Heq.
      assert (Hh : hh = loaded st m d W ws q).
      { rewrite Hhh, Hst.
        cbn [partialEvent set_fifoData set_partialEvent]. rewrite Nat.eqb_refl.
        rewrite load_words_nth by lia. f_equal. lia. }
      rewrite Hh in Hvirt |- *. split; [|exact Hgood].
      first [apply Hin | rewrite <- Hev; apply Hin | rewrite Hev; apply Hin].
      apply (parse_events_counts _ _ m _ (d + 2) q Hreach Hq Hgood Hvirt). lia.
    - destruct Ho as (evs0 & Heq & _). inversion Heq as [[Hst Hd Hev]].
      exfalso. apply Hsaved. rewrite Hst.
      cbn [partialEvent set_fifoData set_partialEvent]. rewrite Nat.eqb_refl.
      reflexivity. }
  destruct H1 as (Hin1 & Hgood). split; [exact Hin1|].
  (* the next pass that reads the module *)
  apply (drain_module_parse_events cfg pif2 m W2 st2 d2 ws2 Hmin2 Hnf2 Hread2 Hfit2).
  assert (Hlen : 0 < len (partialEvent st2 m)).
  { rewrite Hsame. unfold len. destruct (partialEvent st' m); [contradiction|].
    cbn [List.length]. lia. }
  assert (Hh2 : loaded st2 m d2 W2 ws2 (d2 + 2) = hh).
  { pose proof (loaded_partial st2 m d2 W2 ws2) as Hl.
    apply (f_equal (fun l => nth 0 l 0)) in Hl.
    rewrite load_words_nth in Hl by lia.
    replace (d2 + 2 + Z.of_nat 0) with (d2 + 2) in Hl by lia.
    rewrite Hl, Hsame, Hhh. reflexivity. }
  rewrite <- Hh2.
  apply parse_events_counts.
  - apply reaches_here.
  - lia.
  - rewrite Hh2, Hslot. exact Hgood.
  - rewrite Hh2. exact Hvirt.
  - lia.
Qed.

(** The run on [straddle_crate]: the event cut by the first read is
    reported by that read and by the read that follows. *)
Lemma straddling_event_is_counted_twice_witness :
  let r := drain_module pixie16 straddle_crate 0 250 (acquiring 2) 0 in
  let r2 := drain_module pixie16 straddle_crate 0 250 (drained_state r) 0 in
  In (StatsAddEvent 0 0 240) (drained_events r) /\
  In (StatsAddEvent 0 0 240) (drained_events r2).
Proof.
  intros r r2.
  apply (straddling_event_is_counted_twice pixie16 straddle_crate 0%nat 250
           (acquiring 2) 0 straddle_words (drained_state r) 202 (drained_events r)
           straddle_crate 250 (drained_state r) 0 straddle_words).
  - vm_compute. discriminate.
  - vm_compute. split; [discriminate|reflexivity].
  - reflexivity.
  - vm_compute. reflexivity.
  - vm_compute. reflexivity.
  - vm_compute. discriminate.
  - vm_compute. reflexivity.
  - vm_compute. discriminate.
  - vm_compute. split; [discriminate|reflexivity].
  - reflexivity.
  - vm_compute. reflexivity.
  - reflexivity.
  - reflexivity.
Defined.

(** ** Starting a run, forcing a spill *)

(** X29.  Let no acquisition and no MCA run be going on and let the disk
    accept the next file.  Then [StartRun] returns true: a file that is
    open is closed first and the run number moved on, the new file is
    opened as the first of its run, and [record_data] and [start_acq] are
    set.  The tick of run control that finds a crate ready to start then
    has the acquisition running, recording, with the request taken. *)
Theorem run_opens_a_file_and_asks_for_the_start st size :
  do_MCA_run st = false -> acq_running st = false ->
  disk_ok (output_file st) (attempts (output_file st)) = Some size ->
  exists st' evs,
    StartRun st = (true, st', evs) /\
    record_data st' = true /\ start_acq st' = true /\ file_open st' = true /\
    IsOpen (output_file st') = true /\ GetSuffix (output_file st') = 0 /\
    GetRunNumber (output_file st') = next_run_num st' /\
    file_calls evs =
      (if IsOpen (output_file st)
       then [FileClose; FileNextName (next_run_num st')] else [])
      ++ [FileOpen (next_run_num st') false true] /\
    (forall pif, StartListModeRun pif = true ->
       let st2 := fst (start_check pif st') in
       acq_running st2 = true /\ start_acq st2 = false /\ record_data st2 = true).
Proof.
  intros Hmca Hacq Hdisk. unfold StartRun. rewrite Hmca, Hacq.
  destruct (IsOpen (output_file st)) eqn:Hopen.
  - unfold close_output_file. cbn [output_file set_file_open]. rewrite Hopen.
    cbn [negb].
    unfold open_output_file, OpenNewFile.
    cbn [output_file set_output_file set_next_run_num CloseFile IsOpen negb
         disk_ok attempts next_run_num].
    rewrite Hdisk. cbn [negb].
    unfold StartAcq.
    cbn [do_MCA_run acq_running set_record_data set_file_open set_output_file
         set_next_run_num].
    rewrite Hmca, Hacq.
    eexists; eexists. split; [reflexivity|].
    cbn [record_data start_acq file_open output_file set_start_acq set_record_data
         set_file_open set_output_file set_next_run_num IsOpen GetSuffix GetRunNumber
         next_run_num].
    repeat (split; [reflexivity|]).
    intros pif Hstart. unfold start_check.
    cbn [start_acq acq_running set_start_acq set_record_data set_file_open
         set_output_file set_next_run_num].
    rewrite Hacq, Hstart. cbn. auto.
  - unfold open_output_file, OpenNewFile. rewrite Hopen, Hdisk. cbn [negb].
    unfold StartAcq.
    cbn [do_MCA_run acq_running set_record_data set_file_open set_output_file].
    rewrite Hmca, Hacq.
    eexists; eexists. split; [reflexivity|].
    cbn [record_data start_acq file_open output_file set_start_acq set_record_data
         set_file_open set_output_file IsOpen GetSuffix GetRunNumber next_run_num].
    repeat (split; [reflexivity|]).
    intros pif Hstart. unfold start_check.
    cbn [start_acq acq_running set_start_acq set_record_data set_file_open
         set_output_file].
    rewrite Hacq, Hstart. cbn. auto.
Qed.

(** [run] on a fresh program with a good disk. *)
Lemma run_opens_a_file_and_asks_for_the_start_witness :
  exists st' evs,
    StartRun (fresh 2 good_disk) = (true, st', evs) /\
    record_data st' = true /\ start_acq st' = true.
Proof.
  destruct (run_opens_a_file_and_asks_for_the_start (fresh 2 good_disk) 0
              eq_refl eq_refl eq_refl)
    as (st' & evs & H1 & H2 & H3 & _).
  exists st', evs. split; [exact H1|]. split; assumption.
Defined.

(** X30.  The command [spill], or [hup], given while the acquisition runs
    sets [force_spill].  The next pass of [ReadFIFO] then drains whatever
    the depths are, and leaves [force_spill] cleared: the spill is forced
    once.  Unless the pass is abandoned, it ends with the spill sent and
    its time given to the statistics. *)
Theorem spill_forces_one_pass cfg pif arg st :
  acq_running st = true -> do_MCA_run st = false ->
  let st1 := prompt_state (dispatch "spill" arg st) in
  let r := ReadFIFO cfg pif st1 in
  st1 = set_force_spill true st /\
  dispatch "hup" arg st = dispatch "spill" arg st /\
  (forall nWords, drains st1 nWords = true) /\
  force_spill (snd (fst r)) = false /\
  (fst (fst r) = true -> last (snd r) Sleep = StatsAddTime).
Proof.
  intros Hacq Hmca.
  assert (Hs : dispatch "spill" arg st = Back (set_force_spill true st) []).
  { unfold dispatch. cbn [is_cmd String.eqb Ascii.eqb Bool.eqb orb].
    rewrite Hmca, Hacq. reflexivity. }
  assert (Hh : dispatch "hup" arg st = Back (set_force_spill true st) []).
  { unfold dispatch. cbn [is_cmd String.eqb Ascii.eqb Bool.eqb orb].
    rewrite Hmca, Hacq. reflexivity. }
  cbv zeta. rewrite Hs, Hh. cbn [prompt_state].
  set (st1 := set_force_spill true st).
  assert (Hd : forall nWords, drains st1 nWords = true).
  { intros nWords. unfold drains. cbn [force_spill st1 set_force_spill].
    apply orb_true_r. }
  split; [reflexivity|]. split; [reflexivity|]. split; [exact Hd|].
  split.
  - pose proof (ReadFIFO_clears cfg pif st1) as (_ & _ & Hc). cbv zeta in Hc.
    apply Hc. split; [exact Hacq|apply Hd].
  - rewrite ReadFIFO_unfold. cbn [fst snd]. unfold ReadFIFO_cycles.
    change (acq_running st1) with (acq_running st). rewrite Hacq. cbn [negb].
    destruct (wait_threshold pif st1 POLL_TRIES 0 _) as [cycles nWords].
    rewrite Hd.
    destruct (drain_modules _ _ _ _ _ _) as [s e|s dw e]; cbn [fst snd];
      [discriminate|].
    intros _. unfold flush_spill.
    destruct (if record_data s then _ else _) as [s2 ew]. cbn [fst snd].
    rewrite !app_assoc. apply last_last.
Qed.

(** [spill] during a run whose FIFOs are empty. *)
Lemma spill_forces_one_pass_witness :
  force_spill (snd (fst (ReadFIFO pixie16 empty_crate
                           (prompt_state (dispatch "spill" "" (acquiring 2))))))
  = false.
Proof.
  apply (spill_forces_one_pass pixie16 empty_crate "" (acquiring 2));
    reflexivity.
Defined.
